(** * Agent-S3 browser bridge and hybrid routing: a verification development

    The development embeds two Python modules,
    [gui_agents/s3/browser/bridge.py] (the WebSocket command bridge) and
    [gui_agents/s3/agents/hybrid_aci.py] (the DOM-first / visual-fallback
    router), and proves properties of the embedded code.

    Python values that cross the wire are JSON documents; Python control
    (return / raise / try / except / finally) is a state-and-exception
    monad; the objects shared between the caller threads and the event
    loop (the futures, the pending-command dict) live in one store.
    [Bridge] runs the bridge in whole turns of a caller or of the loop;
    [Threads] runs it one statement at a time under any schedule, the
    bridge having no lock. *)

From stdpp Require Import gmap strings list pretty.
From Stdlib Require Import QArith.

Open Scope Z_scope.

(** ** Python control flow *)

Module Py.

(** The exception classes the two modules raise, catch or can meet; every
    one of them derives from [Exception]. [CancelledError] is the one of
    [concurrent.futures], raised by [result()] on a cancelled future. *)
Inductive exn_class :=
  | AttributeError
  | TypeError
  | JSONDecodeError
  | ConnectionClosed
  | ConnectionError
  | TimeoutError
  | CancelledError
  | ImportError
  | KeyError
  | RuntimeError
  | RecursionError
  | UnicodeDecodeError
  | ValueError.

Record exn := mkExn { cls : exn_class; msg : string }.

(** [str(e)] of an exception built from one message. *)
Definition str (e : exn) : string := msg e.

Inductive result (A : Type) :=
  | Returned (a : A)
  | Raised (e : exn).
Arguments Returned {A} a.
Arguments Raised {A} e.

Definition M (S A : Type) : Type := S -> result A * S.

Definition ret {S A} (a : A) : M S A := fun s => (Returned a, s).
Definition raise {S A} (e : exn) : M S A := fun s => (Raised e, s).
Definition bind {S A B} (c : M S A) (k : A -> M S B) : M S B :=
  fun s => match c s with
           | (Returned a, s') => k a s'
           | (Raised e, s') => (Raised e, s')
           end.
Definition gets {S A} (f : S -> A) : M S A := fun s => (Returned (f s), s).
Definition modify {S} (f : S -> S) : M S unit := fun s => (Returned tt, f s).

(** [try: c except ...: handler e]; a handler answering [None] does not
    match the exception, which then propagates. *)
Definition try_except {S A} (c : M S A) (handler : exn -> option (M S A)) : M S A :=
  fun s => match c s with
           | (Returned a, s') => (Returned a, s')
           | (Raised e, s') =>
               match handler e with
               | Some h => h s'
               | None => (Raised e, s')
               end
           end.

(** [try: c finally: f]. *)
Definition try_finally {S A} (c : M S A) (f : M S unit) : M S A :=
  fun s => match c s with
           | (r, s') =>
               match f s' with
               | (Returned _, s'') => (r, s'')
               | (Raised e, s'') => (Raised e, s'')
               end
           end.

End Py.

Import Py.

Notation "'let*' x ':=' c 'in' k" := (bind c (fun x => k))
  (at level 10, x name, c at level 100, k at level 200, only parsing).
Notation "c1 >>> c2" := (bind c1 (fun _ => c2))
  (at level 100, c2 at level 200, right associativity, only parsing).

(** ** JSON documents, as [json.loads] builds them and [json.dumps] reads them *)

Module Json.

(** Numbers are integers: no float takes part in the logic modelled here.
    An object is the list of its items (keys distinct, as in a dict). *)
#[warnings="-register-all"]
Inductive json :=
  | JNull
  | JBool (b : bool)
  | JNum (n : Z)
  | JStr (s : string)
  | JArr (items : list json)
  | JObj (fields : list (string * json)).

(** Python truthiness ([if v:], [v and w], [v or w]). *)
Definition truthy (v : json) : bool :=
  match v with
  | JNull => false
  | JBool b => b
  | JNum n => negb (n =? 0)
  | JStr s => negb (String.eqb s "")
  | JArr items => match items with [] => false | _ => true end
  | JObj fields => match fields with [] => false | _ => true end
  end.

Fixpoint lookup_field (k : string) (fields : list (string * json)) : option json :=
  match fields with
  | [] => None
  | (k', v) :: rest => if String.eqb k' k then Some v else lookup_field k rest
  end.

(** [d.get(k, dflt)]: only a dict has [.get]. *)
Definition py_get (d : json) (k : string) (dflt : json) : result json :=
  match d with
  | JObj fields => Returned (default dflt (lookup_field k fields))
  | _ => Raised (mkExn AttributeError "object has no attribute 'get'")
  end.

(** [v == s] for a string literal [s]. *)
Definition eq_str (v : json) (s : string) : bool :=
  match v with
  | JStr s' => String.eqb s' s
  | _ => false
  end.

(** [d[k] = v] on a dict given by its items. *)
Fixpoint set_field (k : string) (v : json) (fields : list (string * json))
  : list (string * json) :=
  match fields with
  | [] => [(k, v)]
  | (k', v') :: rest =>
      if String.eqb k' k then (k, v) :: rest else (k', v') :: set_field k v rest
  end.

(** The two failure dicts [send_command] builds itself. *)
Definition failure (error : string) : json :=
  JObj [("success", JBool false); ("error", JStr error)].

Definition is_failure (o : json) : Prop := exists error, o = failure error.

End Json.

Import Json.

(** ** bridge.py *)

Module Bridge.

(** One future of the event loop ([loop.create_future()]). *)
Inductive future :=
  | Pending
  | Result (data : json)
  | Exception (e : exn)
  | Cancelled.

(** [future.done()]. *)
Definition done (f : future) : bool :=
  match f with
  | Pending => false
  | _ => true
  end.

Inductive log_record :=
  | LogInfo (text : string)
  | LogWarning (text : string)
  | LogError (text : string)
  | LogException (text : string).

(** What makes [json.loads] give up on a message without calling it
    invalid JSON: nesting deeper than the interpreter's recursion limit
    ([RecursionError]), an integer literal longer than the digit limit of
    [int] ([ValueError]), a binary message that is not valid UTF-8
    ([UnicodeDecodeError]). *)
Inductive refusal := TooDeep | TooManyDigits | NotUnicode.

(** A message received from the peer, by what [json.loads] makes of it:
    text that is not JSON ([JSONDecodeError]), a message the decoder
    gives up on with another exception, or the document it encodes. *)
Inductive frame :=
  | NotJson (text : string)
  | Refused (text : string) (why : refusal)
  | JsonText (v : json).

Definition json_loads (message : frame) : result json :=
  match message with
  | NotJson _ => Raised (mkExn JSONDecodeError "Expecting value")
  | Refused _ TooDeep =>
      Raised (mkExn RecursionError "maximum recursion depth exceeded")
  | Refused _ TooManyDigits =>
      Raised (mkExn ValueError
                "Exceeds the limit (4300 digits) for integer string conversion")
  | Refused _ NotUnicode =>
      Raised (mkExn UnicodeDecodeError "'utf-8' codec can't decode byte")
  | JsonText v => Returned v
  end.

(** Opaque runtime handles (server, event loop, thread). *)
Inductive handle := Handle.

(** The attributes of a [BrowserBridge] object (lines 34-43), followed by
    the runtime it works on: the futures created on its event loop, the
    command frames handed to [client.send], the log. Futures are referred
    to by their index in [futures]; the dict [_pending_commands] and a
    blocked caller hold the same index, hence the same future. *)
Record BrowserBridge := mkBridge {
  host : string;
  port : Z;
  server : option handle;
  client : option nat;
  connected : bool;
  _command_id : Z;
  _pending_commands : gmap string nat;
  _loop : option handle;
  _thread : option handle;
  _running : bool;
  futures : list future;
  sent : list json;
  log : list log_record
}.

(** [BrowserBridge.__init__] with its default arguments. *)
Definition init : BrowserBridge :=
  mkBridge "127.0.0.1" 9333 None None false 0 ∅ None None false [] [] [].

Definition with_client (c : option nat) (b : BrowserBridge) : BrowserBridge :=
  mkBridge (host b) (port b) (server b) c (connected b) (_command_id b)
    (_pending_commands b) (_loop b) (_thread b) (_running b)
    (futures b) (sent b) (log b).

Definition with_connected (v : bool) (b : BrowserBridge) : BrowserBridge :=
  mkBridge (host b) (port b) (server b) (client b) v (_command_id b)
    (_pending_commands b) (_loop b) (_thread b) (_running b)
    (futures b) (sent b) (log b).

Definition with_command_id (n : Z) (b : BrowserBridge) : BrowserBridge :=
  mkBridge (host b) (port b) (server b) (client b) (connected b) n
    (_pending_commands b) (_loop b) (_thread b) (_running b)
    (futures b) (sent b) (log b).

Definition with_pending (p : gmap string nat) (b : BrowserBridge) : BrowserBridge :=
  mkBridge (host b) (port b) (server b) (client b) (connected b) (_command_id b)
    p (_loop b) (_thread b) (_running b)
    (futures b) (sent b) (log b).

Definition with_futures (fs : list future) (b : BrowserBridge) : BrowserBridge :=
  mkBridge (host b) (port b) (server b) (client b) (connected b) (_command_id b)
    (_pending_commands b) (_loop b) (_thread b) (_running b)
    fs (sent b) (log b).

Definition with_sent (out : list json) (b : BrowserBridge) : BrowserBridge :=
  mkBridge (host b) (port b) (server b) (client b) (connected b) (_command_id b)
    (_pending_commands b) (_loop b) (_thread b) (_running b)
    (futures b) out (log b).

Definition with_log (l : list log_record) (b : BrowserBridge) : BrowserBridge :=
  mkBridge (host b) (port b) (server b) (client b) (connected b) (_command_id b)
    (_pending_commands b) (_loop b) (_thread b) (_running b)
    (futures b) (sent b) l.

(** [start] (lines 45-61): idempotent through [_running]; the server
    thread creates the event loop and binds the listener. *)
Definition start (b : BrowserBridge) : BrowserBridge :=
  if _running b then b
  else mkBridge (host b) (port b) (Some Handle) (client b) (connected b)
         (_command_id b) (_pending_commands b) (Some Handle) (Some Handle) true
         (futures b) (sent b) (log b).

Definition logger (r : log_record) : M BrowserBridge unit :=
  modify (fun b => with_log (log b ++ [r]) b).

(** The state of the future behind a reference; a reference always points
    into [futures], an index outside it reads as a future nobody resolved. *)
Definition future_at (b : BrowserBridge) (f : nat) : future :=
  default Pending (futures b !! f).

(** [future.set_result(data)] / [future.set_exception(e)] /
    cancellation, on the future behind reference [f]. *)
Definition resolve (f : nat) (v : future) (b : BrowserBridge) : BrowserBridge :=
  with_futures (<[f := v]> (futures b)) b.

(** [self._loop.create_future()]. *)
Definition create_future : M BrowserBridge nat :=
  fun b => (Returned (length (futures b)), with_futures (futures b ++ [Pending]) b).

(** [cmd_id in self._pending_commands]: a list or a dict is unhashable,
    any other non-string is hashable but is no key of the dict. *)
Definition pending_contains (cmd_id : json) (b : BrowserBridge) : result (option string) :=
  match cmd_id with
  | JStr k => Returned (if decide (is_Some (_pending_commands b !! k)) then Some k else None)
  | JArr _ => Raised (mkExn TypeError "unhashable type: 'list'")
  | JObj _ => Raised (mkExn TypeError "unhashable type: 'dict'")
  | _ => Returned None
  end.

(** [_handle_message] (lines 120-138). *)
Definition _handle_message (message : frame) : M BrowserBridge unit :=
  try_except
    (let* data := (fun b => (json_loads message, b)) in
     let* ty := (fun b => (py_get data "type" JNull, b)) in
     if eq_str ty "handshake" then
       logger (LogInfo "Extension handshake")
     else
       let* cmd_id := (fun b => (py_get data "id" JNull, b)) in
       if truthy cmd_id then
         let* hit := (fun b => (pending_contains cmd_id b, b)) in
         match hit with
         | Some k =>
             fun b =>
               match _pending_commands b !! k with
               | Some future =>
                   let b' := with_pending (delete k (_pending_commands b)) b in
                   if negb (done (future_at b' future))
                   then (Returned tt, resolve future (Result data) b')
                   else (Returned tt, b')
               | None => (Returned tt, b)
               end
         | None => ret tt
         end
       else ret tt)
    (fun e => match cls e with
              | JSONDecodeError => Some (logger (LogError "Invalid JSON from extension"))
              | _ => None
              end).

(** [_handle_client], lines 97-101: a peer connected. *)
Definition _handle_client_enter (websocket : nat) : M BrowserBridge unit :=
  logger (LogInfo "Browser extension connected") >>>
  modify (with_client (Some websocket)) >>>
  modify (with_connected true).

Definition disconnected : exn := mkExn ConnectionError "Extension disconnected".

(** Lines 116-117, for one value of the dict. *)
Definition cancel_one (future : nat) (b : BrowserBridge) : BrowserBridge :=
  if negb (done (future_at b future))
  then resolve future (Exception disconnected) b
  else b.

(** The loop of lines 115-117, over the items of the dict. *)
Definition cancel_all (items : list (string * nat)) (b : BrowserBridge) : BrowserBridge :=
  foldr (fun item acc => cancel_one item.2 acc) b items.

(** The [finally] block, lines 111-118, run with no caller thread in
    between: the loop of line 115 then meets the dict as it was at line
    111. [Threads] takes the block statement by statement. *)
Definition _handle_client_finally : M BrowserBridge unit :=
  modify (with_client None) >>>
  modify (with_connected false) >>>
  modify (fun b => cancel_all (map_to_list (_pending_commands b)) b) >>>
  modify (with_pending ∅).

(** The [except] clauses, lines 106-109. *)
Definition _handle_client_except (e : exn) : option (M BrowserBridge unit) :=
  match cls e with
  | ConnectionClosed => Some (logger (LogWarning "Browser extension disconnected"))
  | _ => Some (logger (LogException "Unexpected error in WebSocket handler"))
  end.

(** How the peer's stream of messages ends: closed normally (the
    [async for] just ends) or with an error ([ConnectionClosed] is raised). *)
Inductive closing := ClosedOK | ClosedError.

(** The [async for] of lines 104-105 over the messages the peer sends
    before the connection closes. *)
Fixpoint receive_loop (inbound : list frame) (how : closing) : M BrowserBridge unit :=
  match inbound with
  | [] =>
      match how with
      | ClosedOK => ret tt
      | ClosedError => raise (mkExn ConnectionClosed "connection closed")
      end
  | message :: rest => _handle_message message >>> receive_loop rest how
  end.

(** [_handle_client] (lines 95-118) run from connection to exit. *)
Definition _handle_client (websocket : nat) (inbound : list frame) (how : closing)
  : M BrowserBridge unit :=
  _handle_client_enter websocket >>>
  try_finally
    (try_except (receive_loop inbound how) _handle_client_except)
    _handle_client_finally.

(** The handler leaves its loop with outcome [r] (normal end or an
    exception): the [except] clauses and the [finally] block. *)
Definition _handle_client_exit (r : result unit) : M BrowserBridge unit :=
  try_finally
    (try_except (fun b => (r, b)) _handle_client_except)
    _handle_client_finally.

(** What the event loop does, one step at a time, while caller threads
    run: a peer connects, the connected peer sends one message (one
    iteration of the [async for]), the connection closes. *)
Inductive loop_event :=
  | PeerConnects (websocket : nat)
  | PeerSends (message : frame)
  | PeerCloses (how : closing).

Definition loop_step (ev : loop_event) (b : BrowserBridge) : BrowserBridge :=
  match ev with
  | PeerConnects websocket => (_handle_client_enter websocket b).2
  | PeerSends message =>
      match _handle_message message b with
      | (Returned _, b') => b'
      | (Raised e, b') => (_handle_client_exit (Raised e) b').2
      end
  | PeerCloses how =>
      match receive_loop [] how b with
      | (r, b') => (_handle_client_exit r b').2
      end
  end.

(** The correlation ID of line 162, [f"cmd-{self._command_id}"]. *)
Definition cmd_key (n : Z) : string := "cmd-" +:+ pretty n.

(** [self._pending_commands.pop(cmd_id, None)]. *)
Definition pop_pending (cmd_id : string) : M BrowserBridge unit :=
  modify (fun b => with_pending (delete cmd_id (_pending_commands b)) b).

(** [self.client.send(json.dumps(command))], evaluated by the caller
    thread: with no client the attribute access fails. The frame is
    recorded as the document it encodes. *)
Definition client_send (command : json) : M BrowserBridge unit :=
  fun b => match client b with
           | Some _ => (Returned tt, with_sent (sent b ++ [command]) b)
           | None => (Raised (mkExn AttributeError
                        "'NoneType' object has no attribute 'send'"), b)
           end.

(** The deadline of [asyncio.wait_for] passes with the future still
    pending: the future is cancelled and [TimeoutError] raised. *)
Definition wait_for_timeout (future : nat) : M BrowserBridge json :=
  modify (resolve future Cancelled) >>> raise (mkExn TimeoutError "").

(** [asyncio.wait_for(future, timeout)] followed by [result_future.result]
    (lines 182-186): the caller sleeps until the future is done or the
    deadline passes. [evs] lists what the event loop does meanwhile, each
    step with its time in seconds after the wait began. *)
Fixpoint wait_for (future : nat) (timeout : Q) (evs : list (Q * loop_event))
  : M BrowserBridge json :=
  fun b =>
    match future_at b future with
    | Result data => (Returned data, b)
    | Exception e => (Raised e, b)
    | Cancelled => (Raised (mkExn CancelledError ""), b)
    | Pending =>
        match evs with
        | (t, ev) :: rest =>
            if Qle_bool timeout t then wait_for_timeout future b
            else wait_for future timeout rest (loop_step ev b)
        | [] => wait_for_timeout future b
        end
    end.

(** Lines 180-193: the wait and its two [except] clauses. *)
Definition send_command_wait (cmd_id : string) (future : nat) (timeout : Q)
    (evs : list (Q * loop_event)) : M BrowserBridge json :=
  try_except (wait_for future timeout evs)
    (fun e => match cls e with
              | TimeoutError =>
                  Some (pop_pending cmd_id >>> ret (failure "Command timed out"))
              | _ =>
                  Some (pop_pending cmd_id >>> ret (failure (str e)))
              end).

(** The command dict of lines 164-168; [params or {}]. *)
Definition command_frame (cmd_id action : string) (params : json) : json :=
  JObj [("id", JStr cmd_id); ("action", JStr action);
        ("params", if truthy params then params else JObj [])].

(** Lines 157-178: the connection check, the allocation of the
    correlation ID, the registration of the future and the send, run
    with no other thread in between ([Threads] takes them statement by
    statement). The answer is the early return value, or what the caller
    then waits with: its ID, its future and the frame it sent. [params]
    is [JNull] for [None]. *)
Definition send_command_begin (action : string) (params : json)
  : M BrowserBridge (json + string * nat * json) :=
  let* is_connected := gets connected in
  let* loop := gets _loop in
  if negb is_connected || negb (bool_decide (is_Some loop)) then
    ret (inl (failure "Extension not connected"))
  else
    modify (fun b => with_command_id (_command_id b + 1) b) >>>
    let* n := gets _command_id in
    let cmd_id := cmd_key n in
    let command := command_frame cmd_id action params in
    let* future := create_future in
    modify (fun b => with_pending (<[cmd_id := future]> (_pending_commands b)) b) >>>
    client_send command >>>
    ret (inr (cmd_id, future, command)).

Section Commands.

(** The environment of a call: what the event loop meets, and when, while
    the caller waits for the answer to the frame it sent. *)
Variable peer : json -> list (Q * loop_event).

(** [send_command] (lines 140-193), for a caller that no other caller
    and no handler interrupts before its wait. *)
Definition send_command (action : string) (params : json) (timeout : Q)
  : M BrowserBridge json :=
  let* started := send_command_begin action params in
  match started with
  | inl outcome => ret outcome
  | inr (cmd_id, future, command) =>
      send_command_wait cmd_id future timeout (peer command)
  end.

Definition default_timeout : Q := 10 # 1.

(** [if s:] for an optional string argument. *)
Definition given (s : option string) : bool :=
  match s with
  | Some v => negb (String.eqb v "")
  | None => false
  end.

Definition add_if (cond : bool) (k : string) (v : json)
    (fields : list (string * json)) : list (string * json) :=
  if cond then set_field k v fields else fields.

Definition jstr (s : option string) : json := JStr (default "" s).

(** [navigate] (lines 197-199). *)
Definition navigate (url : string) : M BrowserBridge json :=
  send_command "navigate" (JObj [("url", JStr url)]) default_timeout.

(** [click] (lines 201-215). *)
Definition click (selector text : option string) (coordinates : option (list Z))
  : M BrowserBridge json :=
  let params := [] in
  let params := add_if (given selector) "selector" (jstr selector) params in
  let params := add_if (given text) "text" (jstr text) params in
  let params :=
    match coordinates with
    | Some (x :: xs) => set_field "coordinates" (JArr (map JNum (x :: xs))) params
    | _ => params
    end in
  send_command "click" (JObj params) default_timeout.

(** [type_text] (lines 217-227). *)
Definition type_text (text : string) (selector : option string) (clear : bool)
  : M BrowserBridge json :=
  let params := [("text", JStr text); ("clear", JBool clear)] in
  let params := add_if (given selector) "selector" (jstr selector) params in
  send_command "type" (JObj params) default_timeout.

(** [scroll] (lines 229-239). *)
Definition scroll (direction : string) (amount : Z) (selector : option string)
  : M BrowserBridge json :=
  let params := [("direction", JStr direction); ("amount", JNum amount)] in
  let params := add_if (given selector) "selector" (jstr selector) params in
  send_command "scroll" (JObj params) default_timeout.

(** [screenshot] (lines 241-243). *)
Definition screenshot : M BrowserBridge json :=
  send_command "screenshot" JNull default_timeout.

(** [get_dom] (lines 245-247). *)
Definition get_dom (simplified : bool) : M BrowserBridge json :=
  send_command "get_dom" (JObj [("simplified", JBool simplified)]) default_timeout.

(** [find_element] (lines 249-260). *)
Definition find_element (selector text : option string) : M BrowserBridge json :=
  let params := [] in
  let params := add_if (given selector) "selector" (jstr selector) params in
  let params := add_if (given text) "text" (jstr text) params in
  send_command "find_element" (JObj params) default_timeout.

End Commands.

(** *** Callers and the event loop taking turns

    Caller threads and the event loop take turns, none preempted inside
    a turn. A caller's [send_command] is two turns: lines 157-178 up to
    the send, then, when its wait ends, lines 180-193; a turn of the loop
    is one [loop_event], its handler run to the next [await]. [waiting]
    lists the callers between their two turns, each by the ID and the
    future it holds. [stop] is called nowhere in the repository and is
    not among the steps. The bridge itself has no lock: what threads
    preempted inside a turn can do is the matter of [Threads]. *)
Record system := mkSystem {
  bridge : BrowserBridge;
  waiting : list (string * nat)
}.

Inductive op :=
  | BridgeStarts
  | CallerSends (action : string) (params : json)
  | LoopRuns (ev : loop_event)
  | CallerWakes (cmd_id : string) (future : nat).

Definition sys_step (o : op) (s : system) : system :=
  match o with
  | BridgeStarts => mkSystem (start (bridge s)) (waiting s)
  | CallerSends action params =>
      match send_command_begin action params (bridge s) with
      | (Returned (inr (cmd_id, future, _)), b') =>
          mkSystem b' ((cmd_id, future) :: waiting s)
      | (_, b') => mkSystem b' (waiting s)
      end
  | LoopRuns ev => mkSystem (loop_step ev (bridge s)) (waiting s)
  | CallerWakes cmd_id future =>
      if bool_decide ((cmd_id, future) ∈ waiting s) then
        mkSystem (send_command_wait cmd_id future 0 [] (bridge s)).2
          (filter (fun w => w ≠ (cmd_id, future)) (waiting s))
      else s
  end.

Definition run (ops : list op) (s : system) : system :=
  foldl (fun acc o => sys_step o acc) s ops.

Definition reachable (s : system) : Prop :=
  exists ops, run ops (mkSystem init []) = s.

(** *** Invariants

    [evolves b b'] bounds what the event loop can do to the bridge in any
    number of steps: it never touches the ID counter or the frames sent,
    creates no future, adds no entry to the dict, never changes a future
    that is done, removes an entry only with its future done, and sets no
    result but the dict decoded from a frame. *)
Record evolves (b b' : BrowserBridge) : Prop := mkEvolves {
  ev_command_id : _command_id b' = _command_id b;
  ev_sent : sent b' = sent b;
  ev_loop : _loop b' = _loop b;
  ev_length : length (futures b') = length (futures b);
  ev_pending : forall k f,
    _pending_commands b' !! k = Some f -> _pending_commands b !! k = Some f;
  ev_done : forall f,
    done (future_at b f) = true -> future_at b' f = future_at b f;
  ev_removed : forall k f,
    _pending_commands b !! k = Some f -> (f < length (futures b))%nat ->
    done (future_at b' f) = false -> _pending_commands b' !! k = Some f;
  ev_result : forall f data,
    future_at b' f = Result data ->
    future_at b f = Result data \/ exists fields, data = JObj fields
}.

(** What holds of the bridge and its waiting callers in every state
    reached by whole turns. *)
Record inv (s : system) : Prop := mkInv {
  inv_client : connected (bridge s) = true -> is_Some (client (bridge s));
  inv_counter : _command_id (bridge s) = Z.of_nat (length (sent (bridge s)));
  inv_sent : forall i c,
    sent (bridge s) !! i = Some c ->
    py_get c "id" JNull = Returned (JStr (cmd_key (Z.of_nat (S i))));
  inv_keys : forall k f,
    _pending_commands (bridge s) !! k = Some f ->
    exists n, k = cmd_key n /\ 1 <= n <= _command_id (bridge s);
  inv_waiting : forall k f,
    (k, f) ∈ waiting s ->
    (f < length (futures (bridge s)))%nat /\
    exists n, k = cmd_key n /\ 1 <= n <= _command_id (bridge s);
  inv_registered : forall k f,
    (k, f) ∈ waiting s -> done (future_at (bridge s) f) = false ->
    _pending_commands (bridge s) !! k = Some f;
  inv_nodup : NoDup (waiting s).*1;
  inv_values : forall k f,
    _pending_commands (bridge s) !! k = Some f ->
    (f < length (futures (bridge s)))%nat;
  inv_inj : forall k1 k2 f,
    _pending_commands (bridge s) !! k1 = Some f ->
    _pending_commands (bridge s) !! k2 = Some f -> k1 = k2;
  inv_results : forall f data,
    future_at (bridge s) f = Result data -> exists fields, data = JObj fields
}.

(** The steps of the event loop that fall before the deadline of a wait. *)
Fixpoint before (timeout : Q) (evs : list (Q * loop_event)) : list loop_event :=
  match evs with
  | (t, ev) :: rest => if Qle_bool timeout t then [] else ev :: before timeout rest
  | [] => []
  end.

Definition loop_run (evs : list loop_event) (b : BrowserBridge) : BrowserBridge :=
  foldl (fun acc ev => loop_step ev acc) b evs.

End Bridge.

(** ** hybrid_aci.py *)

Module Hybrid.

Import Bridge.

(** A call handed to the parent class [OSWorldACI], the visual executor. *)
Inductive visual_call :=
  | VisualClick (element_description : string) (num_clicks : Z)
      (button_type : string) (hold_keys : list string)
  | VisualType (text element_description : string) (overwrite enter : bool)
  | VisualScroll (element_description direction : string) (amount : Z).

(** A [HybridACI] object ([enable_browser], [bridge]) together with what
    its methods read and touch outside it: the answer of
    [is_browser_active()] and the calls made to the parent class. The
    bridge object is held in the field itself. *)
Record HybridACI := mkACI {
  enable_browser : bool;
  bridge : option BrowserBridge;
  is_browser_active : bool;
  visual_calls : list visual_call
}.

Definition with_bridge (b : option BrowserBridge) (w : HybridACI) : HybridACI :=
  mkACI (enable_browser w) b (is_browser_active w) (visual_calls w).

Definition with_visual_calls (l : list visual_call) (w : HybridACI) : HybridACI :=
  mkACI (enable_browser w) (bridge w) (is_browser_active w) l.

(** A method call [self.bridge.m(...)]; on [None] the attribute access
    fails. *)
Definition on_bridge {A} (m : M BrowserBridge A) : M HybridACI A :=
  fun w => match bridge w with
           | Some b => match m b with
                       | (r, b') => (r, with_bridge (Some b') w)
                       end
           | None => (Raised (mkExn AttributeError
                        "'NoneType' object has no attribute"), w)
           end.

(** A pure Python expression that may raise. *)
Definition eval {S A} (r : result A) : M S A := fun s => (r, s).

(** [result.get("success") and result.get("result", {}).get(flag)]: the
    right operand is evaluated only when the left one is truthy. *)
Definition success_and (result : json) (flag : string) : Py.result json :=
  match py_get result "success" JNull with
  | Returned success =>
      if truthy success then
        match py_get result "result" (JObj []) with
        | Returned payload => py_get payload flag JNull
        | Raised e => Raised e
        end
      else Returned success
  | Raised e => Raised e
  end.

(** [browser_available] (lines 58-63). *)
Definition browser_available (w : HybridACI) : bool :=
  match bridge w with
  | Some b => if negb (enable_browser w) then false else connected b
  | None => false
  end.

(** The bridge's peer is connected: [self.bridge.connected], false with
    no bridge. *)
Definition peer_connected (w : HybridACI) : bool :=
  match bridge w with
  | Some b => connected b
  | None => false
  end.

Definition with_active (a : bool) (w : HybridACI) : HybridACI :=
  mkACI (enable_browser w) (bridge w) a (visual_calls w).

(** [_should_use_browser] (lines 65-71). *)
Definition _should_use_browser (w : HybridACI) : bool :=
  if negb (browser_available w) then false else is_browser_active w.

Section Routing.

Variable peer : json -> list (Q * loop_event).

(** The parent class [OSWorldACI] and the decorator [agent_action] live
    in grounding.py, outside these two modules. The parent's methods are
    the visual executor: [visual] is the instruction string it returns
    for a call. The decorator marks a method as an agent action and hands
    it back as it is, so a decorated method is modelled undecorated. *)
Variable visual : visual_call -> string.

(** Python's [repr] of a string. *)
Variable repr : string -> string.

(** [super().click(...)], [super().type(...)], [super().scroll(...)]. *)
Definition super (call : visual_call) : M HybridACI string :=
  fun w => (Returned (visual call), with_visual_calls (visual_calls w ++ [call]) w).

(** [_try_browser_click] (lines 73-92). *)
Definition _try_browser_click (element_description : string)
  : M HybridACI (option string) :=
  let* available := gets browser_available in
  if negb available then ret None
  else
    let* result := on_bridge (Bridge.click peer None (Some element_description) None) in
    let* clicked := eval (success_and result "clicked") in
    if truthy clicked then
      ret (Some "import time; time.sleep(0.3)  # DOM click completed")
    else ret None.

(** [_try_browser_type] (lines 94-124). *)
Definition _try_browser_type (text : string) (element_description : option string)
    (clear : bool) : M HybridACI (option string) :=
  let* available := gets browser_available in
  if negb available then ret None
  else
    let* found :=
      (if given element_description then
         let* find_result := on_bridge (find_element peer None element_description) in
         let* found := eval (success_and find_result "found") in
         ret (truthy found)
       else ret true) in
    if negb found then ret None
    else
      let* result := on_bridge (type_text peer text None clear) in
      let* typed := eval (success_and result "typed") in
      if truthy typed then
        ret (Some "import time; time.sleep(0.2)  # DOM type completed")
      else ret None.

(** [click] (lines 126-149). *)
Definition click (element_description : string) (num_clicks : Z)
    (button_type : string) (hold_keys : list string) : M HybridACI string :=
  let fallback :=
    super (VisualClick element_description num_clicks button_type hold_keys) in
  let* use_browser := gets _should_use_browser in
  if use_browser then
    let* browser_result := _try_browser_click element_description in
    match browser_result with
    | Some code => ret code
    | None => fallback
    end
  else fallback.

(** [type] (lines 151-181). *)
Definition type (text element_description : string) (overwrite enter : bool)
  : M HybridACI string :=
  let fallback := super (VisualType text element_description overwrite enter) in
  let* use_browser := gets _should_use_browser in
  if use_browser then
    let* browser_result :=
      _try_browser_type text
        (if negb (String.eqb element_description "")
         then Some element_description else None)
        overwrite in
    match browser_result with
    | Some code =>
        (if enter then
           on_bridge (send_command peer "type"
                        (JObj [("text", JStr ""); ("pressEnter", JBool true)])
                        default_timeout) >>> ret tt
         else ret tt) >>>
        ret code
    | None => fallback
    end
  else fallback.

(** [scroll] (lines 183-208). *)
Definition scroll (element_description direction : string) (amount : Z)
  : M HybridACI string :=
  let fallback := super (VisualScroll element_description direction amount) in
  let* use_browser := gets _should_use_browser in
  if use_browser then
    let pixel_amount := amount * 100 in
    let* result := on_bridge (Bridge.scroll peer direction pixel_amount None) in
    let* success := eval (py_get result "success" JNull) in
    if truthy success then
      ret "import time; time.sleep(0.2)  # DOM scroll completed"
    else fallback
  else fallback.

(** [goto] (lines 210-224). *)
Definition goto (url : string) : M HybridACI string :=
  let launcher := "import webbrowser; webbrowser.open(" +:+ repr url +:+ ")" in
  let* available := gets browser_available in
  if available then
    let* result := on_bridge (navigate peer url) in
    let* success := eval (py_get result "success" JNull) in
    if truthy success then
      ret "import time; time.sleep(1.0)  # Navigation completed"
    else ret launcher
  else ret launcher.

(** [get_page_content] (lines 226-241); [JNull] is [None]. *)
Definition get_page_content : M HybridACI json :=
  let* use_browser := gets _should_use_browser in
  if negb use_browser then ret JNull
  else
    let* result := on_bridge (get_dom peer true) in
    let* success := eval (py_get result "success" JNull) in
    if truthy success then eval (py_get result "result" JNull)
    else ret JNull.

(** [get_browser_screenshot] (lines 243-258). *)
Definition get_browser_screenshot : M HybridACI json :=
  let* available := gets browser_available in
  if negb available then ret JNull
  else
    let* result := on_bridge (screenshot peer) in
    let* success := eval (py_get result "success" JNull) in
    if truthy success then
      let* payload := eval (py_get result "result" (JObj [])) in
      eval (py_get payload "screenshot" JNull)
    else ret JNull.

End Routing.

End Hybrid.

(** ** The process-wide bridge (bridge.py lines 272-285) *)

Module Singleton.

Import Bridge.

(** The state of the process as far as [get_browser_bridge] goes: whether
    [import websockets] succeeded (lines 13-18), every [BrowserBridge]
    object constructed so far (an object is known by its index, its
    identity), and the module global [_bridge]. *)
Record process := mkProcess {
  websockets : bool;
  objects : list BrowserBridge;
  _bridge : option nat
}.

Definition with_objects (l : list BrowserBridge) (p : process) : process :=
  mkProcess (websockets p) l (_bridge p).

Definition with_global (g : option nat) (p : process) : process :=
  mkProcess (websockets p) (objects p) g.

(** [BrowserBridge()] (lines 28-43): a new object, or [ImportError]. *)
Definition BrowserBridge_new : M process nat :=
  fun p =>
    if websockets p then
      (Returned (length (objects p)), with_objects (objects p ++ [init]) p)
    else
      (Raised (mkExn ImportError
         "websockets package required. Install with: pip install websockets"), p).

(** [obj.start()]. *)
Definition start_object (obj : nat) : M process unit :=
  modify (fun p => with_objects (alter start obj (objects p)) p).

(** [get_browser_bridge] (lines 276-285). *)
Definition get_browser_bridge (auto_start : bool) : M process nat :=
  let* current := gets _bridge in
  match current with
  | None =>
      let* obj := BrowserBridge_new in
      modify (with_global (Some obj)) >>>
      (if auto_start then start_object obj else ret tt) >>>
      ret obj
  | Some obj => ret obj
  end.

(** What [HybridACI.__init__] (hybrid_aci.py lines 47-56) leaves in the
    new object: [enable_browser] and the identity held in [bridge]. *)
Definition HybridACI_new (enable_browser auto_start_bridge : bool)
  : M process (bool * option nat) :=
  if enable_browser && auto_start_bridge then
    try_except
      (let* obj := get_browser_bridge true in ret (enable_browser, Some obj))
      (fun e => match cls e with
                | ImportError => Some (ret (false, None))
                | _ => None
                end)
  else ret (enable_browser, None).


End Singleton.

(** ** Lines 161-162 under preemption

    The two statements that allocate a correlation ID,
    [self._command_id += 1] and [cmd_id = f"cmd-{self._command_id}"],
    are run by caller threads that hold no lock: a thread can be preempted
    between the two. *)

Module Race.

(** A caller thread inside [send_command]: how many of the two statements
    it has run, and its local [cmd_id] once assigned. *)
Record caller := mkCaller {
  pc : nat;
  cmd_id : option string
}.

Record state := mkState {
  _command_id : Z;
  callers : list caller
}.

(** The next statement of a caller, on the shared counter. *)
Definition exec (c : caller) (counter : Z) : caller * Z :=
  match pc c with
  | 0%nat => (mkCaller 1 (cmd_id c), counter + 1)
  | 1%nat => (mkCaller 2 (Some (Bridge.cmd_key counter)), counter)
  | _ => (c, counter)
  end.

(** Thread [t] is scheduled for one statement. *)
Definition step (t : nat) (s : state) : state :=
  match callers s !! t with
  | Some c =>
      match exec c (_command_id s) with
      | (c', n) => mkState n (<[t := c']> (callers s))
      end
  | None => s
  end.

Definition run_threads (schedule : list nat) (s : state) : state :=
  foldl (fun acc t => step t acc) s schedule.

(** [k] callers about to run line 161 on a fresh bridge. *)
Definition fresh (k : nat) : state := mkState 0 (replicate k (mkCaller 0 None)).

(** The IDs the callers ended up with. *)
Definition allocated (s : state) : list string := omap cmd_id (callers s).

End Race.

(** ** Concrete situations used to exercise the code *)

Module Scenario.

Import Bridge Hybrid.

(** A started bridge with a peer attached. *)
Definition attached : system :=
  run [BridgeStarts; LoopRuns (PeerConnects 7)] (mkSystem init []).

(** The same with one caller waiting for the answer to a click. *)
Definition one_waiting : system :=
  run [CallerSends "click" (JObj [("text", JStr "Submit")])] attached.

(** A peer that never answers. *)
Definition silent : json -> list (Q * loop_event) := fun _ => [].

(** A peer whose only message, [t] seconds into the wait, is [message]. *)
Definition sends (message : frame) (t : Q) : json -> list (Q * loop_event) :=
  fun _ => [(t, PeerSends message)].

(** A response frame [{id, success, result}]. *)
Definition reply (k : string) (success : bool) (payload : json) : json :=
  JObj [("id", JStr k); ("success", JBool success); ("result", payload)].

(** A visual executor, and [repr] on strings that need no escape. *)
Definition pyautogui (call : visual_call) : string := "pyautogui.click(100, 100)".
Definition quoted (s : string) : string := "'" +:+ s +:+ "'".

(** A router whose bridge has a peer, with a browser in the foreground,
    and the same with another application in the foreground. *)
Definition in_browser : HybridACI := mkACI true (Some (Bridge.bridge attached)) true [].
Definition in_editor : HybridACI := mkACI true (Some (Bridge.bridge attached)) false [].

(** A router whose bridge was started but has no peer. *)
Definition no_peer : HybridACI := mkACI true (Some (start init)) true [].

End Scenario.

(** ** bridge.py: the remaining commands, and handlers told apart *)

Module BridgeMore.

Import Bridge.

(** The value [ping] returns (line 269),
    [result.get("success", False) and result.get("result", {}).get("pong", False)]. *)
Definition pong (result : json) : Py.result json :=
  match py_get result "success" (JBool false) with
  | Returned success =>
      if truthy success then
        match py_get result "result" (JObj []) with
        | Returned payload => py_get payload "pong" (JBool false)
        | Raised e => Raised e
        end
      else Returned success
  | Raised e => Raised e
  end.

Section MoreCommands.

Variable peer : json -> list (Q * loop_event).

(** [get_url] (lines 262-264). *)
Definition get_url : M BrowserBridge json :=
  send_command peer "get_url" JNull default_timeout.

(** [ping] (lines 266-269). *)
Definition ping : M BrowserBridge json :=
  let* result := send_command peer "ping" JNull (2 # 1) in
  fun b => (pong result, b).

End MoreCommands.

(** [websockets.serve] (lines 86-92) runs one [_handle_client] per
    connection, all on the one bridge object. [handlers] lists the
    connections whose handler is inside its receive loop. *)
Record endpoint := mkEndpoint {
  served : BrowserBridge;
  handlers : list nat
}.

Inductive net_event :=
  | Accepts (websocket : nat)
  | Delivers (websocket : nat) (message : frame)
  | Closes (websocket : nat) (how : closing).

(** One step of the event loop, by the connection it concerns: a handler
    starts (lines 97-101), a running handler gets a message (line 105, and
    lines 106-118 when handling it raises), a running handler's stream
    ends (lines 106-118). *)
Definition net_step (ev : net_event) (e : endpoint) : endpoint :=
  match ev with
  | Accepts websocket =>
      mkEndpoint (_handle_client_enter websocket (served e)).2
        (websocket :: handlers e)
  | Delivers websocket message =>
      if bool_decide (websocket ∈ handlers e) then
        match _handle_message message (served e) with
        | (Returned _, b') => mkEndpoint b' (handlers e)
        | (Raised x, b') =>
            mkEndpoint (_handle_client_exit (Raised x) b').2
              (filter (fun h => h ≠ websocket) (handlers e))
        end
      else e
  | Closes websocket how =>
      if bool_decide (websocket ∈ handlers e) then
        match receive_loop [] how (served e) with
        | (r, b') =>
            mkEndpoint (_handle_client_exit r b').2
              (filter (fun h => h ≠ websocket) (handlers e))
        end
      else e
  end.

End BridgeMore.

(** ** utils/window_detector.py *)

Module WindowDetector.

(** [BROWSER_PROCESSES] (lines 13-26), by platform key. *)
Definition BROWSER_PROCESSES (system : string) : list string :=
  if String.eqb system "windows" then
    ["chrome.exe"; "msedge.exe"; "firefox.exe"; "brave.exe";
     "opera.exe"; "vivaldi.exe"; "iexplore.exe"]
  else if String.eqb system "darwin" then
    ["Google Chrome"; "Microsoft Edge"; "Firefox"; "Safari";
     "Brave Browser"; "Opera"; "Vivaldi"]
  else if String.eqb system "linux" then
    ["chrome"; "chromium"; "firefox"; "brave"; "opera"; "vivaldi"; "edge"]
  else [].

(** [str.lower()], on ASCII text. *)
Definition lower_char (c : Ascii.ascii) : Ascii.ascii :=
  let n := Ascii.nat_of_ascii c in
  if (65 <=? n)%nat && (n <=? 90)%nat then Ascii.ascii_of_nat (n + 32) else c.

Fixpoint lower (s : string) : string :=
  match s with
  | EmptyString => EmptyString
  | String c rest => String (lower_char c) (lower rest)
  end.

(** [needle in s] on strings: [needle] occurs in [s]. *)
Fixpoint contains (needle s : string) : bool :=
  String.prefix needle s ||
  match s with
  | EmptyString => false
  | String _ rest => contains needle rest
  end.

(** [x in l] on a list of strings. *)
Definition among (x : string) (l : list string) : bool :=
  existsb (String.eqb x) l.

(** What the platform answers when probed. Each probe either answers or
    raises. Windows: whether [win32gui], [win32process] and [psutil]
    import; the title and the pid of the foreground window; the name of
    the process [psutil] finds for the pid. *)
Record windows_probe := mkWindows {
  win32_imports : bool;
  foreground_window : result (string * Z);
  process_name_of_pid : result string
}.

(** macOS: whether [AppKit] imports; the localized name of the frontmost
    application. *)
Record macos_probe := mkMacos {
  appkit_imports : bool;
  frontmost_name : result string
}.

(** Linux: the stripped output of the two [xdotool] runs (or what
    [subprocess.run] raised), and the name [psutil] finds for the pid (or
    what the import, [int(pid)] or the lookup raised). *)
Record linux_probe := mkLinux {
  xdotool_title : result string;
  xdotool_pid : result string;
  psutil_name : result string
}.

Record host := mkHost {
  system : string;
  on_windows : windows_probe;
  on_macos : macos_probe;
  on_linux : linux_probe
}.

(** [_get_active_window_fallback] (lines 155-162). *)
Definition _get_active_window_fallback : json :=
  JObj [("title", JStr ""); ("process", JStr "");
        ("is_browser", JBool false); ("fallback", JBool true)].

(** [_get_active_window_windows] (lines 58-86). *)
Definition _get_active_window_windows (p : windows_probe) : result json :=
  if negb (win32_imports p) then Returned _get_active_window_fallback
  else
    match foreground_window p with
    | Raised e => Raised e
    | Returned (title, pid) =>
        let process_name :=
          match process_name_of_pid p with
          | Returned name => name
          | Raised _ => ""
          end in
        let is_browser :=
          among (lower process_name) (map lower (BROWSER_PROCESSES "windows")) in
        Returned (JObj [("title", JStr title); ("process", JStr process_name);
                        ("is_browser", JBool is_browser); ("pid", JNum pid)])
    end.

(** [_get_active_window_macos] (lines 89-105). *)
Definition _get_active_window_macos (p : macos_probe) : result json :=
  if negb (appkit_imports p) then Returned _get_active_window_fallback
  else
    match frontmost_name p with
    | Raised e => Raised e
    | Returned app_name =>
        let is_browser := among app_name (BROWSER_PROCESSES "darwin") in
        Returned (JObj [("title", JStr app_name); ("process", JStr app_name);
                        ("is_browser", JBool is_browser)])
    end.

(** [_get_active_window_linux] (lines 108-152). *)
Definition _get_active_window_linux (p : linux_probe) : result json :=
  match xdotool_title p with
  | Raised _ => Returned _get_active_window_fallback
  | Returned title =>
      match xdotool_pid p with
      | Raised _ => Returned _get_active_window_fallback
      | Returned pid =>
          let process_name :=
            if negb (String.eqb pid "") then
              match psutil_name p with
              | Returned name => name
              | Raised _ => ""
              end
            else "" in
          let is_browser :=
            existsb (fun b => contains b (lower process_name)
                              || contains b (lower title))
              (BROWSER_PROCESSES "linux") in
          Returned (JObj [("title", JStr title); ("process", JStr process_name);
                          ("is_browser", JBool is_browser)])
      end
  end.

(** [get_active_window_info] (lines 29-55). *)
Definition get_active_window_info (h : host) : result json :=
  let system := lower (system h) in
  let attempt :=
    if String.eqb system "windows" then _get_active_window_windows (on_windows h)
    else if String.eqb system "darwin" then _get_active_window_macos (on_macos h)
    else _get_active_window_linux (on_linux h) in
  match attempt with
  | Returned info => Returned info
  | Raised e =>
      Returned (JObj [("title", JStr ""); ("process", JStr "");
                      ("is_browser", JBool false); ("error", JStr (str e))])
  end.

(** [is_browser_active] (lines 165-168). *)
Definition is_browser_active (h : host) : result json :=
  match get_active_window_info h with
  | Returned info => py_get info "is_browser" (JBool false)
  | Raised e => Raised e
  end.

End WindowDetector.

(** ** hybrid_aci.py: construction and context *)

Module HybridMore.

Import Bridge Hybrid.

(** The router as its methods find it when the window detector runs on
    host [h]: [is_browser_active()] answers what the detector returns. *)
Definition on_host (h : WindowDetector.host) (w : HybridACI) : HybridACI :=
  with_active
    (match WindowDetector.is_browser_active h with
     | Returned v => truthy v
     | Raised _ => false
     end) w.

(** [get_current_context] (lines 260-271). The window detector is asked
    twice: by [get_active_window_info] at line 264, on the desktop as it
    is then ([h]), and again inside [_should_use_browser] at line 268, on
    the desktop as it is by then ([h']), which need not be the same. *)
Definition get_current_context (h h' : WindowDetector.host) (w : HybridACI)
  : result json :=
  match WindowDetector.get_active_window_info h with
  | Raised e => Raised e
  | Returned window_info =>
      Returned (JObj [("browser_available", JBool (browser_available w));
                      ("should_use_browser",
                       JBool (_should_use_browser (on_host h' w)));
                      ("active_window", window_info);
                      ("bridge_connected", JBool (peer_connected w))])
  end.

(** The router [HybridACI.__init__] leaves, from what
    [Singleton.HybridACI_new] stored in it and the objects of the
    process: the bridge field holds the object of that identity. *)
Definition constructed (p : Singleton.process) (fields : bool * option nat)
    (active : bool) : HybridACI :=
  mkACI fields.1
    (match fields.2 with
     | Some obj => Singleton.objects p !! obj
     | None => None
     end)
    active [].

End HybridMore.

(** ** test_ws.py: the stand-alone echo server *)

Module EchoServer.

(** The connection as the handler sees it: the messages sent back so
    far, and the log (without the peer's address and the close code). *)
Record connection := mkConnection {
  echoed : list string;
  lines : list string
}.

Definition logging (text : string) : M connection unit :=
  modify (fun c => mkConnection (echoed c) (lines c ++ [text])).

(** [await websocket.send(message)]: the [n]-th send succeeds when
    [alive n], else the connection is closed and it raises. *)
Definition send (alive : nat -> bool) (message : string) : M connection unit :=
  fun c =>
    if alive (length (echoed c)) then
      (Returned tt, mkConnection (echoed c ++ [message]) (lines c))
    else (Raised (mkExn ConnectionClosed "connection closed"), c).

(** The [async for] of lines 16-19. *)
Fixpoint echo_loop (alive : nat -> bool) (inbound : list string)
    (how : Bridge.closing) : M connection unit :=
  match inbound with
  | [] =>
      match how with
      | Bridge.ClosedOK => ret tt
      | Bridge.ClosedError => raise (mkExn ConnectionClosed "connection closed")
      end
  | message :: rest =>
      logging ("Received message: " +:+ message) >>>
      send alive message >>>
      echo_loop alive rest how
  end.

(** [handler] (lines 13-23). *)
Definition handler (alive : nat -> bool) (inbound : list string)
    (how : Bridge.closing) : M connection unit :=
  logging "Client connected" >>>
  try_except (echo_loop alive inbound how)
    (fun e => match cls e with
              | ConnectionClosed => Some (logging "Client disconnected")
              | _ => Some (logging "Unexpected error")
              end).

End EchoServer.

(** ** More situations *)

Module Peers.

Import Bridge.

(** A peer that answers every command, [t] seconds after it was sent,
    with a success carrying [payload]. *)
Definition obliging (payload : json) (t : Q) : json -> list (Q * loop_event) :=
  fun command =>
    match py_get command "id" JNull with
    | Returned id =>
        [(t, PeerSends (JsonText
               (JObj [("id", id); ("success", JBool true); ("result", payload)])))]
    | Raised _ => []
    end.

(** A Linux desktop whose [xdotool] and [psutil] answer. *)
Definition linux_desktop (title pid process : string) : WindowDetector.host :=
  WindowDetector.mkHost "Linux"
    (WindowDetector.mkWindows false (Returned ("", 0)) (Returned ""))
    (WindowDetector.mkMacos false (Returned ""))
    (WindowDetector.mkLinux (Returned title) (Returned pid) (Returned process)).

(** A Windows desktop with the [win32] modules installed. *)
Definition windows_desktop (title : string) (pid : Z) (process : result string)
  : WindowDetector.host :=
  WindowDetector.mkHost "Windows"
    (WindowDetector.mkWindows true (Returned (title, pid)) process)
    (WindowDetector.mkMacos false (Returned ""))
    (WindowDetector.mkLinux (Returned "") (Returned "") (Returned "")).

End Peers.

(** ** bridge.py under threads

    [BrowserBridge] is used from two kinds of thread and holds no lock:
    callers run [send_command] on threads of their own, the handler
    [_handle_client] runs on the thread of the event loop. Here every
    statement that reads or writes the shared object is a step of its
    own, and a schedule says which thread runs its next statement; the
    definitions of [Bridge] are what these steps come to when a thread
    is not interrupted. *)

Module Threads.

Import Bridge.

(** A caller thread, by the statement of [send_command] it runs next and
    the locals it holds. Line 161, [self._command_id += 1], reads the
    attribute and stores the sum: two steps. [Line181] is a caller
    blocked in [result_future.result]; [Line189] and [Line192] are the two
    [except] clauses before their [pop]; [Left] is a call that returned
    or raised. *)
Inductive caller :=
  | Line157 (action : string) (params : json)
  | Line161 (action : string) (params : json)
  | Line161_store (action : string) (params : json) (read : Z)
  | Line162 (action : string) (params : json)
  | Line171 (cmd_id : string) (command : json)
  | Line172 (cmd_id : string) (command : json) (future : nat)
  | Line175 (cmd_id : string) (command : json) (future : nat)
  | Line181 (cmd_id : string) (future : nat)
  | Line189 (cmd_id : string)
  | Line192 (cmd_id : string) (e : exn)
  | Left (r : result json).

(** The iterator of [for future in self._pending_commands.values()]
    (line 115), as CPython keeps it: the size of the dict when the loop
    began, the place reached in the dict's table, the number of items
    still expected. *)
Record iterator := mkIterator {
  di_used : nat;
  di_pos : nat;
  len : nat
}.

(** The handler coroutine, by the statement it runs next: [Serving] is
    the [async for] of line 104 awaiting a message (or no peer at all),
    [Line132] the [pop] that follows the membership test of line 131,
    [Line111] to [Line118] the [finally] block, [Line115] before and
    during its loop. *)
Inductive handler :=
  | Serving
  | Line132 (cmd_id : string) (data : json)
  | Line111
  | Line112
  | Line115 (it : option iterator)
  | Line118.

(** The bridge object the threads share, the table of its dict
    [_pending_commands] (the keys in the order they were inserted, a
    removed key leaving a hole: the order a loop over the dict follows),
    the caller threads and the handler. *)
Record state := mkState {
  self : BrowserBridge;
  layout : list (option string);
  callers : list caller;
  handler_at : handler
}.

Definition initial : state := mkState init [] [] Serving.

Definition with_self (b : BrowserBridge) (st : state) : state :=
  mkState b (layout st) (callers st) (handler_at st).

Definition with_handler (h : handler) (st : state) : state :=
  mkState (self st) (layout st) (callers st) h.

(** Thread [t] moves on to [c]. *)
Definition at_ (t : nat) (c : caller) (st : state) : state :=
  mkState (self st) (layout st) (<[t := c]> (callers st)) (handler_at st).

(** [self._pending_commands[k] = future]: a new key goes to the end of
    the table, a key already there keeps its place. *)
Definition setitem (k : string) (future : nat) (st : state) : state :=
  mkState (with_pending (<[k := future]> (_pending_commands (self st))) (self st))
    (if decide (is_Some (_pending_commands (self st) !! k))
     then layout st else layout st ++ [Some k])
    (callers st) (handler_at st).

Definition hole (k : string) (entry : option string) : option string :=
  if decide (entry = Some k) then None else entry.

(** [self._pending_commands.pop(k, None)]. *)
Definition popitem (k : string) (st : state) : state :=
  mkState (with_pending (delete k (_pending_commands (self st))) (self st))
    (map (hole k) (layout st)) (callers st) (handler_at st).

(** The [except] clause a caller enters with exception [e] (lines 188
    and 191). *)
Definition except_clause (cmd_id : string) (e : exn) : caller :=
  match cls e with
  | TimeoutError => Line189 cmd_id
  | _ => Line192 cmd_id e
  end.

(** The next statement of caller thread [t], which is at [c]. *)
Definition exec (t : nat) (c : caller) (st : state) : state :=
  match c with
  | Line157 action params =>
      if negb (connected (self st)) || negb (bool_decide (is_Some (_loop (self st))))
      then at_ t (Left (Returned (failure "Extension not connected"))) st
      else at_ t (Line161 action params) st
  | Line161 action params =>
      at_ t (Line161_store action params (_command_id (self st))) st
  | Line161_store action params read =>
      at_ t (Line162 action params) (with_self (with_command_id (read + 1) (self st)) st)
  | Line162 action params =>
      let cmd_id := cmd_key (_command_id (self st)) in
      at_ t (Line171 cmd_id (command_frame cmd_id action params)) st
  | Line171 cmd_id command =>
      match create_future (self st) with
      | (Returned future, b') => at_ t (Line172 cmd_id command future) (with_self b' st)
      | (Raised e, b') => at_ t (Left (Raised e)) (with_self b' st)
      end
  | Line172 cmd_id command future =>
      at_ t (Line175 cmd_id command future) (setitem cmd_id future st)
  | Line175 cmd_id command future =>
      match client_send command (self st) with
      | (Returned _, b') => at_ t (Line181 cmd_id future) (with_self b' st)
      | (Raised e, b') => at_ t (Left (Raised e)) (with_self b' st)
      end
  | Line181 cmd_id future =>
      match future_at (self st) future with
      | Pending => st
      | Result data => at_ t (Left (Returned data)) st
      | Exception e => at_ t (except_clause cmd_id e) st
      | Cancelled => at_ t (except_clause cmd_id (mkExn CancelledError "")) st
      end
  | Line189 cmd_id =>
      at_ t (Left (Returned (failure "Command timed out"))) (popitem cmd_id st)
  | Line192 cmd_id e =>
      at_ t (Left (Returned (failure (str e)))) (popitem cmd_id st)
  | Left _ => st
  end.

(** [_handle_message] up to the membership test of line 131: the answer
    is the key found in the dict, with the decoded frame. *)
Definition lines_122_131 (message : frame)
  : M BrowserBridge (option (string * json)) :=
  try_except
    (let* data := (fun b => (json_loads message, b)) in
     let* ty := (fun b => (py_get data "type" JNull, b)) in
     if eq_str ty "handshake" then
       logger (LogInfo "Extension handshake") >>> ret None
     else
       let* cmd_id := (fun b => (py_get data "id" JNull, b)) in
       if truthy cmd_id then
         let* hit := (fun b => (pending_contains cmd_id b, b)) in
         match hit with
         | Some k => ret (Some (k, data))
         | None => ret None
         end
       else ret None)
    (fun e => match cls e with
              | JSONDecodeError =>
                  Some (logger (LogError "Invalid JSON from extension") >>> ret None)
              | _ => None
              end).

(** The handler leaves the [async for] with outcome [r]: the [except]
    clauses of lines 106-109, then the [finally] block is next. *)
Definition leave (r : result unit) (st : state) : state :=
  with_handler Line111
    (with_self (try_except (fun b => (r, b)) _handle_client_except (self st)).2 st).

(** The first key at or after place [i] of a table. *)
Fixpoint skip_holes (table : list (option string)) (i : nat) : option (nat * string) :=
  match table with
  | [] => None
  | Some k :: _ => Some (i, k)
  | None :: rest => skip_holes rest (S i)
  end.

(** One event of the loop, met by a handler that is [Serving]. *)
Definition on_event (ev : loop_event) (st : state) : state :=
  match ev with
  | PeerConnects websocket =>
      with_self (_handle_client_enter websocket (self st)).2 st
  | PeerSends message =>
      match lines_122_131 message (self st) with
      | (Returned None, b') => with_self b' st
      | (Returned (Some (k, data)), b') => with_handler (Line132 k data) (with_self b' st)
      | (Raised e, b') => leave (Raised e) (with_self b' st)
      end
  | PeerCloses how =>
      match receive_loop [] how (self st) with
      | (r, b') => leave r (with_self b' st)
      end
  end.

(** The next statement of the handler. Line 132, [pop(cmd_id)] with no
    default, raises [KeyError] on a key no longer there. The loop of
    lines 115-117 takes one item per step, as CPython's iterator does:
    a dict whose size is not the size it had when the loop began raises
    [RuntimeError] before anything else, and so does an item found when
    none is expected any more; the exception leaves the [finally] block
    and ends the handler. (The table is never rebuilt here: CPython
    rebuilds it, closing the holes, only at an insertion.) *)
Definition handler_step (st : state) : state :=
  match handler_at st with
  | Serving => st
  | Line132 k data =>
      match _pending_commands (self st) !! k with
      | Some future =>
          let st' := popitem k st in
          with_handler Serving
            (if negb (done (future_at (self st') future))
             then with_self (resolve future (Result data) (self st')) st'
             else st')
      | None => leave (Raised (mkExn KeyError k)) st
      end
  | Line111 => with_handler Line112 (with_self (with_client None (self st)) st)
  | Line112 => with_handler (Line115 None) (with_self (with_connected false (self st)) st)
  | Line115 None =>
      let n := size (_pending_commands (self st)) in
      with_handler (Line115 (Some (mkIterator n 0 n))) st
  | Line115 (Some it) =>
      if bool_decide (size (_pending_commands (self st)) = di_used it) then
        match skip_holes (drop (di_pos it) (layout st)) (di_pos it) with
        | None => with_handler Line118 st
        | Some (i, k) =>
            match len it with
            | O => with_handler Serving st
            | S expected =>
                with_handler (Line115 (Some (mkIterator (di_used it) (S i) expected)))
                  (match _pending_commands (self st) !! k with
                   | Some future => with_self (cancel_one future (self st)) st
                   | None => st
                   end)
            end
        end
      else with_handler Serving st
  | Line118 =>
      mkState (with_pending ∅ (self st)) [] (callers st) Serving
  end.

(** What a schedule is made of: the bridge is started; a thread calls
    [send_command]; caller thread [t] runs its next statement; the
    deadline of the wait of thread [t] passes on the event loop
    ([asyncio.wait_for] cancels the future and raises [TimeoutError]);
    the event loop meets an event; the handler runs its next statement.
    The event loop runs one thing at a time: it meets an event, or lets
    a deadline pass, only while the handler awaits a message. *)
Inductive op :=
  | Starts
  | Calls (action : string) (params : json)
  | Caller (t : nat)
  | Expires (t : nat)
  | Loop (ev : loop_event)
  | Handler.

Definition step (o : op) (st : state) : state :=
  match o with
  | Starts => with_self (start (self st)) st
  | Calls action params =>
      mkState (self st) (layout st) (callers st ++ [Line157 action params])
        (handler_at st)
  | Caller t =>
      match callers st !! t with
      | Some c => exec t c st
      | None => st
      end
  | Expires t =>
      match handler_at st, callers st !! t with
      | Serving, Some (Line181 cmd_id future) =>
          if done (future_at (self st) future) then st
          else at_ t (Line189 cmd_id) (with_self (resolve future Cancelled (self st)) st)
      | _, _ => st
      end
  | Loop ev =>
      match handler_at st with
      | Serving => on_event ev st
      | _ => st
      end
  | Handler => handler_step st
  end.

Definition run (schedule : list op) (st : state) : state :=
  foldl (fun acc o => step o acc) st schedule.

Definition reachable (st : state) : Prop :=
  exists schedule, run schedule initial = st.

(** The table lists the keys of the dict, each once. *)
Definition layout_ok (st : state) : Prop :=
  NoDup (omap id (layout st)) /\
  forall k, Some k ∈ layout st <-> is_Some (_pending_commands (self st) !! k).

(** Every reference held in the dict, or by a caller about to register
    it, is to a future that exists, and every result set on a future is a
    dict (so is the frame a handler is about to set). *)
Definition refs_ok (st : state) : Prop :=
  (forall k f, _pending_commands (self st) !! k = Some f ->
               (f < length (futures (self st)))%nat) /\
  (forall t k command f, callers st !! t = Some (Line172 k command f) ->
               (f < length (futures (self st)))%nat) /\
  (forall f data, future_at (self st) f = Result data ->
                  exists fields, data = JObj fields) /\
  (forall k data, handler_at st = Line132 k data -> exists fields, data = JObj fields).

(** The caller at [c] neither holds the ID numbered [n] on its way to
    registering it nor can come to format it, the counter being at
    [counter]: it is not about to store a counter value read before [n]
    was reached, nor about to format its ID from a counter that reads
    [n]. *)
Definition away_from (n counter : Z) (c : caller) : Prop :=
  match c with
  | Line161_store _ _ read => n <= read
  | Line162 _ _ => n < counter
  | Line171 cmd_id _ => cmd_id <> cmd_key n
  | Line172 cmd_id _ _ => cmd_id <> cmd_key n
  | _ => True
  end.


(** The loop of lines 115-117 run over the keys [keys] with nothing in
    between. *)
Definition cancel_keys (keys : list string) (b : BrowserBridge) : BrowserBridge :=
  foldl (fun acc k => match _pending_commands acc !! k with
                      | Some future => cancel_one future acc
                      | None => acc
                      end) b keys.

(** The statements a call runs from line 157 to the send, and then to
    its return once its future is done. *)
Definition to_the_send (t : nat) : list op := replicate 7 (Caller t).

End Threads.

(** Schedules of two callers and one peer, used below. *)
Module Schedules.

Import Bridge Threads.

Definition click_params : json := JObj [("text", JStr "Submit")].

(** The bridge is started and a peer connects. *)
Definition attach : list op := [Starts; Loop (PeerConnects 7)].

(** The connection closes with an error and the handler runs [n]
    statements of what follows. *)
Definition teardown (n : nat) : list op :=
  Loop (PeerCloses ClosedError) :: replicate n Handler.

(** One caller passes the check of line 157; the connection closes and
    the handler runs line 111; the caller goes on to its send. *)
Definition teardown_before_the_send : list op :=
  attach ++ [Calls "click" click_params; Caller 0] ++ teardown 1 ++
  replicate 6 (Caller 0).

(** Two callers run line 161 before either runs line 162, so that both
    format "cmd-2"; both register and send, the second over the entry of
    the first. *)
Definition two_callers_one_id : list op :=
  attach ++ [Calls "click" click_params; Calls "scroll" JNull] ++
  replicate 3 (Caller 0) ++ replicate 3 (Caller 1) ++ [Caller 0; Caller 1] ++
  replicate 3 (Caller 0) ++ replicate 3 (Caller 1).

(** The same two callers, with the connection lost while both wait. *)
Definition shared_id_then_teardown : list op :=
  two_callers_one_id ++ teardown 6.

(** One caller waits and a second is about to register when the
    connection is lost; the loop of line 115 has failed the first
    caller's future when the second registers. *)
Definition insert_during_teardown : list op :=
  attach ++ [Calls "click" click_params; Calls "scroll" JNull] ++
  to_the_send 0 ++ replicate 5 (Caller 1) ++ teardown 4 ++ [Caller 1; Handler].


(** One caller on its own, waiting for the answer to "cmd-1". *)
Definition one_waiting : list op :=
  attach ++ [Calls "click" click_params] ++ to_the_send 0.

(** The deadline of that caller's wait passes; the answer arrives and
    passes the test of line 131 before the caller, on its thread, runs
    the [pop] of line 189; the handler then runs line 132. *)
Definition answer_meets_timeout (answer : frame) : list op :=
  one_waiting ++ [Expires 0; Loop (PeerSends answer); Caller 0; Handler].

End Schedules.

(** * Properties *)
Module BridgeFacts.

Import Bridge.

Lemma future_at_resolve b f v g :
  future_at (resolve f v b) g =
    if bool_decide (g = f ∧ (f < length (futures b))%nat) then v else future_at b g.
Proof.
  unfold future_at, resolve; simpl.
  case_bool_decide as H.
  - destruct H as [-> H]. by rewrite list_lookup_insert_eq.
  - destruct (decide (g = f)) as [->|Hne].
    + rewrite list_insert_ge; [done|]. apply Nat.nlt_ge. intros ?. by apply H.
    + by rewrite list_lookup_insert_ne.
Qed.

Lemma future_at_resolve_ne b f v g : g ≠ f -> future_at (resolve f v b) g = future_at b g.
Proof.
  intros Hne. rewrite future_at_resolve. case_bool_decide as H; [|done].
  by destruct H.
Qed.

Lemma future_at_resolve_eq b f v :
  (f < length (futures b))%nat -> future_at (resolve f v b) f = v.
Proof.
  intros Hlt. rewrite future_at_resolve. case_bool_decide as H; [done|].
  exfalso. by apply H.
Qed.

Lemma length_resolve b f v : length (futures (resolve f v b)) = length (futures b).
Proof. unfold resolve; simpl. apply length_insert. Qed.

Lemma future_at_out b f : (length (futures b) <= f)%nat -> future_at b f = Pending.
Proof. intros H. unfold future_at. by rewrite (proj2 (lookup_ge_None _ _) H). Qed.

Lemma cancel_all_frame l b :
  cancel_all l b = with_futures (futures (cancel_all l b)) b.
Proof.
  induction l as [|[k f] l IH]; simpl.
  - by destruct b.
  - unfold cancel_one. destruct (negb _); [|done].
    unfold resolve. rewrite IH at 2. by destruct b.
Qed.

Lemma length_cancel_all l b : length (futures (cancel_all l b)) = length (futures b).
Proof.
  induction l as [|[k f] l IH]; simpl; [done|].
  unfold cancel_one. destruct (negb _); [|done]. by rewrite length_resolve.
Qed.

(** A future is left as it was, or was not done and now holds the
    disconnection error. *)
Lemma cancel_all_cases l b g :
  future_at (cancel_all l b) g = future_at b g ∨
  (done (future_at b g) = false ∧
   future_at (cancel_all l b) g = Exception disconnected).
Proof.
  induction l as [|[k f] l IH]; simpl; [by left|].
  unfold cancel_one.
  destruct (done (future_at (cancel_all l b) f)) eqn:Hd; simpl; [done|].
  rewrite future_at_resolve. case_bool_decide as H; [|done].
  destruct H as [-> _]. right. split; [|done].
  destruct IH as [IH|[IH _]]; [by rewrite <- IH|done].
Qed.

Lemma cancel_all_done l b g :
  done (future_at b g) = true -> future_at (cancel_all l b) g = future_at b g.
Proof. intros H. destruct (cancel_all_cases l b g) as [|[? _]]; congruence. Qed.

(** Every value of the dict that was not done now holds the error. *)
Lemma cancel_all_hit l b g :
  g ∈ l.*2 -> done (future_at b g) = false -> (g < length (futures b))%nat ->
  future_at (cancel_all l b) g = Exception disconnected.
Proof.
  intros Hin Hp Hlt.
  induction l as [|[k f] l IH]; simpl.
  - by apply elem_of_nil in Hin.
  - unfold cancel_one.
    destruct (decide (g = f)) as [->|Hne].
    + destruct (done (future_at (cancel_all l b) f)) eqn:Hd; simpl.
      * destruct (cancel_all_cases l b f) as [E|[_ E]]; [|done].
        rewrite E in Hd. congruence.
      * apply future_at_resolve_eq. by rewrite length_cancel_all.
    + assert (future_at (cancel_all l b) g = Exception disconnected) as E.
      { apply IH. simpl in Hin. apply elem_of_cons in Hin as [|]; done. }
      destruct (negb _); [|done]. by rewrite future_at_resolve_ne.
Qed.


Lemma evolves_refl b : evolves b b.
Proof. split; auto. Qed.

Lemma evolves_trans b1 b2 b3 : evolves b1 b2 -> evolves b2 b3 -> evolves b1 b3.
Proof.
  intros [] []. split; try congruence.
  - auto.
  - intros f Hd. rewrite ev_done1; [auto|]. by rewrite ev_done0.
  - intros k f Hk Hlt Hd.
    assert (done (future_at b2 f) = false) as Hd2.
    { destruct (done (future_at b2 f)) eqn:E; [|done].
      rewrite (ev_done1 _ E) in Hd. congruence. }
    apply ev_removed1; [|lia|done]. by apply ev_removed0.
  - intros f data Hr. destruct (ev_result1 _ _ Hr) as [Hr2|]; [|by right].
    by apply ev_result0.
Qed.

Lemma evolves_log b l : evolves b (with_log l b).
Proof. split; auto. Qed.

Create HintDb bridge.
#[local] Hint Resolve evolves_refl evolves_log : bridge.

Lemma evolves_wiring b c v : evolves b (with_connected v (with_client c b)).
Proof. split; auto. Qed.

Lemma finally_eq b :
  _handle_client_finally b =
    (Returned tt,
     with_pending ∅
       (cancel_all (map_to_list (_pending_commands b))
          (with_connected false (with_client None b)))).
Proof. reflexivity. Qed.

Lemma evolves_cancel_pending b :
  evolves b (with_pending ∅ (cancel_all (map_to_list (_pending_commands b)) b)).
Proof.
  set (l := map_to_list (_pending_commands b)).
  assert (forall f, future_at (with_pending ∅ (cancel_all l b)) f
                    = future_at (cancel_all l b) f) as Hfa by done.
  split; simpl; auto.
  - by rewrite (cancel_all_frame l b).
  - by rewrite (cancel_all_frame l b).
  - by rewrite (cancel_all_frame l b).
  - apply length_cancel_all.
  - intros k f. by rewrite lookup_empty.
  - intros f Hd. rewrite Hfa. by apply cancel_all_done.
  - intros k f Hk Hlt Hd. exfalso. rewrite Hfa in Hd.
    destruct (done (future_at b f)) eqn:E.
    + rewrite cancel_all_done in Hd by done. congruence.
    + rewrite (cancel_all_hit l b f) in Hd; [done| |done|done].
      apply list_elem_of_fmap. exists (k, f). split; [done|].
      by apply elem_of_map_to_list.
  - intros f data Hr. left. rewrite Hfa in Hr.
    destruct (cancel_all_cases l b f) as [<-|[_ E]]; [done|congruence].
Qed.

Lemma evolves_finally b : evolves b (_handle_client_finally b).2.
Proof.
  rewrite finally_eq; simpl.
  eapply evolves_trans; [apply (evolves_wiring b None false)|].
  apply (evolves_cancel_pending (with_connected false (with_client None b))).
Qed.

Lemma exit_eq r b :
  exists b0, evolves b b0 /\
    _handle_client_exit r b = (Returned tt, (_handle_client_finally b0).2).
Proof.
  unfold _handle_client_exit, try_finally, try_except.
  destruct r as [[]|e].
  - exists b. split; [apply evolves_refl|]. by rewrite finally_eq.
  - unfold _handle_client_except.
    destruct (cls e); simpl; (eexists; split; [apply evolves_log|reflexivity]).
Qed.

Lemma evolves_exit r b : evolves b (_handle_client_exit r b).2.
Proof.
  destruct (exit_eq r b) as (b0 & H0 & ->). simpl.
  eapply evolves_trans; [done|apply evolves_finally].
Qed.

Lemma evolves_enter websocket b : evolves b (_handle_client_enter websocket b).2.
Proof. split; auto. Qed.

Lemma evolves_handle_message message b : evolves b (_handle_message message b).2.
Proof.
  unfold _handle_message, try_except, bind.
  destruct message as [text|text []|data]; simpl; [auto with bridge..|].
  destruct data as [| | | | |fields]; simpl; auto with bridge.
  destruct (eq_str _ _); simpl; [auto with bridge|].
  destruct (truthy _) eqn:Ht; simpl; [|auto with bridge].
  destruct (default JNull (lookup_field "id" fields)) as [| | |k| |] eqn:Hid;
    simpl; auto with bridge.
  case_decide as Hk; simpl; [|auto with bridge].
  destruct (_pending_commands b !! k) as [f|] eqn:Hf; [|auto with bridge].
  set (b' := with_pending (delete k (_pending_commands b)) b).
  assert (forall g, future_at b' g = future_at b g) as Hfa by done.
  destruct (done (future_at b' f)) eqn:Hd; simpl.
  - split; simpl; auto.
    + intros k0 f0. rewrite lookup_delete_Some. tauto.
    + intros k0 f0 Hk0 Hlt Hd0. rewrite lookup_delete_Some. split; [|done].
      intros <-. rewrite Hfa in Hd0. congruence.
  - split; simpl; auto.
    + apply length_insert.
    + intros k0 f0. rewrite lookup_delete_Some. tauto.
    + intros f0 Hd0. rewrite <- (Hfa f0).
      apply (future_at_resolve_ne b' f (Result (JObj fields)) f0).
      intros ->. rewrite Hfa in Hd. congruence.
    + intros k0 f0 Hk0 Hlt Hd0. rewrite lookup_delete_Some. split; [|done].
      intros <-. assert (f0 = f) as -> by congruence.
      change (done (future_at (resolve f (Result (JObj fields)) b') f) = false) in Hd0.
      rewrite future_at_resolve_eq in Hd0; done.
    + intros f0 data Hr.
      change (future_at (resolve f (Result (JObj fields)) b') f0 = Result data) in Hr.
      rewrite future_at_resolve in Hr. case_bool_decide; [right|left; done].
      injection Hr as <-. by eexists.
Qed.

Lemma evolves_loop_step ev b : evolves b (loop_step ev b).
Proof.
  destruct ev as [websocket|message|how]; simpl.
  - apply evolves_enter.
  - pose proof (evolves_handle_message message b) as H.
    destruct (_handle_message message b) as [[[]|e] b']; simpl in *; [done|].
    eapply evolves_trans; [done|apply evolves_exit].
  - destruct how.
    + exact (evolves_exit (Returned tt) b).
    + exact (evolves_exit (Raised (mkExn ConnectionClosed "connection closed")) b).
Qed.


Lemma cmd_key_inj n m : cmd_key n = cmd_key m -> n = m.
Proof.
  unfold cmd_key. simpl. intros H. injection H as H. by apply (inj pretty).
Qed.

Lemma nodup_keys_unique (l : list (string * nat)) k f f' :
  NoDup l.*1 -> (k, f) ∈ l -> (k, f') ∈ l -> f = f'.
Proof.
  induction l as [|[k0 f0] l IH]; simpl; intros Hnd H1 H2.
  - by apply elem_of_nil in H1.
  - apply NoDup_cons in Hnd as [Hnotin Hnd].
    apply elem_of_cons in H1 as [H1|H1]; apply elem_of_cons in H2 as [H2|H2].
    + congruence.
    + exfalso. apply Hnotin. injection H1 as <- <-.
      apply list_elem_of_fmap. by exists (k, f').
    + exfalso. apply Hnotin. injection H2 as <- <-.
      apply list_elem_of_fmap. by exists (k, f).
    + by apply IH.
Qed.

Lemma nodup_keys_filter (P : string * nat -> Prop) `{!forall x, Decision (P x)}
    (l : list (string * nat)) :
  NoDup l.*1 -> NoDup (filter P l).*1.
Proof.
  induction l as [|[k0 f0] l IH]; simpl; intros Hnd; [constructor|].
  apply NoDup_cons in Hnd as [Hnotin Hnd].
  rewrite filter_cons. case_decide; [|by apply IH].
  simpl. apply NoDup_cons. split; [|by apply IH].
  intros Hin. apply Hnotin.
  apply list_elem_of_fmap in Hin as [[k1 f1] [-> Hin]].
  apply list_elem_of_filter in Hin as [_ Hin].
  apply list_elem_of_fmap. by exists (k1, f1).
Qed.

Lemma handle_message_wiring message b :
  client (_handle_message message b).2 = client b /\
  connected (_handle_message message b).2 = connected b.
Proof.
  unfold _handle_message, try_except, bind.
  destruct message as [text|text []|data]; simpl; [done..|].
  destruct data as [| | | | |fields]; simpl; try done.
  destruct (eq_str _ _); simpl; [done|].
  destruct (truthy _); simpl; [|done].
  destruct (default JNull (lookup_field "id" fields)); simpl; try done.
  case_decide; simpl; [|done].
  destruct (_pending_commands b !! s); [|done].
  destruct (negb _); done.
Qed.

Lemma exit_log r b :
  exists l, _handle_client_exit r b =
    (Returned tt, (_handle_client_finally (with_log l b)).2).
Proof.
  unfold _handle_client_exit, try_finally, try_except.
  destruct r as [[]|e].
  - exists (log b). by destruct b.
  - unfold _handle_client_except.
    destruct (cls e); simpl; by eexists.
Qed.

Lemma exit_unwired r b : connected (_handle_client_exit r b).2 = false.
Proof.
  destruct (exit_log r b) as [l ->]. rewrite finally_eq. simpl.
  by rewrite cancel_all_frame.
Qed.

Lemma loop_step_wired ev b :
  (connected b = true -> is_Some (client b)) ->
  connected (loop_step ev b) = true -> is_Some (client (loop_step ev b)).
Proof.
  intros Hw. destruct ev as [websocket|message|how]; simpl.
  - by eexists.
  - destruct (handle_message_wiring message b) as [Hc Hn].
    destruct (_handle_message message b) as [[[]|e] b']; simpl in *.
    + rewrite Hc, Hn. done.
    + by rewrite exit_unwired.
  - destruct how.
    + change (connected (_handle_client_exit (Returned tt) b).2 = true -> 
              is_Some (client (_handle_client_exit (Returned tt) b).2)).
      by rewrite exit_unwired.
    + change (connected (_handle_client_exit (Raised (mkExn ConnectionClosed "connection closed")) b).2 = true -> 
              is_Some (client (_handle_client_exit (Raised (mkExn ConnectionClosed "connection closed")) b).2)).
      by rewrite exit_unwired.
Qed.

Lemma inv_evolves s b' :
  inv s -> evolves (bridge s) b' ->
  (connected b' = true -> is_Some (client b')) ->
  inv (mkSystem b' (waiting s)).
Proof.
  intros [] [] Hw. split; simpl.
  - done.
  - congruence.
  - intros i c. rewrite ev_sent0. apply inv_sent0.
  - intros k f Hk. rewrite ev_command_id0. eauto.
  - intros k f Hk. rewrite ev_command_id0, ev_length0. eauto.
  - intros k f Hk Hd.
    assert (done (future_at (bridge s) f) = false) as Hd0.
    { destruct (done (future_at (bridge s) f)) eqn:E; [|done].
      rewrite (ev_done0 _ E) in Hd. congruence. }
    apply ev_removed0; [by apply inv_registered0| |done].
    by destruct (inv_waiting0 _ _ Hk).
  - done.
  - intros k f Hk. rewrite ev_length0. eauto.
  - intros k1 k2 f H1 H2. eauto.
  - intros f data Hr. destruct (ev_result0 _ _ Hr); eauto.
Qed.

Lemma inv_loop_step s ev :
  inv s -> inv (mkSystem (loop_step ev (bridge s)) (waiting s)).
Proof.
  intros Hi. apply inv_evolves; [done|apply evolves_loop_step|].
  apply loop_step_wired. by destruct Hi.
Qed.

(** The state a call leaves when it gets past the connection check. *)
Lemma begin_eq action params b :
  (connected b = true -> is_Some (client b)) ->
  send_command_begin action params b =
    if negb (connected b) || negb (bool_decide (is_Some (_loop b))) then
      (Returned (inl (failure "Extension not connected")), b)
    else
      let k := cmd_key (_command_id b + 1) in
      let command := command_frame k action params in
      (Returned (inr (k, length (futures b), command)),
       with_sent (sent b ++ [command])
         (with_pending (<[k := length (futures b)]> (_pending_commands b))
            (with_futures (futures b ++ [Pending])
               (with_command_id (_command_id b + 1) b)))).
Proof.
  intros Hw. unfold send_command_begin, bind, gets; simpl.
  destruct (connected b) eqn:Hc; simpl; [|done].
  destruct (bool_decide (is_Some (_loop b))); simpl; [|done].
  unfold client_send; simpl.
  destruct (Hw eq_refl) as [c ->]. done.
Qed.

Lemma future_at_snoc b g :
  future_at (with_futures (futures b ++ [Pending]) b) g = future_at b g.
Proof.
  unfold future_at; simpl.
  destruct (decide (g < length (futures b))%nat) as [Hlt|Hge].
  - by rewrite lookup_app_l.
  - rewrite (proj2 (lookup_ge_None (futures b) g)) by lia.
    destruct (decide (g = length (futures b))) as [->|Hne].
    + by rewrite list_lookup_middle.
    + rewrite (proj2 (lookup_ge_None _ g)); [done|].
      rewrite length_app; simpl; lia.
Qed.

Lemma inv_begin s action params :
  inv s ->
  inv (sys_step (CallerSends action params) s).
Proof.
  intros Hi. pose proof Hi as []. simpl.
  rewrite begin_eq by done.
  destruct (negb _ || negb _); simpl; [by destruct s|].
  set (b := bridge s) in *. set (k := cmd_key (_command_id b + 1)).
  assert (forall k0 n0, k0 = cmd_key n0 -> n0 <= _command_id b -> k0 ≠ k) as Hfresh.
  { intros k0 n0 -> Hle E. apply cmd_key_inj in E. lia. }
  assert (forall g c, future_at (with_sent c (with_pending
            (<[k := length (futures b)]> (_pending_commands b))
            (with_futures (futures b ++ [Pending])
               (with_command_id (_command_id b + 1) b)))) g = future_at b g) as Hfa.
  { intros g c. apply (future_at_snoc b g). }
  split; simpl.
  - done.
  - rewrite length_app; simpl. lia.
  - intros i c Hl. apply lookup_snoc_Some in Hl as [[Hlt Hl]|[-> <-]]; [eauto|].
    simpl. unfold k. do 3 f_equal. lia.
  - intros k0 f0 Hk0. apply lookup_insert_Some in Hk0 as [[<- <-]|[Hne Hk0]].
    + exists (_command_id b + 1). split; [done|lia].
    + destruct (inv_keys0 _ _ Hk0) as (n & -> & Hn). exists n. split; [done|lia].
  - intros k0 f0 Hin. rewrite length_app; simpl.
    apply elem_of_cons in Hin as [Heq|Hin].
    + injection Heq as -> ->. split; [lia|].
      exists (_command_id b + 1). split; [done|lia].
    + destruct (inv_waiting0 _ _ Hin) as (Hlt & n & -> & Hn).
      split; [lia|]. exists n. split; [done|lia].
  - intros k0 f0 Hin Hd. rewrite Hfa in Hd.
    apply elem_of_cons in Hin as [Heq|Hin].
    + injection Heq as -> ->. apply lookup_insert_eq.
    + destruct (inv_waiting0 _ _ Hin) as (Hlt & n & -> & Hn).
      rewrite lookup_insert_ne; [by apply inv_registered0|].
      intros E. symmetry in E. revert E. apply (Hfresh _ n); [done|lia].
  - apply NoDup_cons. split; [|done].
    intros Hin. apply list_elem_of_fmap in Hin as [[k0 f0] [E Hin]]. simpl in E. subst k0.
    destruct (inv_waiting0 _ _ Hin) as (_ & n & E & Hn).
    apply (Hfresh _ n E); [lia|done].
  - intros k0 f0 Hk0. rewrite length_app; simpl.
    apply lookup_insert_Some in Hk0 as [[<- <-]|[Hne Hk0]]; [lia|].
    apply inv_values0 in Hk0. lia.
  - intros k1 k2 f0 H1 H2.
    apply lookup_insert_Some in H1 as [[<- <-]|[Hne1 H1]];
      apply lookup_insert_Some in H2 as [[<- E2]|[Hne2 H2]]; try done.
    + apply inv_values0 in H2. lia.
    + apply inv_values0 in H1. lia.
    + eauto.
  - intros f0 data Hr. rewrite Hfa in Hr. eauto.
Qed.

Lemma inv_shrink s (W' : list (string * nat)) :
  inv s -> (forall x, x ∈ W' -> x ∈ waiting s) -> NoDup W'.*1 ->
  inv (mkSystem (bridge s) W').
Proof. intros [] Hsub Hnd. split; simpl; eauto. Qed.

(** The state the second half of a call leaves, by the state of its
    future when the wait ends. *)
Lemma wake_state k f timeout b :
  (send_command_wait k f timeout [] b).2 =
    match future_at b f with
    | Result _ => b
    | Pending => with_pending (delete k (_pending_commands b)) (resolve f Cancelled b)
    | _ => with_pending (delete k (_pending_commands b)) b
    end.
Proof.
  unfold send_command_wait, try_except; simpl.
  destruct (future_at b f) as [|data|e|]; simpl; try done.
  destruct (cls e); done.
Qed.

Lemma inv_wake_pop s k f fs :
  let b := bridge s in
  let b0 := with_futures fs b in
  inv s -> (k, f) ∈ waiting s ->
  length fs = length (futures b) ->
  (forall g, g ≠ f -> future_at b0 g = future_at b g) ->
  done (future_at b0 f) = true ->
  (forall data, future_at b0 f = Result data -> future_at b f = Result data) ->
  inv (mkSystem (with_pending (delete k (_pending_commands b)) b0)
         (filter (fun w => w ≠ (k, f)) (waiting s))).
Proof.
  intros b b0 Hi Hin Hlen Hother Hdone Hres. pose proof Hi as [].
  fold b in inv_client0, inv_counter0, inv_sent0, inv_keys0, inv_waiting0,
    inv_registered0, inv_values0, inv_inj0, inv_results0.
  assert (forall g, future_at (with_pending (delete k (_pending_commands b)) b0) g
                    = future_at b0 g) as Hfa by done.
  split; simpl; try done.
  - intros k0 f0 Hk0. apply lookup_delete_Some in Hk0 as [_ Hk0]. eauto.
  - intros k0 f0 Hin0. apply list_elem_of_filter in Hin0 as [_ Hin0].
    rewrite Hlen. eauto.
  - intros k0 f0 Hin0 Hd. apply list_elem_of_filter in Hin0 as [Hne Hin0].
    rewrite Hfa in Hd.
    assert (f0 ≠ f) as Hf by (intros ->; congruence).
    rewrite Hother in Hd by done.
    apply lookup_delete_Some. split; [|by apply inv_registered0].
    intros <-. apply Hf. by apply (nodup_keys_unique (waiting s) k).
  - by apply nodup_keys_filter.
  - intros k0 f0 Hk0. apply lookup_delete_Some in Hk0 as [_ Hk0].
    rewrite Hlen. eauto.
  - intros k1 k2 f0 H1 H2.
    apply lookup_delete_Some in H1 as [_ H1].
    apply lookup_delete_Some in H2 as [_ H2]. eauto.
  - intros f0 data Hr. rewrite Hfa in Hr.
    destruct (decide (f0 = f)) as [->|Hne].
    + apply Hres in Hr. eauto.
    + rewrite Hother in Hr by done. eauto.
Qed.

Lemma inv_wake s k f :
  inv s -> inv (sys_step (CallerWakes k f) s).
Proof.
  intros Hi. simpl. case_bool_decide as Hin; [|done].
  rewrite wake_state.
  set (b := bridge s).
  assert (with_futures (futures b) b = b) as Hb by (by destruct b).
  destruct (future_at b f) as [|data|e|] eqn:Hf.
  - apply (inv_wake_pop s k f (<[f := Cancelled]> (futures b))); try done.
    + apply length_insert.
    + intros g Hg. by apply (future_at_resolve_ne b f Cancelled g).
    + change (done (future_at (resolve f Cancelled b) f) = true).
      rewrite future_at_resolve_eq; [done|].
      destruct Hi. by destruct (inv_waiting0 _ _ Hin).
    + intros data.
      change (future_at (resolve f Cancelled b) f = Result data ->
              future_at b f = Result data).
      rewrite future_at_resolve_eq; [done|].
      destruct Hi. by destruct (inv_waiting0 _ _ Hin).
  - apply (inv_shrink s); [done| |].
    + intros x Hx. by apply list_elem_of_filter in Hx as [_ ?].
    + apply nodup_keys_filter. by destruct Hi.
  - rewrite <- Hb at 2.
    apply (inv_wake_pop s k f (futures b)); fold b; rewrite ?Hb, ?Hf; done.
  - rewrite <- Hb at 2.
    apply (inv_wake_pop s k f (futures b)); fold b; rewrite ?Hb, ?Hf; done.
Qed.

Lemma inv_start s : inv s -> inv (sys_step BridgeStarts s).
Proof.
  intros []. simpl. unfold start. destruct (_running (bridge s)); [by destruct s|].
  split; simpl; eauto.
Qed.

Lemma inv_step o s : inv s -> inv (sys_step o s).
Proof.
  destruct o.
  - apply inv_start.
  - apply inv_begin.
  - apply inv_loop_step.
  - apply inv_wake.
Qed.

Lemma inv_run ops s : inv s -> inv (run ops s).
Proof.
  revert s. induction ops as [|o ops IH]; intros s Hi; [done|].
  simpl. apply IH. by apply inv_step.
Qed.

Lemma inv_init : inv (mkSystem init []).
Proof.
  split; simpl; try done.
  all: try (intros k f Hin; by apply elem_of_nil in Hin).
  constructor.
Qed.

Lemma reachable_inv s : reachable s -> inv s.
Proof. intros [ops <-]. apply inv_run, inv_init. Qed.

Lemma reachable_step o s : reachable s -> reachable (sys_step o s).
Proof.
  intros [ops <-]. exists (ops ++ [o]). unfold run. by rewrite foldl_app.
Qed.

Lemma reachable_run ops s : reachable s -> reachable (run ops s).
Proof.
  intros [ops0 <-]. exists (ops0 ++ ops). unfold run. by rewrite foldl_app.
Qed.

Lemma evolves_loop_run evs b : evolves b (loop_run evs b).
Proof.
  revert b. induction evs as [|ev evs IH]; intros b; [apply evolves_refl|].
  simpl. eapply evolves_trans; [apply evolves_loop_step|apply IH].
Qed.

Lemma loop_run_wired evs b :
  (connected b = true -> is_Some (client b)) ->
  connected (loop_run evs b) = true -> is_Some (client (loop_run evs b)).
Proof.
  revert b. induction evs as [|ev evs IH]; intros b Hw; [done|].
  simpl. apply IH. by apply loop_step_wired.
Qed.

Lemma inv_loop_run s evs :
  inv s -> inv (mkSystem (loop_run evs (bridge s)) (waiting s)).
Proof.
  intros Hi. apply inv_evolves; [done|apply evolves_loop_run|].
  apply loop_run_wired. by destruct Hi.
Qed.

Lemma not_done_pending v : done v = false -> v = Pending.
Proof. by destruct v. Qed.

Lemma elem_of_before timeout evs ev :
  ev ∈ before timeout evs ->
  exists t, (t, ev) ∈ evs /\ Qle_bool timeout t = false.
Proof.
  induction evs as [|[t0 ev0] evs IH]; simpl; intros Hin.
  - by apply elem_of_nil in Hin.
  - destruct (Qle_bool timeout t0) eqn:Ht; [by apply elem_of_nil in Hin|].
    apply elem_of_cons in Hin as [->|Hin].
    + exists t0. split; [by left|done].
    + destruct (IH Hin) as (t & Hin' & Hlt). exists t. split; [by right|done].
Qed.

(** The wait ends after some of the steps that fall before its deadline. *)
Lemma wait_for_run f timeout evs b :
  exists pre, pre `prefix_of` before timeout evs /\
    wait_for f timeout evs b = wait_for f timeout [] (loop_run pre b).
Proof.
  revert b. induction evs as [|[t ev] evs IH]; intros b.
  - exists []. done.
  - simpl. destruct (future_at b f) eqn:Hf.
    + destruct (Qle_bool timeout t) eqn:Ht.
      * exists []. split; [done|]. simpl. by rewrite Hf.
      * destruct (IH (loop_step ev b)) as (pre & Hpre & ->).
        exists (ev :: pre). split; [by apply prefix_cons|done].
    + exists []. split; [apply prefix_nil|]. simpl. by rewrite Hf.
    + exists []. split; [apply prefix_nil|]. simpl. by rewrite Hf.
    + exists []. split; [apply prefix_nil|]. simpl. by rewrite Hf.
Qed.

(** With the future still not done at the deadline, the wait times out. *)
Lemma wait_for_unanswered f timeout evs b :
  done (future_at (loop_run (before timeout evs) b) f) = false ->
  wait_for f timeout evs b =
    (Raised (mkExn TimeoutError ""),
     resolve f Cancelled (loop_run (before timeout evs) b)).
Proof.
  revert b. induction evs as [|[t ev] evs IH]; intros b Hd.
  - simpl in *. by rewrite (not_done_pending _ Hd).
  - assert (future_at b f = Pending) as Hf.
    { apply not_done_pending.
      destruct (done (future_at b f)) eqn:E; [|done].
      rewrite (ev_done _ _ (evolves_loop_run _ b) _ E) in Hd. congruence. }
    simpl in *. rewrite Hf. destruct (Qle_bool timeout t); [done|].
    by apply IH.
Qed.

(** Every outcome of [_handle_message]: nothing but the log changes, or
    the frame is a dict whose [id] is registered: the entry is popped and
    its future, unless done, gets the dict as result. *)
Lemma handle_message_cases message b :
  (exists l, (_handle_message message b).2 = with_log l b) \/
  (exists fields k f,
     message = JsonText (JObj fields) /\
     py_get (JObj fields) "id" JNull = Returned (JStr k) /\
     _pending_commands b !! k = Some f /\
     _handle_message message b =
       (Returned tt,
        let b' := with_pending (delete k (_pending_commands b)) b in
        if done (future_at b f) then b'
        else resolve f (Result (JObj fields)) b')).
Proof.
  assert (exists l, b = with_log l b) as Hsame by (exists (log b); by destruct b).
  unfold _handle_message, try_except, bind.
  destruct message as [text|text []|data]; simpl; [left; by eexists|by left..|].
  destruct data as [| | | | |fields]; simpl; try (by left).
  destruct (eq_str _ _); simpl; [left; by eexists|].
  destruct (truthy _) eqn:Ht; simpl; [|by left].
  destruct (default JNull (lookup_field "id" fields)) as [| | |k| |] eqn:Hid;
    simpl; try (by left).
  case_decide as Hk; simpl; [|by left].
  destruct (_pending_commands b !! k) as [f|] eqn:Hf; [|by left].
  right. exists fields, k, f. split; [done|]. split; [by rewrite Hid|].
  split; [done|].
  change (future_at (with_pending (delete k (_pending_commands b)) b) f)
    with (future_at b f).
  by destruct (done (future_at b f)).
Qed.

Lemma exit_future_cases r b g :
  future_at (_handle_client_exit r b).2 g = future_at b g \/
  (done (future_at b g) = false /\
   future_at (_handle_client_exit r b).2 g = Exception disconnected).
Proof.
  destruct (exit_log r b) as [l ->]. rewrite finally_eq. simpl.
  apply (cancel_all_cases _ (with_connected false (with_client None (with_log l b))) g).
Qed.

(** A step of the loop gives a future a result only by handling the frame
    that carries the future's registered ID. *)
Lemma loop_step_result ev b f data :
  done (future_at b f) = false ->
  future_at (loop_step ev b) f = Result data ->
  exists fields k,
    ev = PeerSends (JsonText data) /\ data = JObj fields /\
    py_get data "id" JNull = Returned (JStr k) /\
    _pending_commands b !! k = Some f.
Proof.
  intros Hd Hr. destruct ev as [websocket|message|how].
  - change (future_at b f = Result data) in Hr. rewrite Hr in Hd. done.
  - simpl in Hr. destruct (handle_message_cases message b)
      as [[l Hl]|(fields & k & f0 & -> & Hid & Hk & Heq)].
    + destruct (_handle_message message b) as [[[]|e] b']; simpl in *; subst b'.
      * change (future_at b f = Result data) in Hr. rewrite Hr in Hd. done.
      * destruct (exit_future_cases (Raised e) (with_log l b) f) as [E|[_ E]];
          rewrite E in Hr; [|done].
        change (future_at b f = Result data) in Hr. rewrite Hr in Hd. done.
    + rewrite Heq in Hr. simpl in Hr.
      destruct (done (future_at b f0)) eqn:Hd0.
      * change (future_at b f = Result data) in Hr. rewrite Hr in Hd. done.
      * rewrite future_at_resolve in Hr. case_bool_decide as Hc.
        -- destruct Hc as [-> _]. injection Hr as <-. by exists fields, k.
        -- change (future_at b f = Result data) in Hr. rewrite Hr in Hd. done.
  - assert (exists r, future_at (_handle_client_exit r b).2 f = Result data) as [r Hr'].
    { destruct how.
      - by exists (Returned tt).
      - by exists (Raised (mkExn ConnectionClosed "connection closed")). }
    destruct (exit_future_cases r b f) as [E|[_ E]]; rewrite E in Hr'; [|done].
    rewrite Hr' in Hd. done.
Qed.

Lemma loop_run_result evs b f data :
  done (future_at b f) = false ->
  future_at (loop_run evs b) f = Result data ->
  exists fields k,
    PeerSends (JsonText data) ∈ evs /\ data = JObj fields /\
    py_get data "id" JNull = Returned (JStr k) /\
    _pending_commands b !! k = Some f.
Proof.
  revert b. induction evs as [|ev evs IH]; intros b Hd Hr.
  - simpl in Hr. rewrite Hr in Hd. done.
  - simpl in Hr. destruct (done (future_at (loop_step ev b) f)) eqn:Hd1.
    + rewrite (ev_done _ _ (evolves_loop_run evs _) _ Hd1) in Hr.
      destruct (loop_step_result ev b f data Hd Hr) as (fields & k & -> & ? & ? & ?).
      exists fields, k. split; [by left|done].
    + destruct (IH _ Hd1 Hr) as (fields & k & Hin & ? & ? & Hk).
      exists fields, k. split; [by right|]. repeat split; try done.
      by apply (ev_pending _ _ (evolves_loop_step ev b)).
Qed.

Lemma wait_for_exception f timeout evs b e :
  future_at b f = Exception e -> wait_for f timeout evs b = (Raised e, b).
Proof. intros Hf. destruct evs as [|[t ev] evs]; simpl; by rewrite Hf. Qed.

Lemma wait_for_nil f timeout b : wait_for f timeout [] b = wait_for f 0 [] b.
Proof. reflexivity. Qed.

(** [send_command_wait] returns whatever happens during the wait. *)
Lemma send_command_wait_returns k f timeout evs b :
  exists o, (send_command_wait k f timeout evs b).1 = Returned o.
Proof.
  unfold send_command_wait, try_except.
  destruct (wait_for f timeout evs b) as [[data|e] b1]; simpl; [by eexists|].
  destruct (cls e); simpl; by eexists.
Qed.

(** [_handle_client] is the arrival of the peer, the receive loop, and
    the exit of the handler with whatever ended the loop. *)
Lemma handle_client_ends_with_exit websocket inbound how b :
  _handle_client websocket inbound how b =
    match receive_loop inbound how (_handle_client_enter websocket b).2 with
    | (r, b1) => _handle_client_exit r b1
    end.
Proof.
  unfold _handle_client, _handle_client_exit, bind, try_finally, try_except.
  simpl. by destruct (receive_loop inbound how _) as [[[]|e] b1].
Qed.

(** A frame carrying an ID that is not registered changes neither a
    future nor the dict. *)
Lemma handle_message_unregistered fields k b :
  py_get (JObj fields) "id" JNull = Returned (JStr k) ->
  _pending_commands b !! k = None ->
  futures (_handle_message (JsonText (JObj fields)) b).2 = futures b /\
  _pending_commands (_handle_message (JsonText (JObj fields)) b).2
    = _pending_commands b.
Proof.
  intros Hid Hk.
  destruct (handle_message_cases (JsonText (JObj fields)) b)
    as [[l ->]|(fields' & k' & f & Heq & Hid' & Hk' & _)]; [done|].
  injection Heq as <-. rewrite Hid in Hid'. injection Hid' as <-. congruence.
Qed.

(** A whole [send_command] is a run of the system: the caller's two
    halves around the steps the loop took meanwhile. *)
Lemma send_command_reachable peer s action params timeout :
  reachable s ->
  reachable (mkSystem
    (send_command peer action params timeout (bridge s)).2 (waiting s)).
Proof.
  intros Hr. pose proof (reachable_inv _ Hr) as Hi.
  unfold send_command, bind. rewrite begin_eq by (by destruct Hi).
  destruct (negb _ || negb _) eqn:Hc; simpl; [by destruct s|].
  set (k := cmd_key (_command_id (bridge s) + 1)).
  set (f := length (futures (bridge s))).
  set (command := command_frame k action params).
  match goal with |- context [send_command_wait k f timeout _ ?b] => set (b1 := b) end.
  destruct (wait_for_run f timeout (peer command) b1) as (pre & _ & Hw).
  assert ((send_command_wait k f timeout (peer command) b1).2
          = (send_command_wait k f 0 [] (loop_run pre b1)).2) as ->.
  { unfold send_command_wait, try_except. by rewrite Hw, wait_for_nil. }
  assert (sys_step (CallerSends action params) s
          = mkSystem b1 ((k, f) :: waiting s)) as Hs1.
  { simpl. rewrite begin_eq by (by destruct Hi). by rewrite Hc. }
  assert (forall evs s0, run (map LoopRuns evs) s0
            = mkSystem (loop_run evs (bridge s0)) (waiting s0)) as Hs2.
  { induction evs as [|ev evs IH]; intros s0; simpl; [by destruct s0|].
    by rewrite IH. }
  assert ((k, f) ∉ waiting s) as Hnew.
  { intros Hin. destruct Hi. destruct (inv_waiting0 _ _ Hin) as [Hlt _].
    unfold f in Hlt. lia. }
  assert (filter (fun w => w ≠ (k, f)) (waiting s) = waiting s) as Hfil.
  { clear -Hnew. induction (waiting s) as [|w W IH]; [done|].
    rewrite filter_cons. 
    case_decide as Hd.
    - f_equal. apply IH. intros Hin. apply Hnew. by right.
    - exfalso. apply Hnew. rewrite Hd. by left. }
  replace (mkSystem (send_command_wait k f 0 [] (loop_run pre b1)).2 (waiting s))
    with (sys_step (CallerWakes k f)
            (run (map LoopRuns pre) (sys_step (CallerSends action params) s))).
  { by apply reachable_step, reachable_run, reachable_step. }
  rewrite Hs1, Hs2. simpl. rewrite bool_decide_eq_true_2 by (by left).
  rewrite filter_cons. case_decide as Hd; [done|]. by rewrite Hfil.
Qed.

(** What a whole [send_command] comes to when callers and the loop
    take turns. *)
Lemma send_command_outcome peer s action params timeout :
  reachable s ->
  exists o b',
    send_command peer action params timeout (bridge s) = (Returned o, b') /\
    (connected (bridge s) = false \/ _loop (bridge s) = None ->
     o = failure "Extension not connected" /\ b' = bridge s) /\
    (is_failure o \/
     exists t fields,
       let k := cmd_key (_command_id (bridge s) + 1) in
       (t, PeerSends (JsonText o)) ∈ peer (command_frame k action params) /\
       Qle_bool timeout t = false /\
       o = JObj fields /\
       py_get o "id" JNull = Returned (JStr k)).
Proof.
  intros Hr. pose proof (reachable_inv _ Hr) as Hi.
  pose proof (inv_begin s action params Hi) as Hi1. revert Hi1. simpl.
  unfold send_command, bind. rewrite begin_eq by (by destruct Hi).
  destruct (connected (bridge s)) eqn:Hc; simpl;
    [|intros _; do 2 eexists; split; [done|]; split; [done|left; by eexists]].
  destruct (_loop (bridge s)) as [loop|] eqn:Hl; simpl;
    [|intros _; do 2 eexists; split; [done|]; split; [done|left; by eexists]].
  set (k := cmd_key (_command_id (bridge s) + 1)).
  set (f := length (futures (bridge s))).
  set (command := command_frame k action params).
  match goal with |- context [send_command_wait k f timeout _ ?b] => set (b1 := b) end.
  intros Hi1.
  assert (done (future_at b1 f) = false) as Hd1.
  { unfold b1, future_at; simpl. by rewrite list_lookup_middle. }
  assert (_pending_commands b1 !! k = Some f) as Hk1 by apply lookup_insert_eq.
  destruct (wait_for_run f timeout (peer command) b1) as (pre & Hpre & Hw).
  unfold send_command_wait, try_except. rewrite Hw. simpl.
  destruct (future_at (loop_run pre b1) f) as [|data|e|] eqn:Hf; simpl.
  - do 2 eexists. split; [done|]. split; [intros [|]; done|left; by eexists].
  - do 2 eexists. split; [done|]. split; [intros [|]; done|right].
    destruct (loop_run_result pre b1 f data Hd1 Hf) as (fields & k' & Hin & -> & Hid & Hk').
    assert (k' = k) as -> by (destruct Hi1; simpl in *; eauto).
    destruct (elem_of_before timeout (peer command) (PeerSends (JsonText (JObj fields))))
      as (t & Hin' & Ht).
    { eapply elem_of_prefix; [|done]. done. }
    by exists t, fields.
  - destruct (cls e); simpl; do 2 eexists;
      (split; [done|]); (split; [intros [|]; done|left; by eexists]).
  - do 2 eexists. split; [done|]. split; [intros [|]; done|left; by eexists].
Qed.

(** With [connected] set and no client, which no whole turn leaves
    behind but a handler that has run line 111 and not yet line 112
    does, the attribute access of line 176 fails outside the [try] and
    [send_command] raises. *)
Remark send_command_needs_a_client peer action params timeout b :
  connected b = true -> is_Some (_loop b) -> client b = None ->
  exists e b',
    cls e = AttributeError /\
    send_command peer action params timeout b = (Raised e, b').
Proof.
  intros Hc [loop Hl] Hn. unfold send_command, send_command_begin, bind, gets.
  cbv beta. rewrite Hc, Hl. simpl. unfold client_send. simpl. rewrite Hn.
  eexists _, _. split; [|reflexivity]. reflexivity.
Qed.

(** C9, for callers that take turns: a call that gets past the connection
    check allocates the ID numbered one more than the counter, which it
    advances by one; the frame it sends carries that ID; every frame sent
    before carries an ID with a strictly smaller number, different from
    the new one. *)
Theorem sequential_ids_strictly_increase s action params k f command b' :
  reachable s ->
  send_command_begin action params (bridge s)
    = (Returned (inr (k, f, command)), b') ->
  k = cmd_key (_command_id (bridge s) + 1) /\
  _command_id b' = _command_id (bridge s) + 1 /\
  sent b' = sent (bridge s) ++ [command] /\
  py_get command "id" JNull = Returned (JStr k) /\
  forall c, c ∈ sent (bridge s) ->
    exists m, py_get c "id" JNull = Returned (JStr (cmd_key m)) /\
              1 <= m < _command_id (bridge s) + 1 /\
              cmd_key m ≠ k.
Proof.
  intros Hr Hb. apply reachable_inv in Hr as [].
  rewrite begin_eq in Hb by done.
  destruct (negb _ || negb _); [done|]. simpl in Hb.
  injection Hb as <- <- <- <-. repeat split; try done.
  intros c Hin. apply list_elem_of_lookup in Hin as [i Hi].
  exists (Z.of_nat (S i)). split; [eauto|].
  apply lookup_lt_Some in Hi. split; [lia|].
  intros E. apply cmd_key_inj in E. lia.
Qed.

Lemma reachable_attached : reachable Scenario.attached.
Proof.
  exists [BridgeStarts; LoopRuns (PeerConnects 7)]. vm_compute. reflexivity.
Defined.

Lemma reachable_one_waiting : reachable Scenario.one_waiting.
Proof.
  exists [BridgeStarts; LoopRuns (PeerConnects 7);
          CallerSends "click" (JObj [("text", JStr "Submit")])].
  vm_compute. reflexivity.
Defined.

Lemma sequential_ids_strictly_increase_witness :
  let second := send_command_begin "scroll" JNull (bridge Scenario.one_waiting) in
  reachable Scenario.one_waiting /\
  second = (Returned (inr ("cmd-2", 1%nat, command_frame "cmd-2" "scroll" JNull)),
            second.2) /\
  forall c, c ∈ sent (bridge Scenario.one_waiting) ->
    exists m, py_get c "id" JNull = Returned (JStr (cmd_key m)) /\
              1 <= m < _command_id (bridge Scenario.one_waiting) + 1 /\
              cmd_key m ≠ "cmd-2".
Proof.
  intros second.
  assert (second = (Returned (inr ("cmd-2", 1%nat,
                      command_frame "cmd-2" "scroll" JNull)), second.2)) as Hb
    by (vm_compute; reflexivity).
  split; [exact reachable_one_waiting|]. split; [exact Hb|].
  apply (sequential_ids_strictly_increase Scenario.one_waiting "scroll" JNull
           "cmd-2" 1%nat _ _ reachable_one_waiting Hb).
Defined.

(** The outcomes of [send_command] on a bridge with a peer attached:
    the correlated response, a timeout after a frame that is not JSON, a
    disconnection during the wait; and on a bridge nobody connected to. *)
Example send_command_gets_its_response :
  let response := Scenario.reply "cmd-1" true (JObj [("pong", JBool true)]) in
  (send_command (Scenario.sends (JsonText response) (1 # 2)) "ping" JNull (2 # 1)
     (bridge Scenario.attached)).1 = Returned response.
Proof. vm_compute. reflexivity. Qed.

Example send_command_times_out_after_garbage :
  (send_command (Scenario.sends (NotJson "<html>") (1 # 2)) "ping" JNull (2 # 1)
     (bridge Scenario.attached)).1 = Returned (failure "Command timed out").
Proof. vm_compute. reflexivity. Qed.

Example send_command_sees_the_disconnection :
  (send_command (fun _ => [(1 # 2, PeerCloses ClosedError)]) "ping" JNull (2 # 1)
     (bridge Scenario.attached)).1 = Returned (failure "Extension disconnected").
Proof. vm_compute. reflexivity. Qed.

Example send_command_without_peer :
  send_command Scenario.silent "ping" JNull (2 # 1) (start init)
    = (Returned (failure "Extension not connected"), start init).
Proof. vm_compute. reflexivity. Qed.

(** Text that is not JSON is logged and dropped: the handler returns and
    only the log changes. *)
Lemma not_json_is_logged_and_dropped text b :
  _handle_message (NotJson text) b =
    (Returned tt, with_log (log b ++ [LogError "Invalid JSON from extension"]) b).
Proof. reflexivity. Qed.

(** A frame that is JSON but no dict makes [data.get] fail: the handler
    raises, and the step of the loop that handled it ends the handler:
    the connection state is gone and the dict empty. *)
Lemma non_dict_frame_raises v b :
  match v with JObj _ => False | _ => True end ->
  _handle_message (JsonText v) b
    = (Raised (mkExn AttributeError "object has no attribute 'get'"), b) /\
  connected (loop_step (PeerSends (JsonText v)) b) = false /\
  client (loop_step (PeerSends (JsonText v)) b) = None /\
  _pending_commands (loop_step (PeerSends (JsonText v)) b) = ∅.
Proof.
  intros Hv.
  assert (_handle_message (JsonText v) b
          = (Raised (mkExn AttributeError "object has no attribute 'get'"), b)) as E
    by (by destruct v).
  split; [done|]. simpl. rewrite E.
  destruct (exit_log (Raised (mkExn AttributeError "object has no attribute 'get'")) b)
    as [l ->].
  rewrite finally_eq. simpl. by rewrite cancel_all_frame.
Qed.

(** A dict whose [id] is a list is no better: the membership test
    raises [TypeError]. *)
Example unhashable_id_raises b :
  _handle_message (JsonText (JObj [("id", JArr [JNum 1])])) b
    = (Raised (mkExn TypeError "unhashable type: 'list'"), b).
Proof. reflexivity. Qed.

(** C4, at the frame [[]]: valid JSON, no dict. With one call pending,
    [_handle_message] raises [AttributeError] instead of dropping the
    frame; the handler stops, the connection state is torn down, the
    pending call fails with the disconnection error, and the response
    that follows the bad frame is never handled. After text that is not
    JSON the same response is delivered. *)
Theorem non_object_frame_ends_the_connection :
  let b := bridge Scenario.one_waiting in
  let bad := JsonText (JArr []) in
  let response :=
    Scenario.reply "cmd-1" true (JObj [("clicked", JBool true)]) in
  _handle_message bad b
    = (Raised (mkExn AttributeError "object has no attribute 'get'"), b) /\
  connected b = true /\
  connected (loop_step (PeerSends bad) b) = false /\
  future_at (loop_step (PeerSends bad) b) 0 = Exception disconnected /\
  future_at (_handle_client 7 [bad; JsonText response] ClosedOK b).2 0
    = Exception disconnected /\
  future_at (_handle_client 7 [NotJson "{"; JsonText response] ClosedOK b).2 0
    = Result response.
Proof. intros b bad response. repeat split; vm_compute; reflexivity. Qed.
End BridgeFacts.

Module HybridFacts.

Import Bridge Hybrid.

(** Unfold a method down to its first read of the router's state. *)
Ltac enter_method := unfold bind, gets; cbv beta.

(** Case on [o.get("success")] and its truthiness, closing the cases
    where the method is already done. *)
Ltac on_success o :=
  unfold eval;
  destruct (py_get o "success" JNull) as [?success|?e]; [|done];
  destruct (truthy _); [|done].

Section RoutingFacts.

Variable peer : json -> list (Q * loop_event).
Variable visual : visual_call -> string.
Variable repr : string -> string.

Lemma unavailable_without_peer w :
  peer_connected w = false -> browser_available w = false.
Proof.
  unfold peer_connected, browser_available.
  destruct (bridge w); [|done]. intros ->. by destruct (negb _).
Qed.

Lemma no_browser_route w :
  peer_connected w = false \/ is_browser_active w = false ->
  _should_use_browser w = false.
Proof.
  unfold _should_use_browser. intros [H|H].
  - by rewrite (unavailable_without_peer w H).
  - rewrite H. by destruct (negb _).
Qed.

Lemma browser_route w :
  _should_use_browser w = true ->
  browser_available w = true /\ exists b, bridge w = Some b /\ connected b = true.
Proof.
  unfold _should_use_browser, browser_available.
  destruct (bridge w) as [b|]; [|done].
  destruct (enable_browser w); simpl; [|done].
  destruct (connected b) eqn:Hc; [|done]. intros _. split; [done|]. by exists b.
Qed.

(** C5: with the bridge's peer not connected, or with no browser in the
    foreground, [click], [type] and [scroll] return what the visual
    executor returns for the same arguments, call it once, and leave the
    bridge as it was: no ID allocated, nothing registered, no frame sent. *)
Theorem ineligible_actions_go_straight_to_visual w :
  peer_connected w = false \/ is_browser_active w = false ->
  (forall element_description num_clicks button_type hold_keys,
     let call := VisualClick element_description num_clicks button_type hold_keys in
     click peer visual element_description num_clicks button_type hold_keys w
       = (Returned (visual call), with_visual_calls (visual_calls w ++ [call]) w)) /\
  (forall text element_description overwrite enter,
     let call := VisualType text element_description overwrite enter in
     type peer visual text element_description overwrite enter w
       = (Returned (visual call), with_visual_calls (visual_calls w ++ [call]) w)) /\
  (forall element_description direction amount,
     let call := VisualScroll element_description direction amount in
     scroll peer visual element_description direction amount w
       = (Returned (visual call), with_visual_calls (visual_calls w ++ [call]) w)).
Proof.
  intros H. apply no_browser_route in H.
  repeat split; intros; unfold click, type, scroll; enter_method;
    by rewrite H.
Qed.

(** What [click] does once it is routed through the bridge, by the
    outcome [o] of the bridge's click. *)
Lemma click_by_outcome w b o b' element_description num_clicks button_type hold_keys :
  _should_use_browser w = true ->
  bridge w = Some b ->
  Bridge.click peer None (Some element_description) None b = (Returned o, b') ->
  let call := VisualClick element_description num_clicks button_type hold_keys in
  click peer visual element_description num_clicks button_type hold_keys w =
    match success_and o "clicked" with
    | Returned clicked =>
        if truthy clicked then
          (Returned "import time; time.sleep(0.3)  # DOM click completed",
           with_bridge (Some b') w)
        else
          (Returned (visual call),
           with_visual_calls (visual_calls w ++ [call]) (with_bridge (Some b') w))
    | Raised e => (Raised e, with_bridge (Some b') w)
    end.
Proof.
  intros Hu Hb Hc call. destruct (browser_route w Hu) as [Ha _].
  unfold click, bind, gets. cbv beta. rewrite Hu.
  unfold _try_browser_click, bind, gets. cbv beta. rewrite Ha. cbn [negb].
  unfold on_bridge. rewrite Hb, Hc. unfold eval.
  destruct (success_and o "clicked") as [clicked|e]; [|done].
  by destruct (truthy clicked).
Qed.

(** C6, at the outcome [{"id": "cmd-1", "success": true, "result": null}]:
    a success without the [clicked] indicator. [click] raises
    [AttributeError] ([None] has no [get]) and the visual executor is not
    called. *)
Theorem click_raises_on_success_with_null_result :
  let peer_null :=
    Scenario.sends (JsonText (Scenario.reply "cmd-1" true JNull)) (1 # 1) in
  let r := click peer_null visual "Submit" 1 "left" [] Scenario.in_browser in
  r.1 = Raised (mkExn AttributeError "object has no attribute 'get'") /\
  visual_calls r.2 = [] /\
  option_map sent (bridge r.2)
    = Some [command_frame "cmd-1" "click" (JObj [("text", JStr "Submit")])].
Proof. intros peer_null r. repeat split; vm_compute; reflexivity. Qed.

(** A failure dict of the bridge (remote failure, timeout,
    disconnection) falls back to the visual executor, called once with
    the arguments of the call. *)
Lemma click_falls_back_on_failure w b error b'
    element_description num_clicks button_type hold_keys :
  _should_use_browser w = true ->
  bridge w = Some b ->
  Bridge.click peer None (Some element_description) None b
    = (Returned (failure error), b') ->
  let call := VisualClick element_description num_clicks button_type hold_keys in
  click peer visual element_description num_clicks button_type hold_keys w =
    (Returned (visual call),
     with_visual_calls (visual_calls w ++ [call]) (with_bridge (Some b') w)).
Proof.
  intros Hu Hb Hc call.
  by rewrite (click_by_outcome w b _ b' _ _ _ _ Hu Hb Hc).
Qed.

Lemma on_bridge_visual_calls {A} (m : M BrowserBridge A) w :
  visual_calls (on_bridge m w).2 = visual_calls w.
Proof.
  unfold on_bridge. destruct (bridge w) as [b|]; [|done].
  by destruct (m b).
Qed.

Lemma on_bridge_active {A} (m : M BrowserBridge A) a w :
  on_bridge m (with_active a w) =
    ((on_bridge m w).1, with_active a (on_bridge m w).2).
Proof.
  unfold on_bridge; simpl. destruct (bridge w) as [b|]; [|done].
  by destruct (m b).
Qed.

(** C7, amended: the page-content query is gated on the foreground and
    on the bridge: unless the bridge is available and a browser is in the
    foreground it returns [None] and touches nothing. The screenshot query
    is gated on the bridge only: with the bridge unavailable it returns
    [None] and touches nothing, and the foreground application makes no
    difference to what it does. Neither ever calls the visual executor. *)
Theorem content_is_gated_on_foreground_screenshot_on_bridge w :
  (is_browser_active w = false \/ browser_available w = false ->
   get_page_content peer w = (Returned JNull, w)) /\
  (browser_available w = false ->
   get_browser_screenshot peer w = (Returned JNull, w)) /\
  (forall a,
     get_browser_screenshot peer (with_active a w) =
       ((get_browser_screenshot peer w).1,
        with_active a (get_browser_screenshot peer w).2)) /\
  visual_calls (get_page_content peer w).2 = visual_calls w /\
  visual_calls (get_browser_screenshot peer w).2 = visual_calls w.
Proof.
  repeat split.
  - intros H. unfold get_page_content. enter_method.
    assert (_should_use_browser w = false) as ->; [|done].
    unfold _should_use_browser. destruct H as [H|H]; rewrite H; [|done].
    by destruct (negb _).
  - intros H. unfold get_browser_screenshot. enter_method. by rewrite H.
  - intros a. unfold get_browser_screenshot. enter_method.
    change (browser_available (with_active a w)) with (browser_available w).
    destruct (browser_available w); [|done]. cbn [negb].
    rewrite on_bridge_active.
    destruct (on_bridge (screenshot peer) w) as [[o|e] w1]; [|done].
    cbn [fst snd]. on_success o.
    destruct (py_get o "result" (JObj [])) as [payload|e]; [|done].
    by destruct (py_get payload "screenshot" JNull).
  - unfold get_page_content. enter_method.
    destruct (_should_use_browser w); [|done]. cbn [negb].
    pose proof (on_bridge_visual_calls (get_dom peer true) w) as Hv.
    destruct (on_bridge (get_dom peer true) w) as [[o|e] w1]; [|done].
    simpl in Hv. on_success o.
    by destruct (py_get o "result" JNull).
  - unfold get_browser_screenshot. enter_method.
    destruct (browser_available w); [|done]. cbn [negb].
    pose proof (on_bridge_visual_calls (screenshot peer) w) as Hv.
    destruct (on_bridge (screenshot peer) w) as [[o|e] w1]; [|done].
    simpl in Hv. on_success o.
    destruct (py_get o "result" (JObj [])) as [payload|e]; [|done].
    by destruct (py_get payload "screenshot" JNull).
Qed.

(** C8: with the bridge unavailable, [goto] returns the instruction that
    opens the address with the [webbrowser] launcher and touches nothing.
    Whatever the bridge answers, [goto] never calls the visual executor;
    on a bridge in a reachable state it returns, and returns either the
    settle delay or the launcher instruction. *)
Theorem goto_never_uses_visual_grounding url w :
  let launcher := "import webbrowser; webbrowser.open(" +:+ repr url +:+ ")" in
  (browser_available w = false ->
   goto peer repr url w = (Returned launcher, w)) /\
  visual_calls (goto peer repr url w).2 = visual_calls w /\
  (forall b W, bridge w = Some b -> reachable (mkSystem b W) ->
     (goto peer repr url w).1
       = Returned "import time; time.sleep(1.0)  # Navigation completed" \/
     (goto peer repr url w).1 = Returned launcher).
Proof.
  intros launcher. repeat split.
  - intros H. unfold goto. enter_method. by rewrite H.
  - unfold goto. enter_method.
    destruct (browser_available w); [|done].
    pose proof (on_bridge_visual_calls (navigate peer url) w) as Hv.
    destruct (on_bridge (navigate peer url) w) as [[o|e] w1]; [|done].
    unfold eval. simpl in Hv.
    destruct (py_get o "success" JNull) as [success|e]; [|done].
    by destruct (truthy success).
  - intros b W Hb Hr. unfold goto. enter_method.
    destruct (browser_available w); [|by right].
    unfold on_bridge. rewrite Hb.
    destruct (BridgeFacts.send_command_outcome peer (mkSystem b W) "navigate"
                (JObj [("url", JStr url)]) default_timeout Hr)
      as (o & b' & Hs & _ & Ho).
    unfold navigate. simpl in Hs. rewrite Hs. unfold eval.
    destruct Ho as [[error ->]|(t & fields & _ & _ & -> & _)]; [by right|].
    simpl. by destruct (truthy _); [left|right].
Qed.

(** The routing scenarios of the specification, run on the code. *)
Example click_completed_in_the_page :
  let peer_ok :=
    Scenario.sends
      (JsonText (Scenario.reply "cmd-1" true (JObj [("clicked", JBool true)])))
      (1 # 1) in
  let r := click peer_ok visual "Submit" 1 "left" [] Scenario.in_browser in
  r.1 = Returned "import time; time.sleep(0.3)  # DOM click completed" /\
  visual_calls r.2 = [].
Proof. intros peer_ok r. split; vm_compute; reflexivity. Qed.

Example click_not_found_falls_back :
  let peer_no :=
    Scenario.sends
      (JsonText (JObj [("id", JStr "cmd-1"); ("success", JBool false);
                       ("error", JStr "not found")]))
      (1 # 1) in
  let r := click peer_no visual "Submit" 2 "right" ["ctrl"] Scenario.in_browser in
  r.1 = Returned (visual (VisualClick "Submit" 2 "right" ["ctrl"])) /\
  visual_calls r.2 = [VisualClick "Submit" 2 "right" ["ctrl"]].
Proof. intros peer_no r. split; vm_compute; reflexivity. Qed.

Example click_timeout_falls_back :
  let r := click Scenario.silent visual "Submit" 1 "left" [] Scenario.in_browser in
  r.1 = Returned (visual (VisualClick "Submit" 1 "left" [])) /\
  visual_calls r.2 = [VisualClick "Submit" 1 "left" []] /\
  option_map _pending_commands (bridge r.2) = Some ∅.
Proof. intros r. repeat split; vm_compute; reflexivity. Qed.

End RoutingFacts.

(** C7 as stated fails for the screenshot query: with a peer attached and
    an editor in the foreground, [get_browser_screenshot] sends the
    command and returns the picture. *)
Lemma screenshot_is_not_gated_on_the_foreground :
  ~ (forall peer w,
       is_browser_active w = false ->
       get_browser_screenshot peer w = (Returned JNull, w)).
Proof.
  intros H.
  specialize (H (Scenario.sends
                   (JsonText (Scenario.reply "cmd-1" true
                      (JObj [("screenshot", JStr "iVBORw0KGgo=")]))) (1 # 1))
                Scenario.in_editor eq_refl).
  vm_compute in H. discriminate H.
Qed.


Lemma ineligible_actions_go_straight_to_visual_witness :
  is_browser_active Scenario.in_editor = false /\
  click Scenario.silent Scenario.pyautogui "Save" 1 "left" [] Scenario.in_editor
    = (Returned "pyautogui.click(100, 100)",
       with_visual_calls [VisualClick "Save" 1 "left" []] Scenario.in_editor).
Proof.
  split; [reflexivity|].
  apply (ineligible_actions_go_straight_to_visual Scenario.silent
           Scenario.pyautogui Scenario.in_editor (or_intror eq_refl)).
Defined.

Lemma content_is_gated_witness :
  is_browser_active Scenario.in_editor = false /\
  get_page_content Scenario.silent Scenario.in_editor
    = (Returned JNull, Scenario.in_editor).
Proof.
  split; [reflexivity|].
  apply (content_is_gated_on_foreground_screenshot_on_bridge Scenario.silent
           Scenario.in_editor).
  left. reflexivity.
Defined.

Lemma goto_never_uses_visual_grounding_witness :
  browser_available Scenario.no_peer = false /\
  goto Scenario.silent Scenario.quoted "https://x" Scenario.no_peer
    = (Returned "import webbrowser; webbrowser.open('https://x')",
       Scenario.no_peer).
Proof.
  split; [reflexivity|].
  apply (goto_never_uses_visual_grounding Scenario.silent Scenario.quoted
           "https://x" Scenario.no_peer).
  reflexivity.
Defined.

End HybridFacts.

Module SingletonFacts.

Import Bridge Singleton.



(** Without [websockets] no bridge can be constructed: the call raises
    [ImportError] and the global stays unset. *)
Lemma no_bridge_without_websockets auto_start p :
  websockets p = false -> _bridge p = None ->
  exists e, cls e = ImportError /\ get_browser_bridge auto_start p = (Raised e, p).
Proof.
  intros Hw Hg. unfold get_browser_bridge, bind, gets. cbv beta. rewrite Hg.
  unfold BrowserBridge_new. rewrite Hw. eexists. split; [|reflexivity].
  reflexivity.
Qed.




End SingletonFacts.

Module RaceFacts.

Import Race.

(** Callers that run the two statements one caller at a time get
    distinct IDs. *)
Example callers_in_turn :
  allocated (run_threads [0; 0; 1; 1]%nat (fresh 2)) = ["cmd-1"; "cmd-2"].
Proof. vm_compute. reflexivity. Qed.

(** C9 as stated fails under concurrent callers: when the second caller
    runs line 161 between the first caller's lines 161 and 162, both
    read the counter at 2 and both allocate "cmd-2". *)
Lemma concurrent_callers_can_share_an_id :
  allocated (run_threads [0; 1; 0; 1]%nat (fresh 2)) = ["cmd-2"; "cmd-2"] /\
  ~ (forall schedule, NoDup (allocated (run_threads schedule (fresh 2)))).
Proof.
  assert (allocated (run_threads [0; 1; 0; 1]%nat (fresh 2)) = ["cmd-2"; "cmd-2"])
    as E by (vm_compute; reflexivity).
  split; [exact E|].
  intros H. specialize (H [0; 1; 0; 1]%nat). rewrite E in H.
  apply NoDup_cons in H as [Hnotin _]. apply Hnotin. left.
Qed.

End RaceFacts.


(** ** bridge.py under threads: what holds under every schedule, and what
    only when a thread is not interrupted *)

Module ThreadsFacts.

Import Bridge Threads.

(** Unfold a step of thread [t] at a known statement. *)
Ltac caller_step H := unfold step; rewrite H; cbn [exec].

Lemma run_app s1 s2 st : run (s1 ++ s2) st = run s2 (run s1 st).
Proof. apply foldl_app. Qed.

Lemma run_snoc s o st : run (s ++ [o]) st = step o (run s st).
Proof. by rewrite run_app. Qed.

Lemma reachable_after o st : reachable st -> reachable (step o st).
Proof. intros [s <-]. exists (s ++ [o]). apply run_snoc. Qed.

Lemma reachable_on s st : reachable st -> reachable (run s st).
Proof.
  revert st. induction s as [|o s IH]; intros st Hr; [done|].
  simpl. apply IH. by apply reachable_after.
Qed.

Lemma lookup_at t c st u :
  callers (at_ t c st) !! u =
    if decide (t = u /\ (t < length (callers st))%nat) then Some c
    else callers st !! u.
Proof. unfold at_; simpl. by rewrite list_lookup_insert. Qed.

Lemma lookup_at_eq t c c0 st :
  callers st !! t = Some c0 -> callers (at_ t c st) !! t = Some c.
Proof.
  intros H. rewrite lookup_at. apply lookup_lt_Some in H.
  by rewrite decide_True.
Qed.

Lemma lookup_at_ne t c st u : t <> u -> callers (at_ t c st) !! u = callers st !! u.
Proof. intros H. rewrite lookup_at. rewrite decide_False; [done|tauto]. Qed.

(** A step of a thread leaves the other threads where they are. *)
Lemma exec_others t c st u : t <> u -> callers (exec t c st) !! u = callers st !! u.
Proof.
  intros H. destruct c; cbn [exec]; try done; try (by rewrite lookup_at_ne).
  - destruct (_ || _); by rewrite lookup_at_ne.
  - destruct (create_future _) as [[?|?] ?]; by rewrite lookup_at_ne.
  - destruct (client_send _ _) as [[?|?] ?]; by rewrite lookup_at_ne.
  - destruct (future_at _ _); try done; by rewrite lookup_at_ne.
Qed.

Lemma handler_step_callers st : callers (handler_step st) = callers st.
Proof.
  unfold handler_step. destruct (handler_at st) as [|k data| | |[it|]|]; try done.
  - destruct (_pending_commands _ !! _); [|done]. by destruct (negb _).
  - case_bool_decide; [|done].
    destruct (skip_holes _ _) as [[i k]|]; [|done].
    destruct (len it); [done|]. simpl. by destruct (_ !! _).
Qed.

Lemma on_event_callers ev st : callers (on_event ev st) = callers st.
Proof.
  destruct ev as [ws|message|how]; simpl; [done|..].
  - by destruct (lines_122_131 _ _) as [[[[k data]|]|e] b'].
  - by destruct how.
Qed.

(** Only thread [t] itself moves thread [t], but for the deadline of its
    own wait. *)
Lemma step_others o st t :
  o <> Caller t -> o <> Expires t -> (t < length (callers st))%nat ->
  callers (step o st) !! t = callers st !! t.
Proof.
  intros Hc He Hl. destruct o as [|action params|u|u|ev|]; simpl; try done.
  - by rewrite lookup_app_l.
  - destruct (callers st !! u) as [c|] eqn:Hu; [|done].
    apply exec_others. congruence.
  - destruct (handler_at st); try done.
    destruct (callers st !! u) as [[]|] eqn:Hu; try done.
    destruct (done _); [done|]. rewrite lookup_at_ne; [done|congruence].
  - destruct (handler_at st); try done. by rewrite on_event_callers.
  - by rewrite handler_step_callers.
Qed.

(** *** Futures exist before they are referred to, and results are dicts *)

Lemma future_at_created b g :
  future_at (create_future b).2 g = future_at b g.
Proof.
  unfold future_at, create_future; simpl.
  destruct (decide (g < length (futures b))%nat) as [H|H].
  - by rewrite lookup_app_l.
  - rewrite lookup_app_r by lia. rewrite (lookup_ge_None_2 (futures b)) by lia.
    by destruct (g - length (futures b))%nat as [|[|]].
Qed.

Lemma head_cases message b :
  (exists l, lines_122_131 message b = (Returned None, with_log l b)) \/
  (exists e, lines_122_131 message b = (Raised e, b)) \/
  (exists fields k f,
     message = JsonText (JObj fields) /\
     py_get (JObj fields) "id" JNull = Returned (JStr k) /\
     _pending_commands b !! k = Some f /\
     lines_122_131 message b = (Returned (Some (k, JObj fields)), b)).
Proof.
  assert (exists l, (Returned (@None (string * json)), b)
                    = (Returned None, with_log l b)) as Hsame
    by (exists (log b); by destruct b).
  unfold lines_122_131, try_except, bind.
  destruct message as [text|text []|data]; simpl;
    [left; by eexists|right; left; by eexists..|].
  destruct data as [| | | | |fields]; simpl; try (right; left; by eexists).
  destruct (eq_str _ _); simpl; [left; by eexists|].
  destruct (truthy _) eqn:Ht; simpl; [|by left].
  destruct (default JNull (lookup_field "id" fields)) as [| | |k| |] eqn:Hid;
    simpl; try (by left); try (right; left; by eexists).
  case_decide as Hk; simpl; [|by left].
  destruct Hk as [f Hf]. right. right. exists fields, k, f.
  by rewrite Hid.
Qed.

Lemma except_log r b :
  exists l, (try_except (fun b => (r, b)) _handle_client_except b).2 = with_log l b.
Proof.
  unfold try_except. destruct r as [[]|e]; simpl.
  - exists (log b). by destruct b.
  - unfold _handle_client_except. destruct (cls e); simpl; by eexists.
Qed.

Lemma receive_nil how b : (receive_loop [] how b).2 = b.
Proof. by destruct how. Qed.

Lemma pending_cancel_one f b :
  _pending_commands (cancel_one f b) = _pending_commands b.
Proof. unfold cancel_one. by destruct (negb _). Qed.

Lemma refs_ok_eq st st' :
  self st' = self st -> callers st' = callers st -> handler_at st' = handler_at st ->
  refs_ok st -> refs_ok st'.
Proof. unfold refs_ok. by intros -> -> ->. Qed.

Lemma refs_ok_log l st : refs_ok st -> refs_ok (with_self (with_log l (self st)) st).
Proof. intros (H1 & H2 & H3 & H4). by repeat split. Qed.

Lemma refs_ok_leave r st :
  refs_ok st -> refs_ok (leave r st).
Proof.
  intros (H1 & H2 & H3 & H4). unfold leave.
  destruct (except_log r (self st)) as [l ->]. by repeat split.
Qed.

Lemma future_at_cancel_one f b g :
  future_at (cancel_one f b) g = future_at b g \/
  g = f /\ done (future_at b f) = false /\
  future_at (cancel_one f b) g = Exception disconnected.
Proof.
  unfold cancel_one. destruct (done (future_at b f)) eqn:Hd; simpl; [by left|].
  rewrite BridgeFacts.future_at_resolve. case_bool_decide as Hg; [|by left].
  destruct Hg as [-> _]. by right.
Qed.

Lemma length_cancel_one f b : length (futures (cancel_one f b)) = length (futures b).
Proof.
  unfold cancel_one. destruct (negb _); [|done]. apply BridgeFacts.length_resolve.
Qed.

Lemma refs_ok_step o st : refs_ok st -> refs_ok (step o st).
Proof.
  intros Hok. pose proof Hok as (H1 & H2 & H3 & H4).
  destruct o as [|action params|t|t|ev|]; simpl.
  - unfold start. destruct (_running (self st)); by repeat split.
  - repeat split; try done. simpl. intros t k command f Hl.
    apply lookup_app_Some in Hl as [Hl|[_ Hl]]; [by eapply H2|].
    by destruct (t - length (callers st))%nat as [|[|]].
  - destruct (callers st !! t) as [c|] eqn:Hc; [|done].
    assert (forall c' st',
      self st' = self st -> handler_at st' = handler_at st ->
      (forall k command f, c' <> Line172 k command f) ->
      refs_ok (mkState (self st') (layout st') (<[t := c']> (callers st))
                 (handler_at st'))) as Hmove.
    { intros c' st' Hs Hh Hn. rewrite Hs, Hh. repeat split; simpl; [done| |done..].
      intros u k cmd f Hl. apply list_lookup_insert_Some in Hl as [(_ & E & _)|[_ Hl]].
      - by destruct (Hn k cmd f).
      - by eapply H2. }
    destruct c; cbn [exec]; [..|exact Hok].
    + destruct (_ || _); by apply (Hmove _ st).
    + by apply (Hmove _ st).
    + repeat split; simpl; [done| |done..].
      intros u k cmd f Hl.
      apply list_lookup_insert_Some in Hl as [(_ & ? & _)|[_ Hl]]; [done|by eapply H2].
    + by apply (Hmove _ st).
    + unfold create_future. unfold at_, with_self; simpl.
      repeat split; simpl.
      * intros k f Hk. rewrite length_app; simpl. specialize (H1 k f Hk). lia.
      * intros u k cmd f Hl. rewrite length_app; simpl.
        apply list_lookup_insert_Some in Hl as [(_ & [= _ _ <-] & _)|[_ Hl]]; [lia|].
        specialize (H2 u k cmd f Hl). lia.
      * intros f data Hr. apply (H3 f data).
        rewrite <- (future_at_created (self st) f). exact Hr.
      * done.
    + repeat split; simpl.
      * intros k f Hk. apply lookup_insert_Some in Hk as [[_ <-]|[_ Hk]].
        -- by eapply H2.
        -- by eapply H1.
      * intros u k cmd f Hl.
        apply list_lookup_insert_Some in Hl as [(_ & ? & _)|[_ Hl]]; [done|by eapply H2].
      * done.
      * done.
    + unfold client_send. destruct (client (self st)); simpl.
      * repeat split; simpl; [done| |done..].
        intros u k cmd f Hl.
        apply list_lookup_insert_Some in Hl as [(_ & ? & _)|[_ Hl]]; [done|by eapply H2].
      * repeat split; simpl; [done| |done..].
        intros u k cmd f Hl.
        apply list_lookup_insert_Some in Hl as [(_ & ? & _)|[_ Hl]]; [done|by eapply H2].
    + destruct (future_at (self st) _); [exact Hok|..];
        apply (Hmove _ st); try done; unfold except_clause;
        intros; by destruct (cls _).
    + repeat split; simpl; [|
        intros u k cmd f Hl;
        apply list_lookup_insert_Some in Hl as [(_ & ? & _)|[_ Hl]]; [done|by eapply H2]
        |done..].
      intros k f Hk. apply lookup_delete_Some in Hk as [_ Hk]. by eapply H1.
    + repeat split; simpl; [|
        intros u k cmd f Hl;
        apply list_lookup_insert_Some in Hl as [(_ & ? & _)|[_ Hl]]; [done|by eapply H2]
        |done..].
      intros k f Hk. apply lookup_delete_Some in Hk as [_ Hk]. by eapply H1.
  - destruct (handler_at st) eqn:Hh; try exact Hok.
    destruct (callers st !! t) as [[| | | | | | |k0 future0| | |]|] eqn:Hc;
      try exact Hok.
    destruct (done (future_at (self st) future0)) eqn:Hd; [exact Hok|].
    repeat split; simpl.
    + intros k f Hk. rewrite length_insert. by eapply H1.
    + intros u k cmd f Hl. rewrite length_insert.
      apply list_lookup_insert_Some in Hl as [(_ & ? & _)|[_ Hl]]; [done|by eapply H2].
    + intros f data Hr.
      change (future_at (resolve future0 Cancelled (self st)) f = Result data) in Hr.
      rewrite BridgeFacts.future_at_resolve in Hr.
      case_bool_decide; [done|by eapply H3].
    + by rewrite Hh.
  - destruct (handler_at st) eqn:Hh; try exact Hok.
    destruct ev as [ws|message|how]; simpl.
    + repeat split; simpl; try done. by rewrite Hh.
    + destruct (head_cases message (self st))
        as [[l ->]|[[e ->]|(fields & k & f & -> & _ & _ & ->)]].
      * by apply refs_ok_log.
      * apply refs_ok_leave. by apply (refs_ok_eq st).
      * repeat split; simpl; try done. intros k0 data [= _ <-]. by eexists.
    + destruct how; simpl.
      * apply (refs_ok_leave (Returned tt)). by apply (refs_ok_eq st).
      * apply (refs_ok_leave (Raised _)). by apply (refs_ok_eq st).
  - unfold handler_step.
    destruct (handler_at st) as [|k data| | |[it|]|] eqn:Hh;
      [exact Hok| | | | | |].
    + destruct (_pending_commands (self st) !! k) as [f|] eqn:Hk;
        [|by apply refs_ok_leave].
      destruct (H4 k data eq_refl) as [fields ->].
      destruct (negb _); repeat split; simpl; try done.
      * intros k0 f0 Hk0. rewrite length_insert.
        apply lookup_delete_Some in Hk0 as [_ Hk0]. by eapply H1.
      * intros u k0 cmd f0. rewrite length_insert. apply H2.
      * intros f0 data Hr.
        change (future_at (resolve f (Result (JObj fields))
                  (with_pending (delete k (_pending_commands (self st))) (self st))) f0
                = Result data) in Hr.
        rewrite BridgeFacts.future_at_resolve in Hr. case_bool_decide.
        -- injection Hr as <-. by eexists.
        -- by eapply H3.
      * intros k0 f0 Hk0. apply lookup_delete_Some in Hk0 as [_ Hk0]. by eapply H1.
    + by repeat split.
    + by repeat split.
    + assert (forall h, (forall k data, h <> Line132 k data) ->
                        refs_ok (with_handler h st)) as Hsame.
      { intros h Hn. repeat split; simpl; try done. intros k data E.
        by destruct (Hn k data). }
      case_bool_decide; [|by apply Hsame].
      destruct (skip_holes _ _) as [[i k]|]; [|by apply Hsame].
      destruct (len it); [by apply Hsame|].
      destruct (_pending_commands (self st) !! k) as [f|]; [|by apply Hsame].
      repeat split; simpl; try done.
      * intros k0 f0 Hk0. rewrite length_cancel_one.
        rewrite pending_cancel_one in Hk0. by eapply H1.
      * intros u k0 cmd f0. rewrite length_cancel_one. apply H2.
      * intros f0 data Hr.
        destruct (future_at_cancel_one f (self st) f0) as [E|(_ & _ & E)];
          rewrite E in Hr; [by eapply H3|done].
    + by repeat split.
    + by repeat split.
Qed.

Lemma refs_ok_run s st : refs_ok st -> refs_ok (run s st).
Proof.
  revert st. induction s as [|o s IH]; intros st H; [done|].
  simpl. apply IH. by apply refs_ok_step.
Qed.

Lemma reachable_refs_ok st : reachable st -> refs_ok st.
Proof.
  intros [s <-]. apply refs_ok_run. by repeat split.
Qed.

(** *** What a call can raise and return *)

(** Where thread [t] is after its own step. *)
Ltac after_step Hc H :=
  unfold step in H; rewrite Hc in H; cbn [exec] in H;
  repeat match type of H with
  | context [if ?x then _ else _] => destruct x eqn:?
  | context [match create_future ?b with _ => _ end] =>
      destruct (create_future b) as [[?|?] ?] eqn:?
  | context [match client_send ?c ?b with _ => _ end] =>
      destruct (client_send c b) as [[?|?] ?] eqn:?
  | context [match future_at ?b ?f with _ => _ end] =>
      destruct (future_at b f) eqn:?
  end;
  try (erewrite lookup_at_eq in H by exact Hc).

Lemma except_clause_cases k e :
  except_clause k e = Line189 k \/ except_clause k e = Line192 k e.
Proof. unfold except_clause. destruct (cls e); auto. Qed.

(** A caller in one of its two [except] clauses, or whose future is done,
    ends its call in two steps at most, and ends it by returning. *)
Lemma ends_in_two st t c k f :
  callers st !! t = Some c ->
  c = Line189 k \/ (exists e, c = Line192 k e) \/
  c = Line181 k f /\ done (future_at (self st) f) = true ->
  exists o, callers (step (Caller t) (step (Caller t) st)) !! t
            = Some (Left (Returned o)).
Proof.
  intros Hc H.
  assert (forall s1 o, callers s1 !! t = Some (Left (Returned o)) ->
            exists o', callers (step (Caller t) s1) !! t = Some (Left (Returned o')))
    as Hstay.
  { intros s1 o H1. exists o. unfold step. by rewrite H1. }
  assert (forall s1 c1, callers s1 !! t = Some c1 ->
            c1 = Line189 k \/ (exists e, c1 = Line192 k e) ->
            exists o, callers (step (Caller t) s1) !! t = Some (Left (Returned o)))
    as Hpop.
  { intros s1 c1 H1 [->|[e ->]]; unfold step; rewrite H1; cbn [exec];
      (erewrite lookup_at_eq by exact H1); by eexists. }
  destruct H as [->|[[e ->]|[-> Hd]]].
  - destruct (Hpop st _ Hc) as [o Ho]; [by left|]. by apply (Hstay _ o).
  - destruct (Hpop st _ Hc) as [o Ho]; [right; by eexists|]. by apply (Hstay _ o).
  - unfold step at 2. rewrite Hc. cbn [exec].
    destruct (future_at (self st) f) as [|data|e|] eqn:Hf; [done|..].
    + apply (Hstay _ data). by erewrite lookup_at_eq.
    + eapply Hpop; [by erewrite lookup_at_eq|].
      destruct (except_clause_cases k e) as [->| ->]; [by left|right; by eexists].
    + eapply Hpop; [by erewrite lookup_at_eq|].
      destruct (except_clause_cases k (mkExn CancelledError "")) as [->| ->];
        [by left|right; by eexists].
Qed.

(** C3, amended: a call of [send_command] ends with one outcome, and the
    one thing it can raise is the [AttributeError] of line 176, when the
    handler has cleared [self.client] since the call's check of line
    157. In every schedule, for the step of every caller thread: with no
    connection (or no loop) the check of line 157 returns the
    not-connected failure at once and touches nothing; a call raises only
    at the send, only with no client, and only that exception; a call
    returns only a failure dict or the dict set as result on its future;
    once it waits it always comes to return, by a timeout if by nothing
    else; and a call that has ended does nothing more. *)
Theorem send_command_raises_only_at_the_send st t c :
  reachable st -> callers st !! t = Some c ->
  let st' := step (Caller t) st in
  (forall action params, c = Line157 action params ->
     connected (self st) = false \/ _loop (self st) = None ->
     st' = at_ t (Left (Returned (failure "Extension not connected"))) st) /\
  (forall e, callers st' !! t = Some (Left (Raised e)) ->
     c = Left (Raised e) \/
     exists cmd_id command f,
       c = Line175 cmd_id command f /\ client (self st) = None /\
       e = mkExn AttributeError "'NoneType' object has no attribute 'send'") /\
  (forall o, callers st' !! t = Some (Left (Returned o)) ->
     c = Left (Returned o) \/
     is_failure o \/
     exists cmd_id f fields,
       c = Line181 cmd_id f /\ future_at (self st) f = Result o /\ o = JObj fields) /\
  (forall cmd_id f, c = Line181 cmd_id f -> handler_at st = Serving ->
     exists o, callers (run [Expires t; Caller t; Caller t] st) !! t
               = Some (Left (Returned o))) /\
  (forall r, c = Left r -> st' = st).
Proof.
  intros Hr Hc st'. pose proof (reachable_refs_ok st Hr) as (_ & _ & Hres & _).
  split; [|split; [|split; [|split]]].
  - intros action params -> Hn. unfold st', step. rewrite Hc. cbn [exec].
    destruct Hn as [->| ->]; [done|]. simpl. by rewrite orb_true_r.
  - intros e H. unfold st' in H. destruct c; after_step Hc H; try done;
      try congruence; try (left; congruence);
      try (unfold except_clause in H; by destruct (cls _)).
    right. unfold client_send in *. destruct (client (self st)) eqn:Hcl; [done|].
    do 3 eexists. split; [done|]. split; [done|]. congruence.
  - intros o H. unfold st' in H. destruct c; after_step Hc H; try done;
      try congruence; try (left; congruence);
      try (unfold except_clause in H; by destruct (cls _));
      try (right; left; eexists; injection H as <-; reflexivity).
    right. right. injection H as <-.
    match goal with E : future_at _ _ = Result _ |- _ =>
      destruct (Hres _ _ E) as [fields ->] end.
    by do 3 eexists.
  - intros k f -> Hs. unfold run. cbn [foldl].
    assert (exists c1,
      callers (step (Expires t) st) !! t = Some c1 /\
      (c1 = Line189 k \/
       c1 = Line181 k f /\ done (future_at (self (step (Expires t) st)) f) = true))
      as (c1 & H1 & Hc1).
    { cbn [step]. rewrite Hs, Hc. destruct (done _) eqn:Hd.
      - exists (Line181 k f). auto.
      - eexists. split; [by erewrite lookup_at_eq|by left]. }
    apply (ends_in_two _ t c1 k f H1). tauto.
  - intros r ->. unfold st', step. by rewrite Hc.
Qed.


(** C3 as stated fails under threads: a caller passes the check of line
    157 with the peer connected; the connection closes and the handler
    runs line 111, [self.client = None], before the caller reaches line
    176. [self.client.send] then raises [AttributeError], outside the
    [try] of line 180: the call raises, no frame is sent, and the entry
    registered at line 172 stays in the dict. *)
Lemma a_connection_lost_before_the_send_makes_the_call_raise :
  let st := run Schedules.teardown_before_the_send initial in
  callers st !! 0%nat
    = Some (Left (Raised (mkExn AttributeError
                            "'NoneType' object has no attribute 'send'"))) /\
  sent (self st) = [] /\
  _pending_commands (self st) !! "cmd-1" = Some 0%nat /\
  ~ (forall schedule t e,
       callers (run schedule initial) !! t <> Some (Left (Raised e))).
Proof.
  assert (callers (run Schedules.teardown_before_the_send initial) !! 0%nat
    = Some (Left (Raised (mkExn AttributeError
                            "'NoneType' object has no attribute 'send'")))) as E
    by (vm_compute; reflexivity).
  split; [exact E|]. split; [vm_compute; reflexivity|].
  split; [vm_compute; reflexivity|].
  intros H. exact (H _ _ _ E).
Qed.

(** The theorem at work: a call on a bridge nobody started. *)
Lemma send_command_raises_only_at_the_send_witness :
  let st := run [Calls "click" Schedules.click_params] initial in
  reachable st /\
  step (Caller 0) st
    = at_ 0 (Left (Returned (failure "Extension not connected"))) st.
Proof.
  intros st.
  assert (reachable st) as Hr by (by exists [Calls "click" Schedules.click_params]).
  split; [exact Hr|].
  destruct (send_command_raises_only_at_the_send st 0
              (Line157 "click" Schedules.click_params) Hr eq_refl) as [H _].
  apply (H "click" Schedules.click_params eq_refl). left. reflexivity.
Defined.

(** *** An ID that no caller shares stays out of the dict *)

Lemma start_keeps b :
  _command_id (start b) = _command_id b /\
  _pending_commands (start b) = _pending_commands b.
Proof. unfold start. by destruct (_running b). Qed.

Lemma leave_keeps r st :
  _command_id (self (leave r st)) = _command_id (self st) /\
  _pending_commands (self (leave r st)) = _pending_commands (self st) /\
  futures (self (leave r st)) = futures (self st) /\
  layout (leave r st) = layout st.
Proof. unfold leave. simpl. by destruct (except_log r (self st)) as [l ->]. Qed.

(** An event of the loop, up to the statement the handler stops at,
    touches neither the counter, the dict nor a future. *)
Lemma on_event_keeps ev st :
  _command_id (self (on_event ev st)) = _command_id (self st) /\
  _pending_commands (self (on_event ev st)) = _pending_commands (self st) /\
  futures (self (on_event ev st)) = futures (self st) /\
  layout (on_event ev st) = layout st.
Proof.
  destruct ev as [ws|message|how]; simpl; [done|..].
  - destruct (head_cases message (self st))
      as [[l ->]|[[e ->]|(fields & k & f & -> & _ & _ & ->)]]; [done| |done].
    apply (leave_keeps (Raised e) (with_self (self st) st)).
  - by destruct how.
Qed.



Lemma away_from_counter n counter counter' c :
  counter <= counter' -> away_from n counter c -> away_from n counter' c.
Proof. intros Hle. destruct c; simpl; try done. lia. Qed.










(** *** The table of the dict *)

Lemma elem_of_keys k (rows : list (option string)) :
  k ∈ omap id rows <-> Some k ∈ rows.
Proof.
  rewrite list_elem_of_omap. split.
  - intros (y & Hy & E). simpl in E. by subst.
  - intros H. by exists (Some k).
Qed.

Lemma keys_hole k rows :
  omap id (map (hole k) rows) = filter (fun x => x <> k) (omap id rows).
Proof.
  induction rows as [|[x|] rows IH]; [done| |done].
  cbn [map]. unfold hole at 1. simpl. rewrite filter_cons.
  destruct (decide (Some x = Some k)) as [E|E].
  - injection E as ->. rewrite decide_False by (intros H; by apply H). exact IH.
  - rewrite decide_True by congruence. f_equal. exact IH.
Qed.

Lemma layout_ok_eq st st' :
  layout st' = layout st ->
  _pending_commands (self st') = _pending_commands (self st) ->
  layout_ok st -> layout_ok st'.
Proof. unfold layout_ok. by intros -> ->. Qed.

Lemma layout_ok_setitem k f st : layout_ok st -> layout_ok (setitem k f st).
Proof.
  intros [Hnd Hin]. unfold layout_ok, setitem. simpl.
  destruct (decide (is_Some (_pending_commands (self st) !! k))) as [Hk|Hk].
  - split; [done|]. intros k'. rewrite Hin.
    destruct (decide (k' = k)) as [->|Hne].
    + by rewrite lookup_insert_eq.
    + by rewrite lookup_insert_ne.
  - split.
    + rewrite omap_app. apply NoDup_app. split; [done|]. split.
      * intros x Hx Hx'. apply list_elem_of_singleton in Hx' as ->.
        apply Hk, Hin. by apply elem_of_keys.
      * apply NoDup_singleton.
    + intros k'. rewrite elem_of_app, Hin, list_elem_of_singleton.
      destruct (decide (k' = k)) as [->|Hne].
      * rewrite lookup_insert_eq. split; [by eexists|by right].
      * rewrite lookup_insert_ne by done. split; [|by left].
        intros [|]; [done|congruence].
Qed.

Lemma layout_ok_popitem k st : layout_ok st -> layout_ok (popitem k st).
Proof.
  intros [Hnd Hin]. unfold layout_ok, popitem. simpl. split.
  - rewrite keys_hole. by apply NoDup_filter.
  - intros k'. rewrite <- elem_of_keys, keys_hole, list_elem_of_filter, elem_of_keys, Hin.
    destruct (decide (k' = k)) as [->|Hne].
    + rewrite lookup_delete_eq. split; [by intros [? _]|by intros [? ?]].
    + rewrite lookup_delete_ne by done. tauto.
Qed.

Lemma layout_ok_step o st : layout_ok st -> layout_ok (step o st).
Proof.
  intros Hok. destruct o as [|action params|t|t|ev|]; simpl.
  - apply (layout_ok_eq st); [done|apply start_keeps|done].
  - done.
  - destruct (callers st !! t) as [c|]; [|done].
    destruct c; cbn [exec]; try done.
    + by destruct (_ || _).
    + eapply layout_ok_eq; [reflexivity..|by apply layout_ok_setitem].
    + unfold client_send. by destruct (client (self st)).
    + by destruct (future_at (self st) _).
    + eapply layout_ok_eq; [reflexivity..|by apply layout_ok_popitem].
    + eapply layout_ok_eq; [reflexivity..|by apply layout_ok_popitem].
  - destruct (handler_at st); try done.
    destruct (callers st !! t) as [[| | | | | | |k0 future0| | |]|]; try done.
    by destruct (done _).
  - destruct (handler_at st); try done.
    apply (layout_ok_eq st); [apply on_event_keeps..|done].
  - unfold handler_step.
    destruct (handler_at st) as [|k data| | |[it|]|]; try done.
    + destruct (_pending_commands (self st) !! k) as [f|].
      * destruct (negb _);
          (eapply layout_ok_eq; [reflexivity..|by apply (layout_ok_popitem k)]).
      * apply (layout_ok_eq st); [apply leave_keeps..|done].
    + case_bool_decide; [|done].
      destruct (skip_holes _ _) as [[i k]|]; [|done].
      destruct (len it); [done|].
      destruct (_pending_commands (self st) !! k) as [f|]; [|done].
      apply (layout_ok_eq st); [done| |done]. simpl. apply pending_cancel_one.
    + split; simpl; [apply NoDup_nil_2|].
      intros k. rewrite lookup_empty. split; [by intros ?%elem_of_nil|by intros [? ?]].
Qed.

Lemma reachable_layout_ok st : reachable st -> layout_ok st.
Proof.
  intros [s <-]. unfold run.
  assert (layout_ok initial) as H0.
  { split; simpl; [apply NoDup_nil_2|]. intros k. rewrite lookup_empty.
    split; [by intros ?%elem_of_nil|by intros [? ?]]. }
  revert H0. generalize initial. induction s as [|o s IH]; intros st H; [done|].
  simpl. apply IH. by apply layout_ok_step.
Qed.

(** The table holds as many keys as the dict has entries. *)
Lemma layout_size st :
  layout_ok st -> length (omap id (layout st)) = size (_pending_commands (self st)).
Proof.
  intros [Hnd Hin].
  rewrite <- length_map_to_list, <- (length_fmap fst).
  apply Permutation_length, NoDup_Permutation; [done|apply NoDup_fst_map_to_list|].
  intros k. rewrite elem_of_keys, Hin, list_elem_of_fmap. split.
  - intros [f Hf]. exists (k, f). split; [done|]. by apply elem_of_map_to_list.
  - intros ([k' f] & -> & Hf). apply elem_of_map_to_list in Hf. by eexists.
Qed.

Lemma skip_holes_None rows i : skip_holes rows i = None -> omap id rows = [].
Proof.
  revert i. induction rows as [|[x|] rows IH]; intros i H; simpl in *;
    [done|done|by eapply IH].
Qed.

Lemma skip_holes_Some rows i j k :
  skip_holes rows i = Some (j, k) ->
  (i <= j)%nat /\ omap id rows = k :: omap id (drop (S (j - i)) rows).
Proof.
  revert i. induction rows as [|[x|] rows IH]; intros i H; simpl in H; [done|..].
  - injection H as <- <-. by rewrite Nat.sub_diag.
  - destruct (IH _ H) as [Hle E]. split; [lia|].
    replace (j - i)%nat with (S (j - S i)) by lia. exact E.
Qed.

(** *** The loop of lines 115-117 with nothing in between *)

Lemma cancel_keys_cons k keys b :
  cancel_keys (k :: keys) b =
    cancel_keys keys (match _pending_commands b !! k with
                      | Some f => cancel_one f b
                      | None => b
                      end).
Proof. reflexivity. Qed.

Lemma cancel_one_frame f b : cancel_one f b = with_futures (futures (cancel_one f b)) b.
Proof. unfold cancel_one. destruct (negb _); by destruct b. Qed.

Lemma cancel_keys_frame keys b :
  cancel_keys keys b = with_futures (futures (cancel_keys keys b)) b.
Proof.
  revert b. induction keys as [|k keys IH]; intros b; [by destruct b|].
  rewrite cancel_keys_cons. destruct (_pending_commands b !! k) as [f|]; [|apply IH].
  rewrite (IH (cancel_one f b)) at 1. rewrite (cancel_one_frame f b) at 2.
  by destruct b.
Qed.

Lemma length_cancel_keys keys b :
  length (futures (cancel_keys keys b)) = length (futures b).
Proof.
  revert b. induction keys as [|k keys IH]; intros b; [done|].
  rewrite cancel_keys_cons, IH.
  destruct (_pending_commands b !! k); [apply length_cancel_one|done].
Qed.

(** A future is left as it was, or was not done and now holds the
    disconnection error. *)
Lemma cancel_keys_cases keys b g :
  future_at (cancel_keys keys b) g = future_at b g \/
  done (future_at b g) = false /\
  future_at (cancel_keys keys b) g = Exception disconnected.
Proof.
  revert b. induction keys as [|k keys IH]; intros b; [by left|].
  rewrite cancel_keys_cons.
  destruct (_pending_commands b !! k) as [f|]; [|apply IH].
  destruct (IH (cancel_one f b)) as [E|[Hd E]];
    destruct (future_at_cancel_one f b g) as [E1|(-> & Hd1 & E1)].
  - left. congruence.
  - right. split; [done|congruence].
  - right. split; [congruence|done].
  - rewrite E1 in Hd. done.
Qed.

(** The future of every key the loop comes to is done after it: one
    that was not done holds the error. *)
Lemma cancel_keys_hit keys b k g :
  k ∈ keys -> _pending_commands b !! k = Some g ->
  done (future_at b g) = false -> (g < length (futures b))%nat ->
  future_at (cancel_keys keys b) g = Exception disconnected.
Proof.
  revert b. induction keys as [|k0 keys IH]; intros b Hin Hk Hd Hlt;
    [by apply elem_of_nil in Hin|].
  rewrite cancel_keys_cons.
  assert (forall b1, future_at b1 g = Exception disconnected ->
            future_at (cancel_keys keys b1) g = Exception disconnected) as Hstay.
  { intros b1 E. destruct (cancel_keys_cases keys b1 g) as [->|[Hd1 _]]; [done|].
    by rewrite E in Hd1. }
  apply elem_of_cons in Hin as [<-|Hin].
  - rewrite Hk. apply Hstay. unfold cancel_one. rewrite Hd. simpl.
    by apply BridgeFacts.future_at_resolve_eq.
  - destruct (_pending_commands b !! k0) as [f|] eqn:Hk0; [|by apply IH].
    destruct (future_at_cancel_one f b g) as [E|(_ & _ & E)]; [|by apply Hstay].
    apply IH; [done|by rewrite pending_cancel_one|by rewrite E|].
    by rewrite length_cancel_one.
Qed.

Lemma run_cons o schedule st : run (o :: schedule) st = run schedule (step o st).
Proof. reflexivity. Qed.

(** The loop from place [pos] of the table, the iterator expecting the
    keys that are left and the dict the size it had: one step for each
    key and one to find the table at its end. *)
Lemma loop_of_line_115 keys : forall st pos,
  handler_at st
    = Line115 (Some (mkIterator (size (_pending_commands (self st))) pos
                       (length keys))) ->
  omap id (drop pos (layout st)) = keys ->
  run (replicate (S (length keys)) Handler) st
    = mkState (cancel_keys keys (self st)) (layout st) (callers st) Line118.
Proof.
  induction keys as [|k keys IH]; intros st pos Hh Hk.
  - cbn [length replicate]. rewrite run_cons. cbn [run foldl step].
    unfold handler_step. rewrite Hh. cbn [di_used di_pos len].
    rewrite bool_decide_eq_true_2 by done.
    destruct (skip_holes _ _) as [[i k]|] eqn:E; [|done].
    apply skip_holes_Some in E as [_ E]. by rewrite Hk in E.
  - cbn [length]. rewrite replicate_S, run_cons.
    assert (exists i,
      omap id (drop (S i) (layout st)) = keys /\
      step Handler st =
        with_handler
          (Line115 (Some (mkIterator (size (_pending_commands (self st))) (S i)
                            (length keys))))
          (match _pending_commands (self st) !! k with
           | Some f => with_self (cancel_one f (self st)) st
           | None => st
           end)) as (i & Hk' & ->).
    { cbn [step]. unfold handler_step. rewrite Hh. cbn [di_used di_pos len].
      rewrite bool_decide_eq_true_2 by done.
      destruct (skip_holes _ _) as [[i k']|] eqn:E.
      - apply skip_holes_Some in E as [Hle E]. rewrite Hk in E.
        injection E as <- E. exists i. split; [|done].
        rewrite E, drop_drop. f_equal. f_equal. lia.
      - apply skip_holes_None in E. by rewrite Hk in E. }
    rewrite cancel_keys_cons.
    destruct (_pending_commands (self st) !! k) as [f|].
    + rewrite (IH _ (S i)); [done| |done].
      simpl. by rewrite pending_cancel_one.
    + by rewrite (IH _ (S i)).
Qed.

(** The whole [finally] block with nothing in between: one step each for
    lines 111, 112 and the start of the loop, the loop, line 118. *)
Lemma finally_block st :
  layout_ok st -> handler_at st = Line111 ->
  run (replicate (size (_pending_commands (self st)) + 5) Handler) st
    = mkState
        (with_pending ∅
           (cancel_keys (omap id (layout st))
              (with_connected false (with_client None (self st)))))
        [] (callers st) Serving.
Proof.
  intros Hok Hh. rewrite <- (layout_size st Hok).
  set (keys := omap id (layout st)).
  replace (length keys + 5)%nat with (3 + (S (length keys) + 1))%nat by lia.
  rewrite !replicate_add, !run_app.
  set (st3 := mkState (with_connected false (with_client None (self st)))
                (layout st) (callers st)
                (Line115 (Some (mkIterator (size (_pending_commands (self st))) 0
                                  (length keys))))).
  assert (run (replicate 3 Handler) st = st3) as ->.
  { cbn [replicate]. rewrite !run_cons. cbn [run foldl].
    assert (step Handler st
            = mkState (with_client None (self st)) (layout st) (callers st) Line112)
      as -> by (cbn [step]; unfold handler_step; by rewrite Hh).
    unfold st3, keys. rewrite (layout_size st Hok). reflexivity. }
  rewrite (loop_of_line_115 keys st3 0); [reflexivity| |done].
  unfold st3, keys. simpl. by rewrite (layout_size st Hok).
Qed.

(** C1, amended: when the handler leaves its loop, for whatever reason,
    and runs its [finally] block with no caller thread running in
    between, the handler ends, the connection state is cleared and the
    dict is left empty; no caller is moved; a future that was done stays
    as it was; the future of every entry of the dict is done, holding the
    disconnection error if it was not done before; and a caller that
    waits on the future registered under its ID, not done before, then
    returns the Disconnected failure. *)
Theorem uninterrupted_teardown_fails_every_registered_call st :
  reachable st -> handler_at st = Line111 ->
  let st' := run (replicate (size (_pending_commands (self st)) + 5) Handler) st in
  handler_at st' = Serving /\
  client (self st') = None /\ connected (self st') = false /\
  _pending_commands (self st') = ∅ /\
  callers st' = callers st /\
  (forall g, done (future_at (self st) g) = true ->
             future_at (self st') g = future_at (self st) g) /\
  (forall k f, _pending_commands (self st) !! k = Some f ->
     done (future_at (self st') f) = true /\
     (done (future_at (self st) f) = false ->
      future_at (self st') f = Exception disconnected)) /\
  (forall t k f,
     callers st !! t = Some (Line181 k f) ->
     _pending_commands (self st) !! k = Some f ->
     done (future_at (self st) f) = false ->
     callers (run [Caller t; Caller t] st') !! t
       = Some (Left (Returned (failure "Extension disconnected")))).
Proof.
  intros Hr Hh st'.
  pose proof (reachable_layout_ok st Hr) as Hok.
  pose proof (reachable_refs_ok st Hr) as (Hlt & _).
  unfold st'. rewrite (finally_block st Hok Hh).
  set (keys := omap id (layout st)).
  set (b2 := with_connected false (with_client None (self st))).
  assert (forall k f, _pending_commands (self st) !! k = Some f ->
            done (future_at (self st) f) = false ->
            future_at (cancel_keys keys b2) f = Exception disconnected) as Hhit.
  { intros k f Hk Hd. apply (cancel_keys_hit keys b2 k f); [|done|done|by eapply Hlt].
    apply elem_of_keys, Hok. by eexists. }
  assert (forall g, done (future_at (self st) g) = true ->
            future_at (cancel_keys keys b2) g = future_at (self st) g) as Hdone.
  { intros g Hd. destruct (cancel_keys_cases keys b2 g) as [E|[Hd' _]]; [done|].
    change (future_at b2 g) with (future_at (self st) g) in Hd'. congruence. }
  cbn [handler_at self callers].
  split; [done|]. split; [by rewrite cancel_keys_frame|].
  split; [by rewrite cancel_keys_frame|]. split; [done|]. split; [done|].
  split; [exact Hdone|]. split.
  - intros k f Hk. destruct (done (future_at (self st) f)) eqn:Hd.
    + split; [|done].
      change (done (future_at (cancel_keys keys b2) f) = true).
      by rewrite Hdone.
    + change (done (future_at (cancel_keys keys b2) f) = true /\
              (false = false -> future_at (cancel_keys keys b2) f
                                = Exception disconnected)).
      by rewrite (Hhit k f Hk Hd).
  - intros t k f Ht Hk Hd. pose proof (Hhit k f Hk Hd) as E.
    rewrite !run_cons. cbn [run foldl].
    set (st1 := mkState _ _ _ _).
    assert (callers st1 !! t = Some (Line181 k f)) as Ht1 by exact Ht.
    assert (step (Caller t) st1 = at_ t (Line192 k disconnected) st1) as ->.
    { unfold step. rewrite Ht1. cbn [exec].
      change (future_at (self st1) f) with (future_at (cancel_keys keys b2) f).
      by rewrite E. }
    unfold step. rewrite (lookup_at_eq t _ _ st1 Ht1). cbn [exec].
    apply (lookup_at_eq t _ (Line192 k disconnected)
             (popitem k (at_ t (Line192 k disconnected) st1))).
    exact (lookup_at_eq t _ _ st1 Ht1).
Qed.

(** C1 as stated fails under threads, in two ways. Two callers that
    share "cmd-2" both wait; the second registered over the entry of the
    first, so the loop of line 115 never comes to the first caller's
    future: the handler has ended, the dict is empty, and the first
    caller still waits on a future nobody will resolve. And a caller
    that registers while the loop of line 115 is under way changes the
    size of the dict: the next step of the loop raises [RuntimeError],
    which ends the handler before line 118, with both entries still in
    the dict and the second future not done. *)
Lemma teardown_among_running_callers_leaves_calls_behind :
  let st := run Schedules.shared_id_then_teardown initial in
  let st' := run Schedules.insert_during_teardown initial in
  (handler_at st = Serving /\ connected (self st) = false /\
   _pending_commands (self st) = ∅ /\
   callers st !! 0%nat = Some (Line181 "cmd-2" 0) /\
   future_at (self st) 0 = Pending) /\
  (handler_at st' = Serving /\ connected (self st') = false /\
   _pending_commands (self st') !! "cmd-1" = Some 0%nat /\
   _pending_commands (self st') !! "cmd-2" = Some 1%nat /\
   future_at (self st') 1 = Pending) /\
  ~ (forall schedule t k f,
       let st := run schedule initial in
       handler_at st = Serving -> connected (self st) = false ->
       callers st !! t = Some (Line181 k f) ->
       done (future_at (self st) f) = true) /\
  ~ (forall schedule,
       let st := run schedule initial in
       handler_at st = Serving -> connected (self st) = false ->
       _pending_commands (self st) = ∅).
Proof.
  intros st st'.
  assert (handler_at st = Serving) as H1 by (vm_compute; reflexivity).
  assert (connected (self st) = false) as H2 by (vm_compute; reflexivity).
  assert (callers st !! 0%nat = Some (Line181 "cmd-2" 0)) as H3
    by (vm_compute; reflexivity).
  assert (future_at (self st) 0 = Pending) as H4 by (vm_compute; reflexivity).
  assert (done (future_at (self st) 0) = false) as H4' by (vm_compute; reflexivity).
  assert (handler_at st' = Serving) as H5 by (vm_compute; reflexivity).
  assert (connected (self st') = false) as H6 by (vm_compute; reflexivity).
  assert (_pending_commands (self st') !! "cmd-1" = Some 0%nat) as H7
    by (vm_compute; reflexivity).
  assert (_pending_commands (self st') <> ∅) as H7' by (vm_compute; discriminate).
  split; [|split; [|split]].
  - split; [exact H1|]. split; [exact H2|]. split; [vm_compute; reflexivity|].
    split; [exact H3|exact H4].
  - split; [exact H5|]. split; [exact H6|]. split; [exact H7|].
    split; vm_compute; reflexivity.
  - intros H.
    pose proof (H Schedules.shared_id_then_teardown 0%nat "cmd-2" 0%nat H1 H2 H3) as E.
    pose proof (eq_trans (eq_sym E) H4') as F. discriminate F.
  - intros H. exact (H7' (H Schedules.insert_during_teardown H5 H6)).
Qed.
(** The theorem at work: one caller waits for the answer to "cmd-1" when
    the connection closes with an error. *)
Lemma uninterrupted_teardown_witness :
  let st := run (Schedules.one_waiting ++ [Loop (PeerCloses ClosedError)]) initial in
  let st' := run (replicate (size (_pending_commands (self st)) + 5) Handler) st in
  reachable st /\
  _pending_commands (self st') = ∅ /\
  callers (run [Caller 0; Caller 0] st') !! 0%nat
    = Some (Left (Returned (failure "Extension disconnected"))).
Proof.
  intros st st'.
  assert (reachable st) as Hr by (by eexists).
  split; [exact Hr|].
  destruct (uninterrupted_teardown_fails_every_registered_call st Hr)
    as (_ & _ & _ & Hp & _ & _ & _ & Hw); [vm_compute; reflexivity|].
  split; [exact Hp|].
  apply (Hw 0%nat "cmd-1" 0%nat); vm_compute; reflexivity.
Defined.


(** *** The block definitions are the uninterrupted runs *)

Lemma step_at t c st :
  (t < length (callers st))%nat -> step (Caller t) (at_ t c st) = exec t c (at_ t c st).
Proof.
  intros H. unfold step. rewrite lookup_at. by rewrite decide_True.
Qed.

Lemma run_left n t r st :
  (t < length (callers st))%nat ->
  run (replicate n (Caller t)) (at_ t (Left r) st) = at_ t (Left r) st.
Proof.
  intros H. induction n as [|n IH]; [done|].
  cbn [replicate]. by rewrite run_cons, step_at.
Qed.

(** A caller that runs from line 157 to its send with nothing in between
    does to the bridge what [send_command_begin] does, and ends where
    [send_command_begin] says: returned, raised, or waiting with the ID
    and the future it registered. *)
Lemma to_the_send_is_send_command_begin st t action params :
  callers st !! t = Some (Line157 action params) ->
  let st' := run (to_the_send t) st in
  self st' = (send_command_begin action params (self st)).2 /\
  callers st' !! t = Some
    match (send_command_begin action params (self st)).1 with
    | Returned (inl outcome) => Left (Returned outcome)
    | Returned (inr (cmd_id, future, _)) => Line181 cmd_id future
    | Raised e => Left (Raised e)
    end.
Proof.
  intros Ht st'. pose proof (lookup_lt_Some _ _ _ Ht) as Hlen.
  unfold st', to_the_send. cbn [replicate].
  unfold send_command_begin, bind, gets. cbv beta.
  rewrite run_cons. caller_step Ht.
  destruct (negb (connected (self st)) || negb (bool_decide (is_Some (_loop (self st)))))
    eqn:Hc.
  { rewrite (run_left 6 t _ st Hlen). split; [done|]. simpl. by eapply lookup_at_eq. }
  do 6 (rewrite run_cons, step_at by (simpl; rewrite ?length_insert; exact Hlen);
        cbn [exec]; unfold create_future; cbn [self at_ with_self setitem]).
  unfold client_send. simpl.
  destruct (client (self st)); simpl.
  - split; [done|]. rewrite !list_insert_insert_eq. by apply list_lookup_insert_eq.
  - split; [done|]. rewrite !list_insert_insert_eq. by apply list_lookup_insert_eq.
Qed.

Lemma futures_ext b1 b2 :
  length (futures b1) = length (futures b2) ->
  (forall g, future_at b1 g = future_at b2 g) -> futures b1 = futures b2.
Proof.
  intros Hlen Hfa. apply list_eq. intros g. specialize (Hfa g).
  unfold future_at in Hfa.
  destruct (futures b1 !! g) as [x|] eqn:E1; destruct (futures b2 !! g) as [y|] eqn:E2;
    simpl in Hfa; [by subst| | |done].
  - apply lookup_lt_Some in E1. apply lookup_ge_None in E2. lia.
  - apply lookup_lt_Some in E2. apply lookup_ge_None in E1. lia.
Qed.

Lemma cancel_all_miss l b g :
  g ∉ l.*2 -> future_at (cancel_all l b) g = future_at b g.
Proof.
  induction l as [|[k f] l IH]; intros Hg; [done|]. simpl.
  destruct (future_at_cancel_one f (cancel_all l b) g) as [->|(-> & _)].
  - apply IH. intros H. apply Hg. by right.
  - exfalso. apply Hg. by left.
Qed.

Lemma cancel_keys_miss keys b g :
  (forall k, k ∈ keys -> _pending_commands b !! k <> Some g) ->
  future_at (cancel_keys keys b) g = future_at b g.
Proof.
  revert b. induction keys as [|k0 keys IH]; intros b Hg; [done|].
  rewrite cancel_keys_cons.
  assert (forall k, k ∈ keys -> _pending_commands b !! k <> Some g) as Hg'
    by (intros k Hk; apply Hg; by right).
  destruct (_pending_commands b !! k0) as [f|] eqn:Hk0; [|by apply IH].
  rewrite IH by (by rewrite pending_cancel_one).
  destruct (future_at_cancel_one f b g) as [->|(-> & _)]; [done|].
  exfalso. apply (Hg k0); [by left|done].
Qed.

(** Over the keys of the dict, the loop taken key by key in the order of
    the table does what [cancel_all] does over the items. *)
Lemma cancel_keys_is_cancel_all keys b :
  (forall k, k ∈ keys <-> is_Some (_pending_commands b !! k)) ->
  cancel_keys keys b = cancel_all (map_to_list (_pending_commands b)) b.
Proof.
  intros Hin.
  rewrite cancel_keys_frame, (BridgeFacts.cancel_all_frame (map_to_list _) b).
  f_equal. apply futures_ext.
  { by rewrite length_cancel_keys, BridgeFacts.length_cancel_all. }
  intros g. destruct (done (future_at b g)) eqn:Hd.
  - rewrite BridgeFacts.cancel_all_done by done.
    destruct (cancel_keys_cases keys b g) as [->|[? _]]; congruence.
  - destruct (decide (g < length (futures b))%nat) as [Hlt|Hge].
    + destruct (decide (g ∈ (map_to_list (_pending_commands b)).*2)) as [Hv|Hv].
      * rewrite (BridgeFacts.cancel_all_hit _ b g Hv Hd Hlt).
        apply list_elem_of_fmap in Hv as ([k f] & -> & Hkf).
        apply elem_of_map_to_list in Hkf.
        apply (cancel_keys_hit keys b k); [apply Hin; by eexists|done..].
      * rewrite cancel_all_miss by done. apply cancel_keys_miss.
        intros k _ Hk. apply Hv. apply list_elem_of_fmap. exists (k, g).
        split; [done|]. by apply elem_of_map_to_list.
    + rewrite !BridgeFacts.future_at_out; [done|..].
      * rewrite BridgeFacts.length_cancel_all. lia.
      * rewrite length_cancel_keys. lia.
Qed.

(** The [finally] block run statement by statement with nothing in
    between does to the bridge what [_handle_client_finally] does. *)
Lemma finally_block_is_handle_client_finally st :
  layout_ok st -> handler_at st = Line111 ->
  self (run (replicate (size (_pending_commands (self st)) + 5) Handler) st)
    = (_handle_client_finally (self st)).2.
Proof.
  intros Hok Hh. rewrite (finally_block st Hok Hh), BridgeFacts.finally_eq.
  cbn [self snd]. f_equal.
  apply (cancel_keys_is_cancel_all _ (with_connected false (with_client None (self st)))).
  intros k. rewrite elem_of_keys. apply Hok.
Qed.

(** The end of the connection, from the event to the last statement of
    the handler with nothing in between, is the step [loop_step] takes. *)
Lemma closing_is_loop_step st how :
  layout_ok st -> handler_at st = Serving ->
  self (run (Loop (PeerCloses how)
               :: replicate (size (_pending_commands (self st)) + 5) Handler) st)
    = loop_step (PeerCloses how) (self st).
Proof.
  intros Hok Hs. rewrite run_cons. cbn [step]. rewrite Hs. cbn [on_event].
  rewrite (surjective_pairing (receive_loop [] how (self st))), receive_nil.
  set (r := (receive_loop [] how (self st)).1).
  set (st1 := leave r (with_self (self st) st)).
  destruct (leave_keeps r (with_self (self st) st)) as (_ & Hp & _ & Hl).
  fold st1 in Hp, Hl. cbn [self with_self] in Hp.
  rewrite <- Hp.
  rewrite (finally_block_is_handle_client_finally st1);
    [|by apply (layout_ok_eq st)|done].
  unfold loop_step. rewrite (surjective_pairing (receive_loop [] how (self st))).
  rewrite receive_nil. fold r.
  unfold _handle_client_exit, try_finally, st1, leave. cbn [self with_self with_handler].
  destruct (try_except _ _ _) as [[[]|e] b1]; simpl; reflexivity.
Qed.

(** A message handled with nothing in between, from the event to the
    statement after the [pop] of line 132, is [_handle_message]: when
    that returns, the bridge is the one it leaves and the handler serves
    again; when it raises, the handler leaves its loop with the
    exception. *)
Lemma message_is_handle_message st message :
  handler_at st = Serving ->
  match _handle_message message (self st) with
  | (Returned _, b') =>
      self (run [Loop (PeerSends message); Handler] st) = b' /\
      handler_at (run [Loop (PeerSends message); Handler] st) = Serving
  | (Raised e, b') =>
      step (Loop (PeerSends message)) st = leave (Raised e) (with_self b' st)
  end.
Proof.
  intros Hs. unfold run. cbn [foldl step]. rewrite Hs. cbn [on_event].
  assert (forall st0, handler_at st0 = Serving -> handler_step st0 = st0) as Hserving
    by (intros st0 H0; unfold handler_step; by rewrite H0).
  unfold lines_122_131, _handle_message, try_except, bind.
  destruct message as [text|text []|data]; simpl; try done;
    [by rewrite Hserving..|].
  destruct data as [| | | | |fields]; simpl; try done.
  destruct (eq_str _ _); simpl; [by rewrite Hserving|].
  destruct (truthy _); simpl; [|by rewrite Hserving].
  destruct (default JNull (lookup_field "id" fields)) as [| | |k| |]; simpl;
    try done; try (by rewrite Hserving).
  case_decide as Hk; simpl; [|by rewrite Hserving].
  destruct Hk as [f Hf]. unfold handler_step. simpl. rewrite Hf. simpl.
  by destruct (negb _).
Qed.

(** *** Responses are matched by ID *)

Lemma handle_message_hit b n f fields :
  _pending_commands b !! cmd_key n = Some f ->
  done (future_at b f) = false ->
  lookup_field "id" fields = Some (JStr (cmd_key n)) ->
  lookup_field "type" fields <> Some (JStr "handshake") ->
  _handle_message (JsonText (JObj fields)) b
    = (Returned tt,
       resolve f (Result (JObj fields))
         (with_pending (delete (cmd_key n) (_pending_commands b)) b)).
Proof.
  intros Hk Hd Hid Hty.
  assert (eq_str (default JNull (lookup_field "type" fields)) "handshake" = false)
    as Hnot.
  { destruct (lookup_field "type" fields) as [[| | |ty| |]|]; simpl; try done.
    apply String.eqb_neq. intros ->. by apply Hty. }
  unfold _handle_message, try_except, bind. simpl.
  rewrite Hnot, Hid. simpl. rewrite Hk. simpl. rewrite Hk.
  change (future_at (with_pending (delete (cmd_key n) (_pending_commands b)) b) f)
    with (future_at b f).
  by rewrite Hd.
Qed.

(** X3: responses are matched by ID. With the handler serving and a
    future, not done, registered under an ID, a dict frame that carries
    the ID (and is not typed as a handshake), handled with no caller
    popping the ID in between, gives that future the dict as its result,
    pops the ID alone and leaves every other future as it was; the
    handler serves again, and every caller that waits on the future then
    returns the dict. The same frame typed as a handshake is only
    logged, and the call stays pending. *)
Theorem response_resolves_exactly_its_call st n f fields :
  reachable st -> handler_at st = Serving ->
  _pending_commands (self st) !! cmd_key n = Some f ->
  done (future_at (self st) f) = false ->
  lookup_field "id" fields = Some (JStr (cmd_key n)) ->
  let data := JObj fields in
  let st' := run [Loop (PeerSends (JsonText data)); Handler] st in
  callers st' = callers st /\
  (lookup_field "type" fields <> Some (JStr "handshake") ->
   handler_at st' = Serving /\
   future_at (self st') f = Result data /\
   (forall g, g <> f -> future_at (self st') g = future_at (self st) g) /\
   _pending_commands (self st') = delete (cmd_key n) (_pending_commands (self st)) /\
   forall t k, callers st !! t = Some (Line181 k f) ->
     callers (step (Caller t) st') !! t = Some (Left (Returned data))) /\
  (lookup_field "type" fields = Some (JStr "handshake") ->
   handler_at st' = Serving /\
   self st' = with_log (log (self st) ++ [LogInfo "Extension handshake"]) (self st)).
Proof.
  intros Hr Hs Hk Hd Hid. cbv zeta.
  set (data := JObj fields).
  set (st' := run [Loop (PeerSends (JsonText data)); Handler] st).
  pose proof (reachable_refs_ok st Hr) as (Hlt & _).
  assert (callers st' = callers st) as Hc.
  { unfold st', run. cbn [foldl step]. rewrite handler_step_callers, Hs.
    apply on_event_callers. }
  pose proof (message_is_handle_message st (JsonText data) Hs) as Hm.
  fold st' in Hm.
  split; [exact Hc|]. split.
  - intros Hty. unfold data in Hm.
    rewrite (handle_message_hit _ n f fields Hk Hd Hid Hty) in Hm. fold data in Hm.
    destruct Hm as [Hself Hh].
    set (b0 := with_pending (delete (cmd_key n) (_pending_commands (self st))) (self st))
      in Hself.
    assert (future_at (self st') f = Result data) as Hf.
    { rewrite Hself. apply BridgeFacts.future_at_resolve_eq. by eapply Hlt. }
    split; [exact Hh|]. split; [exact Hf|]. split.
    { intros g Hg. rewrite Hself.
      by rewrite (BridgeFacts.future_at_resolve_ne b0 f (Result data) g Hg). }
    split; [by rewrite Hself|].
    intros t k Ht. unfold step. rewrite Hc, Ht. cbn [exec]. rewrite Hf.
    apply (lookup_at_eq t _ (Line181 k f)). by rewrite Hc.
  - intros Hty.
    assert (_handle_message (JsonText data) (self st)
            = (Returned tt,
               with_log (log (self st) ++ [LogInfo "Extension handshake"]) (self st)))
      as E.
    { unfold _handle_message, try_except, bind. simpl. by rewrite Hty. }
    unfold data in Hm, E. rewrite E in Hm. by destruct Hm.
Qed.

(** The theorem at work: the answer to "cmd-1" arrives while its caller
    waits. *)
Lemma response_resolves_exactly_its_call_witness :
  let st := run Schedules.one_waiting initial in
  let fields := [("id", JStr "cmd-1"); ("success", JBool true)] in
  let st' := run [Loop (PeerSends (JsonText (JObj fields))); Handler] st in
  reachable st /\
  future_at (self st') 0 = Result (JObj fields) /\
  callers (step (Caller 0) st') !! 0%nat = Some (Left (Returned (JObj fields))).
Proof.
  intros st fields st'.
  assert (reachable st) as Hr by (by eexists).
  split; [exact Hr|].
  destruct (response_resolves_exactly_its_call st 1 0 fields Hr)
    as (_ & Hres & _); [vm_compute; reflexivity..|].
  destruct Hres as (_ & Hf & _ & _ & Hw); [intros H; discriminate H|].
  split; [exact Hf|]. apply (Hw 0%nat "cmd-1"). vm_compute. reflexivity.
Defined.

(** With a caller popping the ID in between, the handler does not
    survive: the answer to "cmd-1" passes the test of line 131 just
    before its caller, timed out, runs the [pop] of line 189; the [pop]
    of line 132, which has no default, raises [KeyError], and the
    handler leaves its loop for the [finally] block. *)
Example a_timeout_between_the_test_and_the_pop_ends_the_handler :
  let answer := JsonText (Scenario.reply "cmd-1" true (JObj [])) in
  let st := run (Schedules.answer_meets_timeout answer) initial in
  callers st !! 0%nat = Some (Left (Returned (failure "Command timed out"))) /\
  handler_at st = Line111 /\
  last (log (self st))
    = Some (LogException "Unexpected error in WebSocket handler").
Proof.
  intros answer st.
  split; [vm_compute; reflexivity|]. split; vm_compute; reflexivity.
Qed.

End ThreadsFacts.

Module BridgeMoreFacts.

Import Bridge BridgeMore BridgeFacts.

(** The second half of a call acts on the state the loop reached after
    some of the steps that fall before the deadline. *)
Lemma wait_state k f timeout evs b :
  exists pre, pre `prefix_of` before timeout evs /\
    send_command_wait k f timeout evs b
      = send_command_wait k f timeout [] (loop_run pre b).
Proof.
  destruct (wait_for_run f timeout evs b) as (pre & Hpre & Hw).
  exists pre. split; [done|]. unfold send_command_wait, try_except.
  by rewrite Hw.
Qed.

(** The fields the second half of a call can touch: futures and dict. *)
Lemma wake_frame k f timeout b :
  let b' := (send_command_wait k f timeout [] b).2 in
  sent b' = sent b /\ _command_id b' = _command_id b /\
  length (futures b') = length (futures b) /\
  connected b' = connected b /\ client b' = client b.
Proof.
  intros b'. unfold b'. rewrite wake_state.
  destruct (future_at b f); simpl; rewrite ?length_insert; done.
Qed.

(** What a call adds to the frames sent, the counter and the futures. *)
Lemma send_command_frame peer s action params timeout :
  reachable s ->
  let b := bridge s in
  let b' := (send_command peer action params timeout b).2 in
  if connected b && bool_decide (is_Some (_loop b)) then
    sent b' = sent b ++ [command_frame (cmd_key (_command_id b + 1)) action params] /\
    _command_id b' = _command_id b + 1 /\
    length (futures b') = S (length (futures b))
  else b' = b.
Proof.
  intros Hr b b'. pose proof (reachable_inv _ Hr) as Hi.
  unfold b', send_command, bind. rewrite begin_eq by (by destruct Hi).
  fold b. destruct (connected b); simpl; [|done].
  destruct (bool_decide (is_Some (_loop b))); simpl; [|done].
  set (k := cmd_key (_command_id b + 1)).
  set (command := command_frame k action params).
  match goal with |- context [send_command_wait k _ timeout _ ?x] => set (b1 := x) end.
  destruct (wait_state k (length (futures b)) timeout (peer command) b1)
    as (pre & _ & ->).
  destruct (wake_frame k (length (futures b)) timeout (loop_run pre b1))
    as (Hs & Hc & Hl & _).
  pose proof (evolves_loop_run pre b1) as [Ec Es _ El _ _ _ _].
  rewrite Hs, Hc, Hl, Es, Ec, El.
  unfold b1; simpl. rewrite length_app; simpl. repeat split; try done; lia.
Qed.

Lemma cmd_key_truthy n : truthy (JStr (cmd_key n)) = true.
Proof. reflexivity. Qed.

Lemma step_keeps_done o s f :
  inv s -> done (future_at (bridge s) f) = true ->
  future_at (bridge (sys_step o s)) f = future_at (bridge s) f.
Proof.
  intros Hi Hd. destruct o as [|action params|ev|k0 f0]; simpl.
  - unfold start. by destruct (_running (bridge s)).
  - rewrite begin_eq by (by destruct Hi).
    destruct (negb _ || negb _); simpl; [done|].
    apply (future_at_snoc (bridge s) f).
  - by apply (ev_done _ _ (evolves_loop_step ev (bridge s))).
  - case_bool_decide; [|done]. simpl. rewrite wake_state.
    destruct (future_at (bridge s) f0) eqn:Hf0; try done.
    change (future_at (resolve f0 Cancelled (bridge s)) f = future_at (bridge s) f).
    apply future_at_resolve_ne. intros ->. by rewrite Hf0 in Hd.
Qed.

(** X4: a future is resolved at most once. Once a future is done
    (result, error or cancelled), no step of any caller or of the loop
    changes it: not a second response with the same ID, not a
    disconnection, not a timeout. *)
Theorem done_future_never_changes s ops f :
  reachable s ->
  done (future_at (bridge s) f) = true ->
  future_at (bridge (run ops s)) f = future_at (bridge s) f.
Proof.
  intros Hr Hd. apply reachable_inv in Hr. revert s Hr Hd.
  induction ops as [|o ops IH]; intros s Hi Hd; [done|].
  simpl. rewrite IH.
  - by apply step_keeps_done.
  - by apply inv_step.
  - by rewrite step_keeps_done.
Qed.

Lemma done_future_never_changes_witness :
  let answered :=
    run [LoopRuns (PeerSends (JsonText
           (JObj [("id", JStr "cmd-1"); ("success", JBool true)])))]
      Scenario.one_waiting in
  let later :=
    [LoopRuns (PeerSends (JsonText
       (JObj [("id", JStr "cmd-1"); ("success", JBool false)])));
     LoopRuns (PeerCloses ClosedError); CallerWakes "cmd-1" 0] in
  reachable answered /\
  future_at (bridge (run later answered)) 0 = future_at (bridge answered) 0.
Proof.
  intros answered later.
  assert (reachable answered) as Hr
    by (apply reachable_run; exact reachable_one_waiting).
  split; [exact Hr|].
  apply (done_future_never_changes answered later 0 Hr).
  vm_compute. reflexivity.
Defined.


Lemma refused_when_unconnected peer action params timeout b :
  connected b = false ->
  send_command peer action params timeout b
    = (Returned (failure "Extension not connected"), b).
Proof.
  intros Hc. unfold send_command, send_command_begin, bind, gets. cbv beta.
  by rewrite Hc.
Qed.

(** X5: the bridge keeps one [client] and one [connected] flag for all
    its handlers. A second peer that connects replaces the client and
    cancels nothing: futures and dict stay as they are. When one of two
    connected peers goes away, its handler's cleanup clears the flag and
    the client and empties the dict although the other peer's handler is
    still running: from then on [send_command] refuses every call
    without sending. *)
Theorem handlers_share_one_connection_flag e w1 w2 how :
  w1 ∈ handlers e -> w2 ∈ handlers e -> w1 ≠ w2 ->
  (let e' := net_step (Accepts w2) e in
   client (served e') = Some w2 /\ connected (served e') = true /\
   futures (served e') = futures (served e) /\
   _pending_commands (served e') = _pending_commands (served e)) /\
  (let e' := net_step (Closes w1 how) e in
   w2 ∈ handlers e' /\ (w1 ∉ handlers e') /\
   client (served e') = None /\ connected (served e') = false /\
   _pending_commands (served e') = ∅ /\
   forall peer action params timeout,
     send_command peer action params timeout (served e')
       = (Returned (failure "Extension not connected"), served e')).
Proof.
  intros H1 H2 Hne. split; [done|].
  assert (exists r, net_step (Closes w1 how) e =
            mkEndpoint (_handle_client_exit r (served e)).2
              (filter (fun h => h ≠ w1) (handlers e))) as [r ->].
  { unfold net_step. rewrite bool_decide_eq_true_2 by done.
    destruct how; by eexists. }
  cbv zeta. cbn [served handlers].
  destruct (exit_log r (served e)) as [l Hexit].
  assert (connected (_handle_client_exit r (served e)).2 = false) as Hc
    by apply exit_unwired.
  split; [apply list_elem_of_filter; split; [by intros ->|done]|].
  split; [intros Hin; apply list_elem_of_filter in Hin as [Hn _]; by apply Hn|].
  split; [rewrite Hexit, finally_eq; simpl; by rewrite cancel_all_frame|].
  split; [done|].
  split; [by rewrite Hexit, finally_eq|].
  intros peer action params timeout. by apply refused_when_unconnected.
Qed.

Lemma handlers_share_one_connection_flag_witness :
  let e := net_step (Accepts 2) (net_step (Accepts 1) (mkEndpoint (start init) [])) in
  (1%nat ∈ handlers e /\ 2%nat ∈ handlers e /\ 1%nat ≠ 2%nat) /\
  2%nat ∈ handlers (net_step (Closes 1 ClosedOK) e) /\
  connected (served (net_step (Closes 1 ClosedOK) e)) = false.
Proof.
  intros e.
  assert (1%nat ∈ handlers e) as H1 by (right; left).
  assert (2%nat ∈ handlers e) as H2 by left.
  assert (1%nat ≠ 2%nat) as Hne by (intros H; discriminate H).
  split; [by repeat split|].
  destruct (handlers_share_one_connection_flag e 1 2 ClosedOK H1 H2 Hne)
    as [_ (Hl & _ & _ & Hc & _)].
  split; [exact Hl|exact Hc].
Defined.

(** X6: [ping] by the outcome of its command. With no peer connected
    it answers [False] at once, the bridge untouched. When the command
    returns a failure dict, as it does on a timeout and on a
    disconnection during the wait, [ping] answers [False] and does not
    raise. A truthy answer is the [pong] value under [result] of a dict
    the command returned with a truthy [success]. [ping] raises what the
    command raises, and otherwise only the [AttributeError] of a [get] on
    what is no dict: the outcome itself, or the [result] of a success. *)
Theorem ping_is_false_unless_answered peer b :
  let call := send_command peer "ping" JNull (2 # 1) b in
  let r := ping peer b in
  (connected b = false -> r = (Returned (JBool false), b)) /\
  (forall error, call.1 = Returned (failure error) ->
     r = (Returned (JBool false), call.2)) /\
  (forall v, r.1 = Returned v -> truthy v = true ->
     exists fields payload,
       call.1 = Returned (JObj fields) /\
       truthy (default (JBool false) (lookup_field "success" fields)) = true /\
       py_get (JObj fields) "result" (JObj []) = Returned payload /\
       py_get payload "pong" (JBool false) = Returned v) /\
  (forall e, r.1 = Raised e ->
     call.1 = Raised e \/
     e = mkExn AttributeError "object has no attribute 'get'" /\
     exists o, call.1 = Returned o /\
       ((forall fields, o <> JObj fields) \/
        exists fields payload,
          o = JObj fields /\
          truthy (default (JBool false) (lookup_field "success" fields)) = true /\
          lookup_field "result" fields = Some payload /\
          forall items, payload <> JObj items)).
Proof.
  intros call r. unfold r, ping, bind. fold call.
  split.
  { intros Hc. unfold call. by rewrite refused_when_unconnected. }
  destruct call as [[o|e] b']; simpl.
  - split; [intros error [= ->]; done|]. split.
    + intros v Hv Htr. destruct o as [| | | | |fields]; try done.
      unfold pong in Hv. simpl in Hv.
      destruct (truthy (default (JBool false) (lookup_field "success" fields)))
        eqn:Hsu.
      * exists fields, (default (JObj []) (lookup_field "result" fields)).
        by repeat split.
      * injection Hv as <-. congruence.
    + intros e He. right.
      destruct o as [| | | | |fields];
        try (injection He as <-; split; [done|]; eexists; split; [done|]; by left).
      unfold pong in He. simpl in He.
      destruct (truthy (default (JBool false) (lookup_field "success" fields)))
        eqn:Hsu; [|done].
      destruct (lookup_field "result" fields) as [payload|] eqn:Hl; simpl in He;
        [|done].
      destruct payload; simpl in He; try done; injection He as <-;
        (split; [done|]); (eexists; split; [done|]); right;
        exists fields; eexists; by repeat split.
  - split; [done|]. split; [done|]. intros e0 [= <-]. by left.
Qed.

(** The theorem at work: a peer that never answers. *)
Lemma ping_is_false_unless_answered_witness :
  let b := bridge Scenario.attached in
  (send_command Scenario.silent "ping" JNull (2 # 1) b).1
    = Returned (failure "Command timed out") /\
  (ping Scenario.silent b).1 = Returned (JBool false).
Proof.
  intros b.
  assert ((send_command Scenario.silent "ping" JNull (2 # 1) b).1
          = Returned (failure "Command timed out")) as Hc
    by (vm_compute; reflexivity).
  split; [exact Hc|].
  destruct (ping_is_false_unless_answered Scenario.silent b) as (_ & Hf & _).
  by rewrite (Hf "Command timed out" Hc).
Defined.

(** A disconnection during the wait reads as [False] too. *)
Example ping_during_a_disconnection :
  (ping (fun _ => [(1 # 2, PeerCloses ClosedError)]) (bridge Scenario.attached)).1
    = Returned (JBool false).
Proof. vm_compute. reflexivity. Qed.

(** X7: text that is not JSON never stops the receive loop and never
    touches a call. After any number of frames on which [json.loads]
    raises [JSONDecodeError] the loop has handled them all and ends as
    the connection ends, the bridge differing only by one error record
    per frame in the log. A frame on which [json.loads] raises another
    exception ([RecursionError] on nesting too deep, [ValueError] on too
    long an integer, [UnicodeDecodeError] on bytes that are not UTF-8) is
    not caught by line 137: the loop ends there with that exception, the
    frames after it unread. *)
Theorem receive_loop_skips_text_that_is_not_json texts how b :
  receive_loop (map NotJson texts) how b =
    (match how with
     | ClosedOK => Returned tt
     | ClosedError => Raised (mkExn ConnectionClosed "connection closed")
     end,
     with_log
       (log b ++ replicate (length texts) (LogError "Invalid JSON from extension"))
       b) /\
  forall text why rest,
    receive_loop (map NotJson texts ++ Refused text why :: rest) how b =
      (match json_loads (Refused text why) with
       | Raised e => Raised e
       | Returned _ => Returned tt
       end,
       with_log
         (log b ++ replicate (length texts) (LogError "Invalid JSON from extension"))
         b) /\
    exists e, json_loads (Refused text why) = Raised e /\
              cls e <> JSONDecodeError.
Proof.
  split.
  - revert b. induction texts as [|text texts IH]; intros b.
    + simpl. rewrite app_nil_r.
      assert (with_log (log b) b = b) as -> by (by destruct b).
      by destruct how.
    + change (receive_loop (map NotJson (text :: texts)) how b)
        with (bind (_handle_message (NotJson text))
                (fun _ => receive_loop (map NotJson texts) how) b).
      unfold bind. rewrite not_json_is_logged_and_dropped, IH. simpl.
      by rewrite <- app_assoc.
  - intros text why rest. split; [|destruct why; by eexists].
    revert b. induction texts as [|text0 texts IH]; intros b.
    + simpl. rewrite app_nil_r.
      assert (with_log (log b) b = b) as -> by (by destruct b).
      unfold bind, _handle_message, try_except. by destruct why.
    + change (receive_loop (map NotJson (text0 :: texts) ++ Refused text why :: rest)
                how b)
        with (bind (_handle_message (NotJson text0))
                (fun _ => receive_loop (map NotJson texts ++ Refused text why :: rest)
                            how) b).
      unfold bind. rewrite not_json_is_logged_and_dropped, IH. simpl.
      by rewrite <- app_assoc.
Qed.

(** Setting a key of a dict and reading a key back. *)
Lemma lookup_set_field k v l key :
  lookup_field key (set_field k v l)
    = if String.eqb k key then Some v else lookup_field key l.
Proof.
  induction l as [|[k' v'] l IH]; simpl; [done|].
  destruct (String.eqb k' k) eqn:E; simpl.
  - apply String.eqb_eq in E as ->. by destruct (String.eqb k key).
  - rewrite IH. destruct (String.eqb k' key) eqn:E'; [|done].
    apply String.eqb_eq in E' as ->. by rewrite String.eqb_sym, E.
Qed.

Lemma lookup_add_if c k v l key :
  lookup_field key (add_if c k v l)
    = if c && String.eqb k key then Some v else lookup_field key l.
Proof. unfold add_if. destruct c; [apply lookup_set_field|done]. Qed.

(** X8: the bridge's [click] sends, as [params], exactly the arguments
    it was given: [selector] and [text] when they are non-empty strings,
    [coordinates] as a list when the tuple is not empty, and nothing
    else; an empty string or tuple counts as not given, and with no
    argument at all the frame carries the empty dict. *)
Theorem click_sends_only_the_given_arguments peer s selector text coordinates :
  reachable s ->
  connected (bridge s) = true -> is_Some (_loop (bridge s)) ->
  exists params,
    sent (click peer selector text coordinates (bridge s)).2
      = sent (bridge s)
        ++ [JObj [("id", JStr (cmd_key (_command_id (bridge s) + 1)));
                  ("action", JStr "click"); ("params", JObj params)]] /\
    lookup_field "selector" params
      = (if given selector then Some (jstr selector) else None) /\
    lookup_field "text" params
      = (if given text then Some (jstr text) else None) /\
    lookup_field "coordinates" params
      = match coordinates with
        | Some (x :: xs) => Some (JArr (map JNum (x :: xs)))
        | _ => None
        end /\
    forall key value, lookup_field key params = Some value ->
      key = "selector" \/ key = "text" \/ key = "coordinates".
Proof.
  intros Hr Hc Hl. unfold click.
  pose proof (send_command_frame peer s "click") as Hframe.
  match goal with |- context [send_command peer "click" (JObj ?l)] =>
    set (params := l) end.
  specialize (Hframe (JObj params) default_timeout Hr). cbv zeta in Hframe.
  rewrite Hc, (bool_decide_eq_true_2 _ Hl) in Hframe. simpl in Hframe.
  destruct Hframe as (Hsent & _).
  exists params. split.
  { rewrite Hsent. unfold command_frame. do 5 f_equal.
    by destruct params. }
  assert (forall key, lookup_field key params =
            match coordinates with
            | Some (x :: xs) =>
                if String.eqb "coordinates" key
                then Some (JArr (map JNum (x :: xs)))
                else if given text && String.eqb "text" key then Some (jstr text)
                else if given selector && String.eqb "selector" key
                     then Some (jstr selector) else None
            | _ =>
                if given text && String.eqb "text" key then Some (jstr text)
                else if given selector && String.eqb "selector" key
                     then Some (jstr selector) else None
            end) as Hlook.
  { intros key. unfold params.
    destruct coordinates as [[|x xs]|];
      rewrite ?lookup_set_field, !lookup_add_if; reflexivity. }
  repeat split.
  - rewrite Hlook. destruct coordinates as [[|x xs]|], (given text), (given selector);
      reflexivity.
  - rewrite Hlook. destruct coordinates as [[|x xs]|], (given text), (given selector);
      reflexivity.
  - rewrite Hlook. destruct coordinates as [[|x xs]|], (given text), (given selector);
      reflexivity.
  - intros key value. rewrite Hlook.
    destruct (String.eqb "coordinates" key) eqn:E1;
      [apply String.eqb_eq in E1; auto|].
    destruct (String.eqb "text" key) eqn:E2;
      [apply String.eqb_eq in E2; auto|].
    destruct (String.eqb "selector" key) eqn:E3;
      [apply String.eqb_eq in E3; auto|].
    rewrite !andb_false_r. by destruct coordinates as [[|x xs]|].
Qed.

Lemma click_sends_only_the_given_arguments_witness :
  reachable Scenario.attached /\
  connected (bridge Scenario.attached) = true /\
  exists params,
    lookup_field "selector" params = None /\
    lookup_field "text" params = Some (JStr "Submit") /\
    lookup_field "coordinates" params = None /\
    sent (click Scenario.silent (Some "") (Some "Submit") (Some [])
            (bridge Scenario.attached)).2
      = sent (bridge Scenario.attached)
        ++ [JObj [("id", JStr (cmd_key (_command_id (bridge Scenario.attached) + 1)));
                  ("action", JStr "click"); ("params", JObj params)]].
Proof.
  assert (connected (bridge Scenario.attached) = true) as Hc
    by (vm_compute; reflexivity).
  assert (is_Some (_loop (bridge Scenario.attached))) as Hl
    by (vm_compute; by eexists).
  split; [exact reachable_attached|]. split; [exact Hc|].
  destruct (click_sends_only_the_given_arguments Scenario.silent Scenario.attached
              (Some "") (Some "Submit") (Some []) reachable_attached Hc Hl)
    as (params & Hs & H1 & H2 & H3 & _).
  exists params. split; [exact H1|]. split; [exact H2|]. split; [exact H3|exact Hs].
Defined.

End BridgeMoreFacts.

Module DetectorFacts.

Import Bridge Hybrid HybridMore WindowDetector.

Lemma lower_app a b : lower (a +:+ b) = lower a +:+ lower b.
Proof. induction a as [|c a IH]; simpl; [done|]. by rewrite IH. Qed.

Lemma prefix_app needle post : String.prefix needle (needle +:+ post) = true.
Proof.
  induction needle as [|c needle IH]; simpl; [by destruct post|].
  destruct (Ascii.ascii_dec c c) as [_|Hc]; [exact IH|by destruct Hc].
Qed.

Lemma contains_app needle pre post :
  contains needle (pre +:+ needle +:+ post) = true.
Proof.
  induction pre as [|c pre IH].
  - pose proof (prefix_app needle post) as H. simpl.
    destruct (needle +:+ post); simpl in *; by rewrite H.
  - simpl. rewrite IH. apply orb_true_r.
Qed.

Lemma among_elem_of x l : among x l = true <-> x ∈ l.
Proof.
  unfold among. rewrite existsb_exists. split.
  - intros (y & Hy & E). apply String.eqb_eq in E. subst.
    by apply list_elem_of_In.
  - intros H. exists x. split; [by apply list_elem_of_In|apply String.eqb_refl].
Qed.

(** The platform branch taken: anything that is not Windows or macOS is
    probed as Linux. *)
Lemma dispatch_linux h :
  lower (system h) <> "windows" -> lower (system h) <> "darwin" ->
  get_active_window_info h =
    match _get_active_window_linux (on_linux h) with
    | Returned info => Returned info
    | Raised e =>
        Returned (JObj [("title", JStr ""); ("process", JStr "");
                        ("is_browser", JBool false); ("error", JStr (str e))])
    end.
Proof.
  intros Hw Hd. unfold get_active_window_info.
  apply String.eqb_neq in Hw, Hd. by rewrite Hw, Hd.
Qed.

(** What every answer of the detector looks like. *)
Lemma window_info_shape h :
  exists title process is_browser rest,
    get_active_window_info h =
      Returned (JObj (("title", JStr title) :: ("process", JStr process) ::
                      ("is_browser", JBool is_browser) :: rest)).
Proof.
  unfold get_active_window_info.
  destruct (String.eqb (lower (system h)) "windows").
  - unfold _get_active_window_windows.
    destruct (negb _); [by do 4 eexists|].
    destruct (foreground_window _) as [[title pid]|e]; by do 4 eexists.
  - destruct (String.eqb (lower (system h)) "darwin").
    + unfold _get_active_window_macos.
      destruct (negb _); [by do 4 eexists|].
      destruct (frontmost_name _) as [app_name|e]; by do 4 eexists.
    + unfold _get_active_window_linux.
      destruct (xdotool_title _) as [title|e]; [|by do 4 eexists].
      destruct (xdotool_pid _) as [pid|e]; by do 4 eexists.
Qed.

(** X9: the detector never raises. Whatever the platform and whatever
    its probes do, [get_active_window_info] returns a dict that starts
    with a title, a process name and a Boolean [is_browser], and
    [is_browser_active] returns that Boolean. [get_current_context]
    asks the detector twice, on the desktop [h] for its [active_window]
    entry and on the desktop [h'] for [should_use_browser]: it returns
    its four entries, [active_window] being the dict of the first probe
    and [should_use_browser] set only with [browser_available] and the
    [is_browser] of the second. *)
Theorem detection_never_raises h h' w :
  exists title process is_browser rest is_browser',
    let info := JObj (("title", JStr title) :: ("process", JStr process) ::
                      ("is_browser", JBool is_browser) :: rest) in
    get_active_window_info h = Returned info /\
    WindowDetector.is_browser_active h = Returned (JBool is_browser) /\
    WindowDetector.is_browser_active h' = Returned (JBool is_browser') /\
    get_current_context h h' w =
      Returned (JObj [("browser_available", JBool (browser_available w));
                      ("should_use_browser",
                       JBool (browser_available w && is_browser'));
                      ("active_window", info);
                      ("bridge_connected", JBool (peer_connected w))]).
Proof.
  destruct (window_info_shape h) as (title & process & is_browser & rest & H).
  destruct (window_info_shape h') as (title' & process' & is_browser' & rest' & H').
  exists title, process, is_browser, rest, is_browser'. cbv zeta.
  assert (WindowDetector.is_browser_active h = Returned (JBool is_browser)) as Ha.
  { unfold WindowDetector.is_browser_active. by rewrite H. }
  assert (WindowDetector.is_browser_active h' = Returned (JBool is_browser')) as Ha'.
  { unfold WindowDetector.is_browser_active. by rewrite H'. }
  repeat split; [done..|].
  unfold get_current_context, on_host. rewrite H, Ha'.
  unfold _should_use_browser. simpl.
  change (browser_available (with_active is_browser' w)) with (browser_available w).
  by destruct (browser_available w).
Qed.

(** The two probes can disagree: the foreground changes from an editor
    to a browser between lines 264 and 268, and the context reports a
    window that is no browser together with [should_use_browser]. *)
Example context_of_a_changing_foreground :
  get_current_context
    (Peers.linux_desktop "notes.txt - Editor" "41" "gedit")
    (Peers.linux_desktop "Inbox - Mozilla Firefox" "42" "firefox")
    Scenario.in_editor
  = Returned (JObj [("browser_available", JBool true);
                    ("should_use_browser", JBool true);
                    ("active_window",
                     JObj [("title", JStr "notes.txt - Editor");
                           ("process", JStr "gedit");
                           ("is_browser", JBool false)]);
                    ("bridge_connected", JBool true)]).
Proof. vm_compute. reflexivity. Qed.

(** X10: a probe that fails reads as "no browser". With the platform's
    modules missing, the foreground window or application not
    obtainable, [xdotool] failing, or on Windows the process lookup
    failing, [is_browser_active] returns [False] and the router does not
    take the browser route, peer connected or not. *)
Theorem failed_probe_reads_as_no_browser h :
  lower (system h) = "windows" /\
    (win32_imports (on_windows h) = false \/
     (exists e, foreground_window (on_windows h) = Raised e) \/
     (exists e, process_name_of_pid (on_windows h) = Raised e)) \/
  lower (system h) = "darwin" /\
    (appkit_imports (on_macos h) = false \/
     (exists e, frontmost_name (on_macos h) = Raised e)) \/
  (lower (system h) <> "windows" /\ lower (system h) <> "darwin") /\
    ((exists e, xdotool_title (on_linux h) = Raised e) \/
     (exists e, xdotool_pid (on_linux h) = Raised e)) ->
  WindowDetector.is_browser_active h = Returned (JBool false) /\
  forall w, _should_use_browser (on_host h w) = false.
Proof.
  intros H.
  assert (WindowDetector.is_browser_active h = Returned (JBool false)) as Ha.
  { unfold WindowDetector.is_browser_active.
    destruct H as [[Hs H]|[[Hs H]|[[Hw Hd] H]]].
    - unfold get_active_window_info. rewrite Hs. simpl.
      unfold _get_active_window_windows.
      destruct H as [->|[[e He]|[e He]]]; [done|..].
      + destruct (negb _); [done|]. by rewrite He.
      + destruct (negb _); [done|].
        destruct (foreground_window _) as [[title pid]|e']; [|done].
        by rewrite He.
    - unfold get_active_window_info. rewrite Hs. simpl.
      unfold _get_active_window_macos.
      destruct H as [->|[e He]]; [done|].
      destruct (negb _); [done|]. by rewrite He.
    - rewrite (dispatch_linux h Hw Hd). unfold _get_active_window_linux.
      destruct H as [[e He]|[e He]].
      + by rewrite He.
      + destruct (xdotool_title _); [|done]. by rewrite He. }
  split; [done|]. intros w. unfold on_host. rewrite Ha.
  unfold _should_use_browser. simpl. by destruct (negb _).
Qed.

(** X11: on Linux a keyword anywhere in the window title is enough. On
    every platform that is not Windows or macOS, when the lower-cased
    title of the foreground window contains one of the Linux keywords
    ("edge" in "Knowledge base", say), the window counts as a browser
    whatever its process is, found or not, and the router takes the
    browser route whenever the bridge is available. *)
Theorem linux_title_keyword_counts_as_browser h title pid keyword pre post :
  lower (system h) <> "windows" -> lower (system h) <> "darwin" ->
  xdotool_title (on_linux h) = Returned title ->
  xdotool_pid (on_linux h) = Returned pid ->
  keyword ∈ BROWSER_PROCESSES "linux" ->
  lower title = pre +:+ keyword +:+ post ->
  WindowDetector.is_browser_active h = Returned (JBool true) /\
  forall w, _should_use_browser (on_host h w) = browser_available w.
Proof.
  intros Hw Hd Ht Hp Hk Hl.
  assert (WindowDetector.is_browser_active h = Returned (JBool true)) as Ha.
  { unfold WindowDetector.is_browser_active. rewrite (dispatch_linux h Hw Hd).
    unfold _get_active_window_linux. rewrite Ht, Hp. cbv zeta.
    match goal with |- context [JBool ?x] => assert (x = true) as -> end; [|done].
    apply existsb_exists. exists keyword. split; [by apply list_elem_of_In|].
    rewrite Hl, contains_app. apply orb_true_r. }
  split; [done|]. intros w. unfold on_host. rewrite Ha.
  unfold _should_use_browser. simpl.
  change (browser_available (with_active true w)) with (browser_available w).
  by destruct (browser_available w).
Qed.

(** X12: on Windows only the process name counts, whatever its case.
    With the modules installed and the foreground window obtained, the
    window counts as a browser exactly when the lower-cased name of its
    process is in the Windows table; the title plays no part. *)
Theorem windows_matches_the_process_name_only h title pid name :
  lower (system h) = "windows" ->
  win32_imports (on_windows h) = true ->
  foreground_window (on_windows h) = Returned (title, pid) ->
  process_name_of_pid (on_windows h) = Returned name ->
  exists is_browser,
    WindowDetector.is_browser_active h = Returned (JBool is_browser) /\
    (is_browser = true <-> lower name ∈ BROWSER_PROCESSES "windows").
Proof.
  intros Hs Hi Hf Hn. eexists.
  unfold WindowDetector.is_browser_active, get_active_window_info.
  rewrite Hs. simpl String.eqb. cbv iota.
  unfold _get_active_window_windows. rewrite Hi, Hf, Hn. simpl negb. cbv iota zeta.
  split; [reflexivity|].
  change (map lower (BROWSER_PROCESSES "windows"))
    with (BROWSER_PROCESSES "windows").
  apply among_elem_of.
Qed.

Lemma failed_probe_reads_as_no_browser_witness :
  let h := mkHost "Darwin"
             (mkWindows false (Returned ("", 0)) (Returned ""))
             (mkMacos false (Returned "Safari"))
             (mkLinux (Returned "") (Returned "") (Returned "")) in
  appkit_imports (on_macos h) = false /\
  WindowDetector.is_browser_active h = Returned (JBool false) /\
  _should_use_browser (on_host h Scenario.in_browser) = false.
Proof.
  intros h. split; [reflexivity|].
  destruct (failed_probe_reads_as_no_browser h) as [Ha Hu].
  - right. left. split; [reflexivity|]. left. reflexivity.
  - split; [exact Ha|exact (Hu Scenario.in_browser)].
Defined.

Lemma linux_title_keyword_counts_as_browser_witness :
  let h := Peers.linux_desktop "Knowledge Base - Notes" "4242" "gedit" in
  lower "Knowledge Base - Notes" = "knowl" +:+ "edge" +:+ " base - notes" /\
  WindowDetector.is_browser_active h = Returned (JBool true) /\
  _should_use_browser (on_host h Scenario.in_browser)
    = browser_available Scenario.in_browser.
Proof.
  intros h. split; [reflexivity|].
  destruct (linux_title_keyword_counts_as_browser h "Knowledge Base - Notes" "4242"
              "edge" "knowl" " base - notes") as [Ha Hu].
  - simpl. discriminate.
  - simpl. discriminate.
  - reflexivity.
  - reflexivity.
  - simpl. do 6 apply list_elem_of_further. apply list_elem_of_here.
  - reflexivity.
  - split; [exact Ha|exact (Hu Scenario.in_browser)].
Defined.

Lemma windows_matches_the_process_name_only_witness :
  lower "CHROME.EXE" = "chrome.exe" /\
  exists is_browser,
    WindowDetector.is_browser_active
      (Peers.windows_desktop "Inbox - Outlook" 812 (Returned "CHROME.EXE"))
      = Returned (JBool is_browser) /\
    (is_browser = true <-> lower "CHROME.EXE" ∈ BROWSER_PROCESSES "windows").
Proof.
  split; [reflexivity|].
  apply (windows_matches_the_process_name_only
           (Peers.windows_desktop "Inbox - Outlook" 812 (Returned "CHROME.EXE"))
           "Inbox - Outlook" 812 "CHROME.EXE"); reflexivity.
Defined.

End DetectorFacts.

Module HybridMoreFacts.

Import Bridge Hybrid HybridMore.

Section MoreRouting.

Variable peer : json -> list (Q * loop_event).
Variable visual : visual_call -> string.
Variable repr : string -> string.

(** A command sent through the router's bridge, the bridge being in a
    reachable state: it returns a dict, leaves the bridge in a reachable
    state, and has sent nothing or its one frame. *)
Lemma bridge_call w b W action params timeout :
  bridge w = Some b -> reachable (mkSystem b W) ->
  exists fields b',
    on_bridge (send_command peer action params timeout) w
      = (Returned (JObj fields), with_bridge (Some b') w) /\
    b' = (send_command peer action params timeout b).2 /\
    reachable (mkSystem b' W) /\
    (sent b' = sent b \/
     sent b' = sent b ++ [command_frame (cmd_key (_command_id b + 1)) action params]).
Proof.
  intros Hb Hr.
  destruct (BridgeFacts.send_command_outcome peer _ action params timeout Hr)
    as (o & b' & Hs & _ & Ho).
  pose proof (BridgeFacts.send_command_reachable peer _ action params timeout Hr) as Hr'.
  pose proof (BridgeMoreFacts.send_command_frame peer _ action params timeout Hr) as Hf.
  simpl in Hs, Hr', Hf. rewrite Hs in Hr', Hf. simpl in Hr', Hf.
  assert (exists fields, o = JObj fields) as [fields ->].
  { destruct Ho as [[error ->]|(t & fs & _ & _ & -> & _)]; by eexists. }
  exists fields, b'. unfold on_bridge. rewrite Hb, Hs. simpl.
  repeat split; [done|].
  destruct (connected b && bool_decide (is_Some (_loop b))).
  - right. by destruct Hf.
  - left. by rewrite Hf.
Qed.

Lemma with_bridge_visual_calls b w :
  visual_calls (with_bridge b w) = visual_calls w.
Proof. done. Qed.

(** A bridge command run through the router: its outcome is the
    command's, and the router holds the bridge the command leaves. *)
Lemma on_bridge_outcome {A} (m : M BrowserBridge A) w b :
  bridge w = Some b -> on_bridge m w = ((m b).1, with_bridge (Some (m b).2) w).
Proof. intros Hb. unfold on_bridge. rewrite Hb. by destruct (m b). Qed.

(** X13: [scroll] by the outcome of its bridge command. Away from the
    browser it calls the visual executor once, with the arguments it was
    given. Otherwise it sends one command: scroll in the direction given
    by a hundred times the amount, with no selector. When that returns a
    dict, [scroll] returns the settle delay without calling the visual
    executor if [success] is truthy, and what the visual executor
    returns, called once, if not; when the command raises, [scroll]
    raises the same exception and the visual executor is not called. *)
Theorem scroll_settles_or_falls_back_once w b element_description direction amount :
  bridge w = Some b ->
  let r := scroll peer visual element_description direction amount w in
  let call := VisualScroll element_description direction amount in
  let command :=
    send_command peer "scroll"
      (JObj [("direction", JStr direction); ("amount", JNum (amount * 100))])
      default_timeout b in
  (_should_use_browser w = false ->
   r = (Returned (visual call), with_visual_calls (visual_calls w ++ [call]) w)) /\
  (_should_use_browser w = true ->
   bridge r.2 = Some command.2 /\
   (forall fields, command.1 = Returned (JObj fields) ->
      if truthy (default JNull (lookup_field "success" fields))
      then r.1 = Returned "import time; time.sleep(0.2)  # DOM scroll completed" /\
           visual_calls r.2 = visual_calls w
      else r.1 = Returned (visual call) /\
           visual_calls r.2 = visual_calls w ++ [call]) /\
   (forall e, command.1 = Raised e ->
      r.1 = Raised e /\ visual_calls r.2 = visual_calls w)).
Proof.
  intros Hb r call command. unfold r, scroll. HybridFacts.enter_method.
  destruct (_should_use_browser w) eqn:Hu; (split; [done|]); [|done].
  intros _. unfold Bridge.scroll, add_if, given. cbv zeta.
  rewrite (on_bridge_outcome _ w b Hb). fold command.
  destruct command as [[o|e] b']; unfold eval; simpl.
  - destruct o as [| | | | |fields]; simpl; try (split; [done|]; by split).
    destruct (truthy (default JNull (lookup_field "success" fields))) eqn:Ht;
      (split; [done|]); (split; [|done]); intros fs [= <-]; by rewrite Ht.
  - split; [done|]. split; [done|]. by intros e0 [= <-].
Qed.

(** What [_try_browser_type] does to the router: the bridge stays in a
    reachable state, the visual executor is not called, and every frame
    sent looks for the described element by its text or types the text
    with no selector. *)
Lemma try_type_frames w b W text element_description clear :
  bridge w = Some b -> reachable (mkSystem b W) ->
  let r := _try_browser_type peer text element_description clear w in
  visual_calls r.2 = visual_calls w /\
  exists b' l,
    bridge r.2 = Some b' /\ reachable (mkSystem b' W) /\
    sent b' = sent b ++ l /\
    Forall (fun c => exists k,
      c = command_frame k "find_element"
            (JObj [("text", JStr (default "" element_description))]) \/
      c = command_frame k "type"
            (JObj [("text", JStr text); ("clear", JBool clear)])) l.
Proof.
  intros Hb Hr r. unfold r, _try_browser_type. HybridFacts.enter_method.
  destruct (browser_available w); cbn [negb];
    [|split; [done|]; exists b, []; by rewrite app_nil_r].
  assert (forall w1 b1 l1,
    bridge w1 = Some b1 -> reachable (mkSystem b1 W) ->
    visual_calls w1 = visual_calls w ->
    sent b1 = sent b ++ l1 ->
    Forall (fun c => exists k,
      c = command_frame k "find_element"
            (JObj [("text", JStr (default "" element_description))]) \/
      c = command_frame k "type"
            (JObj [("text", JStr text); ("clear", JBool clear)])) l1 ->
    let r1 := (let* result := on_bridge (type_text peer text None clear) in
               let* typed := eval (success_and result "typed") in
               if truthy typed
               then ret (Some "import time; time.sleep(0.2)  # DOM type completed")
               else ret None) w1 in
    visual_calls r1.2 = visual_calls w /\
    exists b' l,
      bridge r1.2 = Some b' /\ reachable (mkSystem b' W) /\
      sent b' = sent b ++ l /\
      Forall (fun c => exists k,
        c = command_frame k "find_element"
              (JObj [("text", JStr (default "" element_description))]) \/
        c = command_frame k "type"
              (JObj [("text", JStr text); ("clear", JBool clear)])) l) as Htype.
  { intros w1 b1 l1 Hb1 Hr1 Hv1 Hs1 Hl1. unfold bind.
    destruct (bridge_call w1 b1 W "type"
                (JObj [("text", JStr text); ("clear", JBool clear)])
                default_timeout Hb1 Hr1) as (fields & b2 & Hc & _ & Hr2 & Hs2).
    unfold type_text, add_if, given. cbv zeta. rewrite Hc. unfold eval.
    assert (exists l,
      sent b2 = sent b ++ l /\
      Forall (fun c => exists k,
        c = command_frame k "find_element"
              (JObj [("text", JStr (default "" element_description))]) \/
        c = command_frame k "type"
              (JObj [("text", JStr text); ("clear", JBool clear)])) l)
      as (l2 & Hsent & Hl2).
    { destruct Hs2 as [->| ->]; rewrite Hs1; [by exists l1|].
      eexists. rewrite <- app_assoc. split; [done|].
      apply Forall_app. split; [done|]. apply Forall_singleton.
      eexists. by right. }
    destruct (success_and (JObj fields) "typed") as [typed|e]; simpl;
      [destruct (truthy typed); simpl|];
      (split; [done|]; by exists b2, l2). }
  destruct (given element_description) eqn:Hg.
  - destruct element_description as [description|]; [|done]. unfold bind.
    destruct (bridge_call w b W "find_element"
                (JObj [("text", JStr description)])
                default_timeout Hb Hr) as (fields & b1 & Hc & _ & Hr1 & Hs1).
    unfold find_element, add_if. cbv zeta. rewrite Hg. cbn [given set_field].
    change (jstr (Some description)) with (JStr description). rewrite Hc. unfold eval.
    assert (exists l,
      sent b1 = sent b ++ l /\
      Forall (fun c => exists k,
        c = command_frame k "find_element" (JObj [("text", JStr description)]) \/
        c = command_frame k "type"
              (JObj [("text", JStr text); ("clear", JBool clear)])) l)
      as (l1 & Hsent & Hl1).
    { destruct Hs1 as [->| ->]; [exists []; by rewrite app_nil_r|].
      eexists. split; [done|]. apply Forall_singleton. eexists. by left. }
    destruct (success_and (JObj fields) "found") as [found|e]; simpl;
      [|split; [done|]; by exists b1, l1].
    destruct (truthy found); cbn [negb];
      [|split; [done|]; by exists b1, l1].
    exact (Htype (with_bridge (Some b1) w) b1 l1 eq_refl Hr1 eq_refl Hsent Hl1).
  - exact (Htype w b [] Hb Hr eq_refl (eq_sym (app_nil_r _)) (Forall_nil_2 _)).
Qed.

(** X14: the frames [type] sends. On a bridge in a reachable state, every
    frame a call of [type] adds asks to find the described element by its
    text, to type the text with the [clear] flag, or, when [enter] is set,
    to type nothing and press Enter; none carries a selector, so the text
    is typed wherever the page has the focus. *)
Theorem type_never_names_the_element w b W text element_description overwrite enter :
  bridge w = Some b -> reachable (mkSystem b W) ->
  let r := type peer visual text element_description overwrite enter w in
  exists b' l,
    bridge r.2 = Some b' /\ sent b' = sent b ++ l /\
    Forall (fun c => exists k params,
      c = JObj [("id", JStr k); ("action", JStr "find_element");
                ("params", JObj [("text", JStr element_description)])] \/
      c = JObj [("id", JStr k); ("action", JStr "type"); ("params", JObj params)] /\
      lookup_field "selector" params = None /\
      (params = [("text", JStr text); ("clear", JBool overwrite)] \/
       enter = true /\ params = [("text", JStr ""); ("pressEnter", JBool true)])) l.
Proof.
  intros Hb Hr r. unfold r, type. HybridFacts.enter_method.
  destruct (_should_use_browser w);
    [|exists b, []; simpl; by rewrite Hb, app_nil_r].
  set (description := if negb (String.eqb element_description "")
                      then Some element_description else None).
  destruct (try_type_frames w b W text description overwrite Hb Hr)
    as (_ & b1 & l1 & Hb1 & Hr1 & Hs1 & Hl1).
  assert (Forall (fun c => exists k params,
      c = JObj [("id", JStr k); ("action", JStr "find_element");
                ("params", JObj [("text", JStr element_description)])] \/
      c = JObj [("id", JStr k); ("action", JStr "type"); ("params", JObj params)] /\
      lookup_field "selector" params = None /\
      (params = [("text", JStr text); ("clear", JBool overwrite)] \/
       enter = true /\ params = [("text", JStr ""); ("pressEnter", JBool true)])) l1)
    as Hl.
  { eapply Forall_impl; [exact Hl1|]. intros c [k [->| ->]]; exists k.
    - exists []. left. unfold command_frame, description.
      destruct (String.eqb element_description "") eqn:He; simpl.
      + apply String.eqb_eq in He. by subst.
      + destruct element_description; [done|]. done.
    - eexists. right. split; [done|]. split; [done|by left]. }
  destruct (_try_browser_type peer text description overwrite w)
    as [[[code|]|e] w1]; simpl in Hb1.
  - destruct enter.
    + destruct (bridge_call w1 b1 W "type"
                  (JObj [("text", JStr ""); ("pressEnter", JBool true)])
                  default_timeout Hb1 Hr1) as (fields & b2 & Hc & _ & _ & Hs2).
      rewrite Hc. simpl. exists b2.
      destruct Hs2 as [->| ->]; rewrite Hs1; [by exists l1|].
      eexists. rewrite <- app_assoc. split; [done|]. split; [done|].
      apply Forall_app. split; [done|]. apply Forall_singleton.
      do 2 eexists. right. split; [done|]. split; [done|]. by right.
    + simpl. by exists b1, l1.
  - simpl. by exists b1, l1.
  - simpl. by exists b1, l1.
Qed.

(** X15: once the text was typed in the page, [type] sends the Enter
    and does not look at its outcome: whatever dict the command returns,
    [type] returns the completion it got from [_try_browser_type]; it
    raises only what the command raises. With the peer gone in between
    no Enter is sent at all. The visual executor is not called. *)
Theorem type_ignores_the_outcome_of_enter w w1 b1 code text element_description overwrite :
  _should_use_browser w = true ->
  _try_browser_type peer text
    (if negb (String.eqb element_description "") then Some element_description else None)
    overwrite w = (Returned (Some code), w1) ->
  bridge w1 = Some b1 ->
  let r := type peer visual text element_description overwrite true w in
  let enter := send_command peer "type"
                 (JObj [("text", JStr ""); ("pressEnter", JBool true)])
                 default_timeout b1 in
  (forall o, enter.1 = Returned o ->
     r = (Returned code, with_bridge (Some enter.2) w1)) /\
  (forall e, enter.1 = Raised e ->
     r = (Raised e, with_bridge (Some enter.2) w1)) /\
  visual_calls r.2 = visual_calls w1 /\
  (connected b1 = false -> r = (Returned code, w1)).
Proof.
  intros Hu Ht Hb1 r enter. unfold r, type. HybridFacts.enter_method. rewrite Hu.
  rewrite Ht. rewrite (on_bridge_outcome _ w1 b1 Hb1). fold enter.
  assert (connected b1 = false -> enter = (Returned (failure "Extension not connected"), b1))
    as Hoff by (intros Hc; by apply BridgeMoreFacts.refused_when_unconnected).
  destruct enter as [[o|e] b2]; simpl.
  - split; [done|]. split; [done|]. split; [done|].
    intros Hc. injection (Hoff Hc) as _ ->. f_equal.
    destruct w1; simpl in *. by rewrite Hb1.
  - split; [done|]. split; [by intros e0 [= <-]|]. split; [done|].
    intros Hc. by specialize (Hoff Hc).
Qed.

(** X16: what the two queries can raise, by the outcome of their bridge
    command. Each raises what its command raises and, on an outcome that
    is no dict, the [AttributeError] of the missing [get]. On a dict
    [get_page_content] always returns; [get_browser_screenshot] raises
    in one more case only: the dict is a success whose [result] is
    present and is not a dict ([null], say), and then it raises that
    same [AttributeError]. *)
Theorem queries_raise_only_on_a_non_dict_result w b :
  bridge w = Some b ->
  let dom := get_dom peer true b in
  let shot := screenshot peer b in
  (forall e, (get_page_content peer w).1 = Raised e ->
     _should_use_browser w = true /\
     (dom.1 = Raised e \/
      e = mkExn AttributeError "object has no attribute 'get'" /\
      exists o, dom.1 = Returned o /\ forall fields, o <> JObj fields)) /\
  (forall fields, dom.1 = Returned (JObj fields) ->
     exists v, (get_page_content peer w).1 = Returned v) /\
  (forall e, (get_browser_screenshot peer w).1 = Raised e ->
     browser_available w = true /\
     (shot.1 = Raised e \/
      e = mkExn AttributeError "object has no attribute 'get'" /\
      exists o, shot.1 = Returned o /\
        ((forall fields, o <> JObj fields) \/
         exists fields payload,
           o = JObj fields /\
           truthy (default JNull (lookup_field "success" fields)) = true /\
           lookup_field "result" fields = Some payload /\
           forall items, payload <> JObj items))).
Proof.
  intros Hb dom shot. split; [|split].
  - intros e. unfold get_page_content. HybridFacts.enter_method.
    destruct (_should_use_browser w); cbn [negb]; [|done].
    rewrite (on_bridge_outcome _ w b Hb). fold dom.
    destruct dom as [[o|e0] b']; unfold eval; simpl.
    + destruct o as [| | | | |fields]; simpl;
        try (intros [= <-]; split; [done|]; right; split; [done|];
             eexists; split; [done|]; done).
      by destruct (truthy _).
    + intros [= <-]. split; [done|]. by left.
  - intros fields Hd. unfold get_page_content. HybridFacts.enter_method.
    destruct (_should_use_browser w); cbn [negb]; [|by eexists].
    rewrite (on_bridge_outcome _ w b Hb). fold dom.
    destruct dom as [[o|e0] b']; simpl in Hd; [|done]. injection Hd as ->.
    unfold eval. simpl. destruct (truthy _); by eexists.
  - intros e. unfold get_browser_screenshot. HybridFacts.enter_method.
    destruct (browser_available w); cbn [negb]; [|done].
    rewrite (on_bridge_outcome _ w b Hb). fold shot.
    destruct shot as [[o|e0] b']; unfold eval; simpl.
    + destruct o as [| | | | |fields]; simpl;
        try (intros [= <-]; split; [done|]; right; split; [done|];
             eexists; split; [done|]; by left).
      destruct (truthy (default JNull (lookup_field "success" fields))) eqn:Hsu;
        [|done].
      destruct (lookup_field "result" fields) as [payload|] eqn:Hl; simpl; [|done].
      destruct payload; simpl; try done; intros [= <-]; (split; [done|]); right;
        (split; [done|]); (eexists; split; [done|]); right;
        exists fields; eexists; by repeat split.
    + intros [= <-]. split; [done|]. by left.
Qed.

(** X17: a router built without a bridge is visual only. When the
    [websockets] package is missing (so that no bridge exists), or when
    the router is created with [enable_browser] or [auto_start_bridge]
    off, [HybridACI.__init__] constructs no bridge and leaves the
    [bridge] field [None]; the router then hands every click, type and
    scroll to the visual executor, opens addresses with the launcher,
    answers both queries with [None], reports a context with every flag
    off, and never raises on the missing bridge. *)
Theorem router_without_bridge_is_visual_only p enable auto active :
  Singleton.websockets p = false /\ Singleton._bridge p = None \/
  enable && auto = false ->
  exists fields,
    Singleton.HybridACI_new enable auto p = (Returned fields, p) /\
    let w := constructed p fields active in
    bridge w = None /\
    (forall element_description num_clicks button_type hold_keys,
       let call := VisualClick element_description num_clicks button_type hold_keys in
       click peer visual element_description num_clicks button_type hold_keys w
         = (Returned (visual call), with_visual_calls [call] w)) /\
    (forall text element_description overwrite enter,
       let call := VisualType text element_description overwrite enter in
       type peer visual text element_description overwrite enter w
         = (Returned (visual call), with_visual_calls [call] w)) /\
    (forall element_description direction amount,
       let call := VisualScroll element_description direction amount in
       scroll peer visual element_description direction amount w
         = (Returned (visual call), with_visual_calls [call] w)) /\
    (forall url,
       goto peer repr url w
         = (Returned ("import webbrowser; webbrowser.open(" +:+ repr url +:+ ")"), w)) /\
    get_page_content peer w = (Returned JNull, w) /\
    get_browser_screenshot peer w = (Returned JNull, w) /\
    (forall h h', exists info,
       get_current_context h h' w =
         Returned (JObj [("browser_available", JBool false);
                         ("should_use_browser", JBool false);
                         ("active_window", info);
                         ("bridge_connected", JBool false)])).
Proof.
  intros H.
  assert (exists e, Singleton.HybridACI_new enable auto p = (Returned (e, None), p))
    as [e He].
  { unfold Singleton.HybridACI_new.
    destruct (enable && auto) eqn:Hea; [|by eexists].
    destruct H as [[Hw Hg]|H]; [|done].
    unfold Singleton.get_browser_bridge, try_except, bind, gets. cbv beta.
    rewrite Hg. unfold bind, Singleton.BrowserBridge_new. rewrite Hw. simpl.
    by eexists. }
  exists (e, None). split; [done|]. unfold constructed. cbn [fst snd].
  set (w := mkACI e None active []).
  assert (browser_available w = false) as Ha by done.
  assert (_should_use_browser w = false) as Hu by done.
  split; [done|].
  repeat split; intros;
    unfold click, type, scroll, goto, get_page_content, get_browser_screenshot;
    HybridFacts.enter_method; rewrite ?Hu, ?Ha; try done.
  destruct (DetectorFacts.window_info_shape h)
    as (title & process & is_browser & rest & Hi).
  eexists. unfold get_current_context. rewrite Hi. done.
Qed.

End MoreRouting.

Lemma reachable_router_bridge :
  reachable (mkSystem (Bridge.bridge Scenario.attached) []).
Proof.
  exists [BridgeStarts; LoopRuns (PeerConnects 7)]. vm_compute. reflexivity.
Qed.

(** The theorem at work: a peer that answers the scroll with a success. *)
Lemma scroll_settles_or_falls_back_once_witness :
  let r := scroll (Peers.obliging JNull (1 # 1)) Scenario.pyautogui
             "" "down" 3 Scenario.in_browser in
  bridge Scenario.in_browser = Some (Bridge.bridge Scenario.attached) /\
  r.1 = Returned "import time; time.sleep(0.2)  # DOM scroll completed" /\
  visual_calls r.2 = visual_calls Scenario.in_browser.
Proof.
  intros r. split; [reflexivity|].
  destruct (scroll_settles_or_falls_back_once (Peers.obliging JNull (1 # 1))
              Scenario.pyautogui Scenario.in_browser (Bridge.bridge Scenario.attached)
              "" "down" 3 eq_refl) as [_ H].
  destruct H as (_ & Hd & _); [vm_compute; reflexivity|].
  exact (Hd [("id", JStr "cmd-1"); ("success", JBool true); ("result", JNull)]
            ltac:(vm_compute; reflexivity)).
Defined.

Lemma type_never_names_the_element_witness :
  bridge Scenario.in_browser = Some (Bridge.bridge Scenario.attached) /\
  reachable (mkSystem (Bridge.bridge Scenario.attached) []) /\
  let r := type (Peers.obliging (JObj [("found", JBool true); ("typed", JBool true)]) (1 # 1))
             Scenario.pyautogui "hello" "Search" false true Scenario.in_browser in
  exists b' l,
    bridge r.2 = Some b' /\
    sent b' = sent (Bridge.bridge Scenario.attached) ++ l /\
    Forall (fun c => exists k params,
      c = JObj [("id", JStr k); ("action", JStr "find_element");
                ("params", JObj [("text", JStr "Search")])] \/
      c = JObj [("id", JStr k); ("action", JStr "type"); ("params", JObj params)] /\
      lookup_field "selector" params = None /\
      (params = [("text", JStr "hello"); ("clear", JBool false)] \/
       true = true /\ params = [("text", JStr ""); ("pressEnter", JBool true)])) l.
Proof.
  split; [reflexivity|]. split; [exact reachable_router_bridge|].
  exact (type_never_names_the_element
           (Peers.obliging (JObj [("found", JBool true); ("typed", JBool true)]) (1 # 1))
           Scenario.pyautogui Scenario.in_browser (Bridge.bridge Scenario.attached)
           [] "hello" "Search" false true eq_refl reachable_router_bridge).
Defined.

(** The theorem at work: the peer answers the typing and the Enter. *)
Lemma type_ignores_the_outcome_of_enter_witness :
  _should_use_browser Scenario.in_browser = true /\
  (type (Peers.obliging (JObj [("typed", JBool true)]) (1 # 1))
     Scenario.pyautogui "hello" "" false true Scenario.in_browser).1
    = Returned "import time; time.sleep(0.2)  # DOM type completed".
Proof.
  split; [vm_compute; reflexivity|].
  pose (peer := Peers.obliging (JObj [("typed", JBool true)]) (1 # 1)).
  pose (typing := JObj [("text", JStr "hello"); ("clear", JBool false)]).
  pose (b1 := (send_command peer "type" typing default_timeout
                 (Bridge.bridge Scenario.attached)).2).
  destruct (type_ignores_the_outcome_of_enter peer Scenario.pyautogui
              Scenario.in_browser
              (_try_browser_type peer "hello" None false Scenario.in_browser).2
              b1 "import time; time.sleep(0.2)  # DOM type completed"
              "hello" "" false) as [H _].
  - vm_compute. reflexivity.
  - vm_compute. reflexivity.
  - vm_compute. reflexivity.
  - exact (f_equal fst
             (H (JObj [("id", JStr "cmd-2"); ("success", JBool true);
                       ("result", JObj [("typed", JBool true)])])
                ltac:(vm_compute; reflexivity))).
Defined.

(** The theorem at work: the peer answers the query with a page. *)
Lemma queries_raise_only_on_a_non_dict_result_witness :
  bridge Scenario.in_browser = Some (Bridge.bridge Scenario.attached) /\
  exists v, (get_page_content (Peers.obliging (JStr "<html>") (1 # 1))
               Scenario.in_browser).1 = Returned v.
Proof.
  split; [reflexivity|].
  destruct (queries_raise_only_on_a_non_dict_result
              (Peers.obliging (JStr "<html>") (1 # 1)) Scenario.in_browser
              (Bridge.bridge Scenario.attached) eq_refl) as (_ & H & _).
  apply (H [("id", JStr "cmd-1"); ("success", JBool true);
            ("result", JStr "<html>")]).
  vm_compute. reflexivity.
Defined.

(** A screenshot answered with a success and no picture: the [get] on
    [null] raises. *)
Example screenshot_of_a_null_result :
  (get_browser_screenshot (Peers.obliging JNull (1 # 1)) Scenario.in_browser).1
    = Raised (mkExn AttributeError "object has no attribute 'get'").
Proof. vm_compute. reflexivity. Qed.

Lemma router_without_bridge_is_visual_only_witness :
  Singleton.websockets (Singleton.mkProcess false [] None) = false /\
  exists fields,
    Singleton.HybridACI_new true true (Singleton.mkProcess false [] None)
      = (Returned fields, Singleton.mkProcess false [] None) /\
    bridge (constructed (Singleton.mkProcess false [] None) fields true) = None.
Proof.
  split; [reflexivity|].
  destruct (router_without_bridge_is_visual_only Scenario.silent Scenario.pyautogui
              Scenario.quoted (Singleton.mkProcess false [] None) true true true
              (or_introl (conj eq_refl eq_refl))) as (fields & Hn & Hb & _).
  exists fields. split; [exact Hn|exact Hb].
Defined.

End HybridMoreFacts.

Module EchoFacts.

Import EchoServer.

(** The receive loop of the echo server: it sends back the messages it
    got, in order, up to the first send that fails. *)
Lemma echo_loop_prefix alive inbound how c :
  exists n,
    (n <= length inbound)%nat /\
    echoed (echo_loop alive inbound how c).2 = echoed c ++ take n inbound /\
    ((n < length inbound)%nat ->
     alive (length (echoed c) + n)%nat = false /\
     (echo_loop alive inbound how c).1
       = Raised (mkExn ConnectionClosed "connection closed")) /\
    (n = length inbound ->
     (echo_loop alive inbound how c).1 =
       match how with
       | Bridge.ClosedOK => Returned tt
       | Bridge.ClosedError => Raised (mkExn ConnectionClosed "connection closed")
       end).
Proof.
  revert c. induction inbound as [|message rest IH]; intros c.
  - exists 0%nat. destruct how; simpl; rewrite app_nil_r;
      (split; [lia|]; split; [done|]; split; [intros H; lia|done]).
  - cbn [echo_loop]. unfold bind, logging, modify, send. cbn [echoed lines].
    destruct (alive (length (echoed c))) eqn:Ha.
    + destruct (IH (mkConnection (echoed c ++ [message])
                      (lines c ++ ["Received message: " +:+ message])))
        as (n & Hn & He & Hlt & Heq).
      exists (S n). cbn [length take]. cbn [echoed] in He, Hlt.
      rewrite length_app in Hlt. cbn [length] in Hlt.
      rewrite He, <- app_assoc. repeat split; [lia|..].
      * replace (length (echoed c) + S n)%nat
          with (length (echoed c) + 1 + n)%nat by lia.
        apply Hlt. lia.
      * apply Hlt. lia.
      * intros E. apply Heq. lia.
    + exists 0%nat. cbn [length take echoed snd fst]. rewrite app_nil_r.
      rewrite Nat.add_0_r. repeat split; [lia|done|]. lia.
Qed.

(** X18: the stand-alone echo server's handler never raises, however
    the connection ends, and what it has sent back is what it had sent
    before followed by a prefix of the messages received, in their order:
    all of them when no send fails, and otherwise the ones before the
    first send that failed. *)
Theorem handler_echoes_a_prefix alive inbound how c :
  let r := handler alive inbound how c in
  r.1 = Returned tt /\
  exists n,
    (n <= length inbound)%nat /\
    echoed r.2 = echoed c ++ take n inbound /\
    ((n < length inbound)%nat -> alive (length (echoed c) + n)%nat = false) /\
    ((forall i, alive i = true) -> echoed r.2 = echoed c ++ inbound).
Proof.
  intros r. unfold r, handler, bind, try_except, logging, modify.
  set (c1 := mkConnection (echoed c) (lines c ++ ["Client connected"])).
  destruct (echo_loop_prefix alive inbound how c1) as (n & Hn & He & Hlt & Heq).
  destruct (echo_loop alive inbound how c1) as [[[]|e] c2] eqn:El;
    cbn [fst snd] in *.
  - split; [done|]. exists n. repeat split; [done|done|by intros H; apply Hlt|].
    intros Hall. rewrite He.
    destruct (decide (n < length inbound)%nat) as [Hd|Hd].
    + destruct (Hlt Hd) as [Hf _]. by rewrite Hall in Hf.
    + by rewrite take_ge by lia.
  - assert (forall text : string,
      echoed (mkConnection (echoed c2) (lines c2 ++ [text])) = echoed c2) as Hk by done.
    destruct (cls e); cbn [fst snd]; rewrite ?Hk;
      (split; [done|]; exists n;
       repeat split; [done|done|by intros H; apply Hlt|];
       intros Hall; rewrite He;
       destruct (decide (n < length inbound)%nat) as [Hd|Hd];
       [destruct (Hlt Hd) as [Hf _]; by rewrite Hall in Hf
       |by rewrite take_ge by lia]).
Qed.

End EchoFacts.
